(** * dbwrite: tick aggregation, bar buffers, Green Arrow and the trade manager

    A shallow embedding of the Go sources of the market-data pipeline:
    - [time]       the parts of Go's [time] package the sources call;
    - [candle]     candle/aggregator.go (tick parser, timeframe state machine,
                   the workers and their manager);
    - [dbwriter]   the writer service (processMessage, insertKlineToDB);
    - [ws]         api/ws (CandleBuffer, MultiPeriodManager, the hub's
                   subscriptions and its broadcast of bar events);
    - [indicators] api/ws/indicators (Bollinger bands, Green Arrow);
    - [services]   the strategy runtime (TradeManager, CalculateLots, the
                   strategies, their instances and EARuntimeService).

    Conventions.  A [time.Time] is the number of nanoseconds since Go's zero
    time (0001-01-01T00:00:00 UTC); a [time.Duration] is an int64 number of
    nanoseconds.  Prices and money ([float64] in the sources) are exact
    rationals [Q] wherever the code only compares, copies, adds or clamps
    them; the indicator, which takes square roots, is embedded on the
    kernel's binary64 floats.  A goroutine started with [go] is run at the
    point where it is started, so the order of a list of published events is
    the order in which the publishes are issued. *)

From Stdlib Require Import ZArith QArith Qround Qabs Qminmax Lqa Lia Bool List String Ascii.
From Stdlib Require Import Floats.PrimFloat Uint63.
From stdpp Require Import base option list sorting gmap strings pretty.

(** ** Go's [time] package *)

Module time.

Abbreviation Time := Z (only parsing).
Abbreviation Duration := Z (only parsing).

Definition Nanosecond : Duration := 1%Z.
Definition Second : Duration := 1000000000%Z.
Definition Minute : Duration := (60 * Second)%Z.
Definition Hour : Duration := (60 * Minute)%Z.

Definition maxDuration : Duration := (2 ^ 63 - 1)%Z.
Definition minDuration : Duration := (- 2 ^ 63)%Z.

(** [t.Truncate(d)]: round [t] down to a multiple of [d] since the zero time;
    [t] itself when [d <= 0]. *)
Definition Truncate (t : Time) (d : Duration) : Time :=
  if (d <=? 0)%Z then t else (t - t mod d)%Z.

(** [t.Sub(u)]: the difference, or the largest (smallest) Duration when the
    difference does not fit in one. *)
Definition Sub (t u : Time) : Duration :=
  let d := (t - u)%Z in
  if (maxDuration <? d)%Z then maxDuration
  else if (d <? minDuration)%Z then minDuration
  else d.

Definition Add (t : Time) (d : Duration) : Time := (t + d)%Z.
Definition After (t u : Time) : bool := (u <? t)%Z.
Definition Before (t u : Time) : bool := (t <? u)%Z.
Definition Equal (t u : Time) : bool := (t =? u)%Z.

(** *** [time.ParseInLocation] for the layout ["2006-01-02T15:04:05"] in UTC

    The chunks of the layout are: a four-digit year, a two-digit month, a
    two-digit day, an hour of one or two digits, a two-digit minute, a
    two-digit second; the characters between them must match.  Go's parser
    also accepts a fractional second after the seconds ([.] or [,] and
    digits) that the layout does not mention.  Text left over, a field out
    of range or a day the month does not have is an error. *)

Definition isDigit (c : ascii) : bool :=
  let n := nat_of_ascii c in (48 <=? n)%nat && (n <=? 57)%nat.

Definition digit (c : ascii) : Z := (Z.of_nat (nat_of_ascii c) - 48)%Z.

Definition getnum (s : string) (fixed : bool) : option (Z * string) :=
  match s with
  | String c0 rest0 =>
      if isDigit c0 then
        match rest0 with
        | String c1 rest1 =>
            if isDigit c1 then Some ((digit c0 * 10 + digit c1)%Z, rest1)
            else if fixed then None else Some (digit c0, rest0)
        | EmptyString => if fixed then None else Some (digit c0, rest0)
        end
      else None
  | EmptyString => None
  end.

Definition getyear (s : string) : option (Z * string) :=
  match s with
  | String a (String b (String c (String d rest))) =>
      if isDigit a && isDigit b && isDigit c && isDigit d then
        Some ((((digit a * 10 + digit b) * 10 + digit c) * 10 + digit d)%Z, rest)
      else None
  | _ => None
  end.

Definition skip (prefix : ascii) (value : string) : option string :=
  match value with
  | String c rest => if Ascii.eqb c prefix then Some rest else None
  | EmptyString => None
  end.

Definition commaOrPeriod (c : ascii) : bool :=
  Ascii.eqb c "."%char || Ascii.eqb c ","%char.

(** The digits [s] starts with, and what follows them. *)
Fixpoint leadingDigits (s : string) : list ascii * string :=
  match s with
  | String c rest =>
      if isDigit c then
        let '(ds, r) := leadingDigits rest in (c :: ds, r)
      else ([], s)
  | EmptyString => ([], s)
  end.

(** parseNanoseconds: at most nine digits count, scaled to nanoseconds. *)
Definition parseNanoseconds (ds : list ascii) : Z :=
  let kept := take 9 ds in
  (fold_left (fun acc c => acc * 10 + digit c) kept 0 * 10 ^ Z.of_nat (9 - length kept))%Z.

Definition fraction (value : string) : Z * string :=
  match value with
  | String c0 (String c1 _ as rest) =>
      if commaOrPeriod c0 && isDigit c1 then
        let '(ds, r) := leadingDigits rest in (parseNanoseconds ds, r)
      else (0%Z, value)
  | _ => (0%Z, value)
  end.

Definition isLeap (year : Z) : bool :=
  (year mod 4 =? 0)%Z && (negb (year mod 100 =? 0)%Z || (year mod 400 =? 0)%Z).

Definition daysIn (month year : Z) : Z :=
  if (month =? 2)%Z then (if isLeap year then 29 else 28)%Z
  else if (month =? 4)%Z || (month =? 6)%Z || (month =? 9)%Z || (month =? 11)%Z
       then 30%Z else 31%Z.

(** Days from the first of January to the first of [month]. *)
Definition daysBefore (month year : Z) : Z :=
  (nth (Z.to_nat (month - 1)) [0; 31; 59; 90; 120; 151; 181; 212; 243; 273; 304; 334] 0
   + (if (2 <? month)%Z && isLeap year then 1 else 0))%Z.

(** Days from 0001-01-01 to the first of January of [year]. *)
Definition daysSinceZero (year : Z) : Z :=
  let y := (year - 1)%Z in (365 * y + y / 4 - y / 100 + y / 400)%Z.

(** [time.Date(year, month, day, hour, min, sec, nsec, time.UTC)]. *)
Definition Date (year month day hour min sec nsec : Z) : Time :=
  (((((daysSinceZero year + daysBefore month year + (day - 1)) * 24 + hour) * 60
      + min) * 60 + sec) * Second + nsec)%Z.

(** A range check of the parser: failing it is a parse error. *)
Definition check (ok : bool) : option unit := if ok then Some tt else None.

Definition ParseInLocation (value : string) : option Time :=
  '(year, value) ← getyear value;
  value ← skip "-" value;
  '(month, value) ← getnum value true;
  _ ← check ((0 <? month)%Z && (month <=? 12)%Z);
  value ← skip "-" value;
  '(day, value) ← getnum value true;
  value ← skip "T" value;
  '(hour, value) ← getnum value false;
  _ ← check (hour <? 24)%Z;
  value ← skip ":" value;
  '(min, value) ← getnum value true;
  _ ← check (min <? 60)%Z;
  value ← skip ":" value;
  '(sec, value) ← getnum value true;
  _ ← check (sec <? 60)%Z;
  let '(nsec, value) := fraction value in
  _ ← check (String.eqb value "");
  _ ← check ((1 <=? day)%Z && (day <=? daysIn month year)%Z);
  Some (Date year month day hour min sec nsec).

End time.

(** Two's-complement wrap-around of an int64 result. *)
Definition wrap64 (z : Z) : Z := ((z + 2 ^ 63) mod 2 ^ 64 - 2 ^ 63)%Z.

Definition Qltb (a b : Q) : bool := negb (Qle_bool b a).
Definition Qgtb (a b : Q) : bool := negb (Qle_bool a b).

(** ** candle/aggregator.go *)

Module candle.

Record CleanTick := {
  tick_Symbol : string;
  Price : Q;
  tick_Volume : Z;
  Timestamp : time.Time
}.

Record Candle := {
  Symbol : string;
  Timeframe : string;
  StartTime : time.Time;
  Open : Q;
  High : Q;
  Low : Q;
  Close : Q;
  Volume : Z
}.

Record PublishEvent := {
  Status : string;
  EventCandle : Candle
}.

(** The struct without its mutex and its Redis handle. *)
Record TimeframeAggregator := {
  agg_Symbol : string;
  agg_Timeframe : time.Duration;
  TfName : string;
  currentCandle : option Candle
}.

Definition NewTimeframeAggregator (symbol tfName : string) (timeframe : Z)
  : TimeframeAggregator :=
  {| agg_Symbol := symbol; agg_Timeframe := timeframe; TfName := tfName;
     currentCandle := None |}.

Definition set_currentCandle (t : TimeframeAggregator) (c : option Candle)
  : TimeframeAggregator :=
  {| agg_Symbol := agg_Symbol t; agg_Timeframe := agg_Timeframe t;
     TfName := TfName t; currentCandle := c |}.

Definition max (a b : Q) : Q := if Qgtb a b then a else b.
Definition min (a b : Q) : Q := if Qltb a b then a else b.

(** What a call writes to the log. *)
Inductive LogLine :=
| TimeGapDetected (missed : Z) (from to : Z)
| FilledMissingBar (at_time : Z)
| OutOfOrderTick (tick_window current : Z).

(** What a call does to the outside: the events it publishes, in the order
    the publishes are issued, and the lines it logs. *)
Record Emitted := {
  published : list PublishEvent;
  logged : list LogLine
}.

Definition nothing : Emitted := {| published := []; logged := [] |}.

Definition emit_app (a b : Emitted) : Emitted :=
  {| published := published a ++ published b; logged := logged a ++ logged b |}.

Definition publishCandle (t : TimeframeAggregator) (status : string) : Emitted :=
  match currentCandle t with
  | None => nothing
  | Some c => {| published := [ {| Status := status; EventCandle := c |} ];
                 logged := [] |}
  end.

(** The loop of fillMissingBars: [n] iterations from [currentTime]. *)
Fixpoint fillLoop (t : TimeframeAggregator) (lastClose : Q) (currentTime : Z)
  (n : nat) : Emitted :=
  match n with
  | O => nothing
  | S n' =>
      let currentTime' := time.Add currentTime (agg_Timeframe t) in
      let missingCandle :=
        {| Symbol := agg_Symbol t; Timeframe := TfName t;
           StartTime := currentTime';
           Open := lastClose; High := lastClose; Low := lastClose;
           Close := lastClose; Volume := 0%Z |} in
      emit_app
        {| published := [ {| Status := "CLOSE"; EventCandle := missingCandle |} ];
           logged := [ FilledMissingBar currentTime' ] |}
        (fillLoop t lastClose currentTime' n')
  end.

Definition fillMissingBars (t : TimeframeAggregator) (count : Z) : Emitted :=
  match currentCandle t with
  | None => nothing
  | Some c =>
      if (count <=? 0)%Z then nothing
      else fillLoop t (Close c) (StartTime c) (Z.to_nat count)
  end.

Definition freshCandle (t : TimeframeAggregator) (tickWindowStart : Z)
  (tick : CleanTick) : Candle :=
  {| Symbol := agg_Symbol t; Timeframe := TfName t;
     StartTime := tickWindowStart;
     Open := Price tick; High := Price tick; Low := Price tick;
     Close := Price tick; Volume := tick_Volume tick |}.

(** ProcessTick.  The periods NewSymbolAggregator gives its machines are
    positive; with a period of 0 the division below panics in Go, a case
    this function does not have. *)
Definition ProcessTick (t : TimeframeAggregator) (tick : CleanTick)
  : TimeframeAggregator * Emitted :=
  let tickWindowStart := time.Truncate (Timestamp tick) (agg_Timeframe t) in
  match currentCandle t with
  | None =>
      let t1 := set_currentCandle t (Some (freshCandle t tickWindowStart tick)) in
      (t1, publishCandle t1 "UPDATE")
  | Some cur =>
      if time.After tickWindowStart (StartTime cur) then
        let missedBars :=
          (time.Sub tickWindowStart (StartTime cur) ÷ agg_Timeframe t)%Z in
        let filled :=
          if (1 <? missedBars)%Z then
            emit_app
              {| published := [];
                 logged := [ TimeGapDetected (missedBars - 1) (StartTime cur)
                               tickWindowStart ] |}
              (fillMissingBars t (missedBars - 1))
          else nothing in
        let closed := publishCandle t "CLOSE" in
        let t1 := set_currentCandle t (Some (freshCandle t tickWindowStart tick)) in
        (t1, emit_app filled (emit_app closed (publishCandle t1 "UPDATE")))
      else if time.Equal tickWindowStart (StartTime cur) then
        let cur' :=
          {| Symbol := Symbol cur; Timeframe := Timeframe cur;
             StartTime := StartTime cur; Open := Open cur;
             High := max (High cur) (Price tick);
             Low := min (Low cur) (Price tick);
             Close := Price tick;
             Volume := wrap64 (Volume cur + tick_Volume tick) |} in
        let t1 := set_currentCandle t (Some cur') in
        (t1, publishCandle t1 "UPDATE")
      else if time.Before tickWindowStart (StartTime cur) then
        (t, {| published := [];
               logged := [ OutOfOrderTick tickWindowStart (StartTime cur) ] |})
      else (t, nothing)
  end.

(** A sequence of ticks fed to one state machine, one after the other. *)
Fixpoint feed (t : TimeframeAggregator) (ticks : list CleanTick)
  : TimeframeAggregator * Emitted :=
  match ticks with
  | [] => (t, nothing)
  | tick :: rest =>
      let '(t1, e1) := ProcessTick t tick in
      let '(t2, e2) := feed t1 rest in
      (t2, emit_app e1 e2)
  end.

(** *** The tick parser and the manager *)

(** [Data.Args] of an upstream frame; a field the JSON does not carry holds
    Go's zero value (the empty string, 0). *)
Record QuoteArgs := {
  arg_Symbol : string;
  Bid : Q;
  Ask : Q;
  arg_Time : string;
  arg_High : Q;
  arg_Low : Q;
  Spread : Q
}.

Record UpstreamQuote := {
  Id : Z;
  Type_ : string;
  Args : QuoteArgs
}.

(** A Go result [(T, error)]. *)
Inductive result (A : Type) :=
| Ok (a : A)
| Err (msg : string).
Arguments Ok {A} a.
Arguments Err {A} msg.

(** [strings.Contains(s, sep)] for a separator of one character. *)
Fixpoint Contains (s : string) (sep : ascii) : bool :=
  match s with
  | EmptyString => false
  | String c rest => if Ascii.eqb c sep then true else Contains rest sep
  end.

(** [strings.SplitN(s, sep, 2)[0]]: the text before the first [sep], all of
    [s] when there is none. *)
Fixpoint SplitN_head (s : string) (sep : ascii) : string :=
  match s with
  | EmptyString => EmptyString
  | String c rest =>
      if Ascii.eqb c sep then EmptyString else String c (SplitN_head rest sep)
  end.

Definition parseQuote (quote : UpstreamQuote) : result CleanTick :=
  if negb (String.eqb (Type_ quote) "Quote") then Err "not a quote message"
  else
    let args := Args quote in
    match time.ParseInLocation (arg_Time args) with
    | None => Err ("invalid time format: " +:+ arg_Time args)
    | Some ts =>
        let cleanSymbol :=
          if Contains (arg_Symbol args) "." then SplitN_head (arg_Symbol args) "."
          else arg_Symbol args in
        Ok {| tick_Symbol := cleanSymbol; Price := Bid args;
              tick_Volume := 1%Z; Timestamp := ts |}
    end.

Record SymbolAggregator := {
  sa_Symbol : string;
  Timeframes : gmap string TimeframeAggregator
}.

Definition NewSymbolAggregator (symbol : string) : SymbolAggregator :=
  {| sa_Symbol := symbol;
     Timeframes :=
       <["M1" := NewTimeframeAggregator symbol "M1" time.Minute]>
       (<["M5" := NewTimeframeAggregator symbol "M5" (5 * time.Minute)]>
       (<["M15" := NewTimeframeAggregator symbol "M15" (15 * time.Minute)]>
       (<["M30" := NewTimeframeAggregator symbol "M30" (30 * time.Minute)]>
       (<["H1" := NewTimeframeAggregator symbol "H1" time.Hour]>
       (<["H4" := NewTimeframeAggregator symbol "H4" (4 * time.Hour)]>
       (<["D1" := NewTimeframeAggregator symbol "D1" (24 * time.Hour)]> ∅)))))) |}.

(** SymbolAggregator.ProcessTick: every timeframe gets the tick.  The
    events of different timeframes go to different channels, so only the
    new state of each machine is kept here. *)
Definition SymbolAggregator_ProcessTick (s : SymbolAggregator) (tick : CleanTick)
  : SymbolAggregator :=
  {| sa_Symbol := sa_Symbol s;
     Timeframes := (fun tfAgg => fst (ProcessTick tfAgg tick)) <$> Timeframes s |}.

(** startSymbolWorker: the worker hands every tick of its queue [ch] to the
    symbol's aggregator, in order.  Its counting of ticks for the rate log
    every ten seconds changes no state of the aggregator. *)
Definition startSymbolWorker (agg : SymbolAggregator) (ch : list CleanTick)
  : SymbolAggregator :=
  fold_left SymbolAggregator_ProcessTick ch agg.

(** The manager: the workers' aggregators, the queue of each symbol's
    channel (capacity 5000) and the tally of dropped ticks. *)
Record AggregatorManager := {
  Aggregators : gmap string SymbolAggregator;
  Channels : gmap string (list CleanTick);
  droppedTicks : gmap string Z
}.

Inductive ManagerLog :=
| FailedToParseQuote (err : string)
| CreatingWorker (symbol : string)
| ChannelBusy (symbol : string) (queueLen : nat)
| SentAfterWaiting (symbol : string)
| DroppedTick (symbol : string) (dropped : Z).

Definition channelCapacity : nat := 5000.

(** HandleRawQuote.  [worker_received] says whether the symbol's worker
    takes a tick off a full queue within the 500 ms the second send waits. *)
Definition HandleRawQuote (m : AggregatorManager) (worker_received : bool)
  (quote : UpstreamQuote) : AggregatorManager * list ManagerLog :=
  match parseQuote quote with
  | Err err => (m, [ FailedToParseQuote err ])
  | Ok cleanTick =>
      let symbol := tick_Symbol cleanTick in
      let '(m1, log1, tickChannel) :=
        match Channels m !! symbol with
        | Some ch => (m, [], ch)
        | None =>
            ({| Aggregators := <[symbol := NewSymbolAggregator symbol]> (Aggregators m);
                Channels := <[symbol := []]> (Channels m);
                droppedTicks := droppedTicks m |},
             [ CreatingWorker symbol ], [])
        end in
      if (length tickChannel <? channelCapacity)%nat then
        ({| Aggregators := Aggregators m1;
            Channels := <[symbol := tickChannel ++ [cleanTick]]> (Channels m1);
            droppedTicks := droppedTicks m1 |}, log1)
      else if worker_received then
        ({| Aggregators := Aggregators m1;
            Channels := <[symbol := tail tickChannel ++ [cleanTick]]> (Channels m1);
            droppedTicks := droppedTicks m1 |},
         log1 ++ [ ChannelBusy symbol (length tickChannel); SentAfterWaiting symbol ])
      else
        let dropped := wrap64 (default 0%Z (droppedTicks m1 !! symbol) + 1) in
        ({| Aggregators := Aggregators m1;
            Channels := Channels m1;
            droppedTicks := <[symbol := dropped]> (droppedTicks m1) |},
         log1 ++ [ ChannelBusy symbol (length tickChannel); DroppedTick symbol dropped ])
  end.

End candle.

(** ** The writer service *)

Module dbwriter.

Record Candle := {
  StartTime : time.Time;
  Symbol : string;
  Timeframe : string;
  Open : Q;
  High : Q;
  Low : Q;
  Close : Q;
  Volume : Z
}.

Record PublishEvent := {
  Status : string;
  EventCandle : Candle
}.

(** A message of the bus: its payload is the event [ParseEvent] decodes it
    to, [None] when the JSON does not decode. *)
Record Message := {
  Channel : string;
  Payload : option PublishEvent
}.

Definition ParseEvent (payload : option PublishEvent) : option PublishEvent :=
  payload.

(** The table [klines]: its rows, newest last. *)
Abbreviation Table := (list Candle) (only parsing).

(** The columns of the conflict target [(symbol, timeframe, start_time)]. *)
Definition same_key (a b : Candle) : bool :=
  String.eqb (Symbol a) (Symbol b) && String.eqb (Timeframe a) (Timeframe b)
  && (StartTime a =? StartTime b)%Z.

(** [INSERT INTO klines ... ON CONFLICT (symbol, timeframe, start_time) DO
    NOTHING], on a table whose UNIQUE constraint is on these columns. *)
Definition insertKlineToDB (db : Table) (c : Candle) : Table :=
  if existsb (same_key c) db then db else db ++ [c].

Inductive LogLine :=
| FailedToParseEvent
| DBWrite (symbol timeframe : string) (start : Z).

Definition processMessage (db : Table) (msg : Message) : Table * list LogLine :=
  match ParseEvent (Payload msg) with
  | None => (db, [ FailedToParseEvent ])
  | Some event =>
      if negb (String.eqb (Status event) "CLOSE") then (db, [])
      else
        (insertKlineToDB db (EventCandle event),
         [ DBWrite (Symbol (EventCandle event)) (Timeframe (EventCandle event))
             (StartTime (EventCandle event)) ])
  end.

(** The loop of [Run]: the messages of the subscription, one after another. *)
Definition Run (db : Table) (msgs : list Message) : Table :=
  fold_left (fun db msg => fst (processMessage db msg)) msgs db.

(** The rows of a table that hold the key of [c]. *)
Definition rows_of (db : Table) (c : Candle) : list Candle :=
  filter (fun r => same_key c r = true) db.

End dbwriter.

(** ** api/ws: the bar buffers and the hub *)

Module ws.

Record CandleData := {
  Time : time.Time;
  Open : Q;
  High : Q;
  Low : Q;
  Close : Q;
  Volume : Z
}.

(** CandleBuffer without its lock: the slice and the capacity given to
    NewCandleBuffer. *)
Record CandleBuffer := {
  candles : list CandleData;
  maxSize : Z
}.

Definition NewCandleBuffer (maxSize : Z) : CandleBuffer :=
  {| candles := []; maxSize := maxSize |}.

Definition Add (cb : CandleBuffer) (candle : CandleData) : CandleBuffer :=
  let appended := candles cb ++ [candle] in
  {| candles :=
       if (maxSize cb <? Z.of_nat (length appended))%Z then tail appended
       else appended;
     maxSize := maxSize cb |}.

Definition Update (cb : CandleBuffer) (candle : CandleData) : CandleBuffer :=
  {| candles :=
       if (0 <? length (candles cb))%nat then
         <[(length (candles cb) - 1)%nat := candle]> (candles cb)
       else candles cb ++ [candle];
     maxSize := maxSize cb |}.

(** GetAll copies the slice: the value returned shares nothing with the
    buffer. *)
Definition GetAll (cb : CandleBuffer) : list CandleData := candles cb.

Definition Size (cb : CandleBuffer) : Z := Z.of_nat (length (candles cb)).

(** The loop of splitChannel (and [strings.Split] for a separator of one
    character): [cur] is [channel[start:i]], [result] the parts found. *)
Fixpoint splitLoop (sep : ascii) (rest cur : string) (result : list string)
  : list string :=
  match rest with
  | EmptyString => result ++ [cur]
  | String c rest' =>
      if Ascii.eqb c sep then splitLoop sep rest' "" (result ++ [cur])
      else splitLoop sep rest' (cur +:+ String c "") result
  end.

Definition Split (s : string) (sep : ascii) : list string := splitLoop sep s "" [].

Definition splitChannel (channel : string) : list string :=
  splitLoop ":" channel "" [].

(** A row of the table [klines] of the time-series store. *)
Record KlineRow := {
  row_symbol : string;
  row_timeframe : string;
  row_candle : CandleData
}.

Fixpoint insert_desc (r : CandleData) (sorted : list CandleData) : list CandleData :=
  match sorted with
  | [] => [r]
  | x :: rest =>
      if (Time x <? Time r)%Z then r :: sorted else x :: insert_desc r rest
  end.

(** [SELECT ... FROM klines WHERE symbol = $1 AND timeframe = $2 ORDER BY
    start_time DESC LIMIT $3]; a negative limit is an error of the store. *)
Definition Select (db : list KlineRow) (symbol timeframe : string) (limit : Z)
  : option (list CandleData) :=
  if (limit <? 0)%Z then None
  else
    let matching :=
      filter (fun r => String.eqb (row_symbol r) symbol
                       && String.eqb (row_timeframe r) timeframe = true) db in
    Some (take (Z.to_nat limit)
            (foldr insert_desc [] (row_candle <$> matching))).

Definition IsZero (t : time.Time) : bool := (t =? 0)%Z.

(** The validation of one row in loadFromDB's loop. *)
Definition valid_row (lastTime : time.Time) (c : CandleData) : bool :=
  if Qltb (High c) (Low c) then false
  else if Qltb (High c) (Open c) || Qltb (High c) (Close c) then false
  else if Qgtb (Low c) (Open c) || Qgtb (Low c) (Close c) then false
  else if negb (IsZero lastTime) && negb (time.After (Time c) lastTime) then false
  else true.

(** The loop of loadFromDB over the rows, oldest first. *)
Fixpoint loadLoop (rows : list CandleData) (lastTime : time.Time)
  (acc : list CandleData) : list CandleData :=
  match rows with
  | [] => acc
  | c :: rest =>
      if valid_row lastTime c then loadLoop rest (Time c) (acc ++ [c])
      else loadLoop rest lastTime acc
  end.

Definition loadFromDB (db : list KlineRow) (limit : Z) (key : string)
  (buffer : CandleBuffer) : CandleBuffer :=
  match Split key ":" with
  | [symbol; timeframe] =>
      match Select db symbol timeframe limit with
      | None => buffer
      | Some dbCandles =>
          {| candles := loadLoop (reverse dbCandles) 0%Z [];
             maxSize := maxSize buffer |}
      end
  | _ => buffer
  end.

(** MultiPeriodManager without its lock and calculator; [db] is the table
    the handle reads, [None] for a nil handle. *)
Record MultiPeriodManager := {
  buffers : gmap string CandleBuffer;
  mgr_maxSize : Z;
  db : option (list KlineRow)
}.

Definition NewMultiPeriodManager (maxSize : Z) (db : option (list KlineRow))
  : MultiPeriodManager :=
  {| buffers := ∅; mgr_maxSize := maxSize; db := db |}.

Definition set_buffer (m : MultiPeriodManager) (key : string) (b : CandleBuffer)
  : MultiPeriodManager :=
  {| buffers := <[key := b]> (buffers m); mgr_maxSize := mgr_maxSize m; db := db m |}.

Definition GetOrCreateBuffer (m : MultiPeriodManager) (key : string)
  : MultiPeriodManager * CandleBuffer :=
  match buffers m !! key with
  | Some buffer => (m, buffer)
  | None =>
      let buffer := NewCandleBuffer (mgr_maxSize m) in
      let buffer :=
        match db m with
        | Some rows => loadFromDB rows (mgr_maxSize m) key buffer
        | None => buffer
        end in
      (set_buffer m key buffer, buffer)
  end.

(** The validation at the head of AddCandle. *)
Definition valid_ohlc (candle : CandleData) : bool :=
  if Qltb (High candle) (Low candle) then false
  else if Qltb (High candle) (Open candle) || Qltb (High candle) (Close candle)
  then false
  else if Qgtb (Low candle) (Open candle) || Qgtb (Low candle) (Close candle)
  then false
  else true.

Definition AddCandle (m : MultiPeriodManager) (key : string)
  (candle : CandleData) (isNew : bool) : MultiPeriodManager :=
  let '(m1, buffer) := GetOrCreateBuffer m key in
  if negb (valid_ohlc candle) then m1
  else if isNew then set_buffer m1 key (Add buffer candle)
  else set_buffer m1 key (Update buffer candle).

Definition GetCandles (m : MultiPeriodManager) (key : string) : list CandleData :=
  match buffers m !! key with
  | None => []
  | Some buffer => GetAll buffer
  end.

(** *** The hub's subscribe path *)

Record ClientMessage := {
  Action : string;
  msg_Symbol : string;
  msg_Timeframe : string
}.

Definition ToChannelName (cm : ClientMessage) : option string :=
  if String.eqb (msg_Symbol cm) "" || String.eqb (msg_Timeframe cm) "" then None
  else Some ("kline:" +:+ msg_Symbol cm +:+ ":" +:+ msg_Timeframe cm).

Record SnapshotMessage := {
  Type_ : string;
  Symbol : string;
  Timeframe : string;
  Data : list CandleData
}.

(** A client: the queue of its [Send] channel (the payloads are kept as
    the messages they encode) and the channel's capacity. *)
Record Client := {
  Send : list SnapshotMessage;
  Send_capacity : nat
}.

(** A client is known to the hub by its pointer. *)
Abbreviation ClientPtr := positive (only parsing).

Record Hub := {
  Subscriptions : gmap string (gset positive);
  indicatorManager : MultiPeriodManager
}.

Definition NewHub (maxCandles : Z) (db : option (list KlineRow)) : Hub :=
  {| Subscriptions := ∅; indicatorManager := NewMultiPeriodManager maxCandles db |}.

Inductive HubLog :=
| InvalidChannelFormat (channel : string)
| NoCandlesAvailable (key : string)
| SentSnapshot (key : string) (n : nat)
| SendBufferFull.

(** sendSnapshot: what it leaves in the client's queue, and its log. *)
Definition sendSnapshot (h : Hub) (client : Client) (channel : string)
  : Client * list HubLog :=
  match splitChannel channel with
  | [kind; symbol; timeframe] =>
      if negb (String.eqb kind "kline") then (client, [ InvalidChannelFormat channel ])
      else
        let key := symbol +:+ ":" +:+ timeframe in
        let candles := GetCandles (indicatorManager h) key in
        if (length candles =? 0)%nat then (client, [ NoCandlesAvailable key ])
        else
          let snapshot :=
            {| Type_ := "snapshot"; Symbol := symbol; Timeframe := timeframe;
               Data := candles |} in
          if (length (Send client) <? Send_capacity client)%nat then
            ({| Send := Send client ++ [snapshot];
                Send_capacity := Send_capacity client |},
             [ SentSnapshot key (length candles) ])
          else (client, [ SendBufferFull ])
  | _ => (client, [ InvalidChannelFormat channel ])
  end.

(** Subscribe: the client joins the channel's set, then the snapshot
    goroutine runs. *)
Definition Subscribe (h : Hub) (ptr : ClientPtr) (client : Client)
  (channel : string) : Hub * Client * list HubLog :=
  let h1 :=
    {| Subscriptions :=
         <[channel := {[ ptr ]} ∪ default ∅ (Subscriptions h !! channel)]>
           (Subscriptions h);
       indicatorManager := indicatorManager h |} in
  let '(client1, log) := sendSnapshot h1 client channel in
  (h1, client1, log).

(** *** Leaving a channel and disconnecting *)

(** Unsubscribe: the client leaves the channel's set; a set left empty is
    deleted from the map. *)
Definition Unsubscribe (h : Hub) (ptr : ClientPtr) (channel : string) : Hub :=
  match Subscriptions h !! channel with
  | Some clients =>
      let clients := clients ∖ {[ ptr ]} in
      {| Subscriptions :=
           if (size clients =? 0)%nat then delete channel (Subscriptions h)
           else <[channel := clients]> (Subscriptions h);
         indicatorManager := indicatorManager h |}
  | None => h
  end.


Definition getSubscriberCount (h : Hub) (channel : string) : nat :=
  match Subscriptions h !! channel with
  | Some clients => size clients
  | None => 0%nat
  end.

(** *** Broadcasting a bar event *)

(** The clients the hub's pointers lead to. *)
Abbreviation Clients := (gmap positive Client) (only parsing).

Inductive ForwardLog :=
| ClientSendBufferFull (ptr : positive).

(** The [select] of forwardMessage for one subscriber: the payload is
    queued when the client's channel has room and dropped otherwise. *)
Definition forwardTo (payload : SnapshotMessage)
  (acc : Clients * list ForwardLog) (ptr : positive) : Clients * list ForwardLog :=
  match acc.1 !! ptr with
  | Some client =>
      if (length (Send client) <? Send_capacity client)%nat then
        (<[ptr := {| Send := Send client ++ [payload];
                     Send_capacity := Send_capacity client |}]> acc.1, acc.2)
      else (acc.1, acc.2 ++ [ ClientSendBufferFull ptr ])
  | None => acc
  end.

(** forwardMessage: the loop over the subscribers of the channel. *)
Definition forwardMessage (h : Hub) (clients : Clients) (channel : string)
  (payload : SnapshotMessage) : Clients * list ForwardLog :=
  match Subscriptions h !! channel with
  | Some subscribers => fold_left (forwardTo payload) (elements subscribers) (clients, [])
  | None => (clients, [])
  end.

Record KlineMessage := {
  km_Symbol : string;
  km_Timeframe : string;
  km_Candle : CandleData;
  IsNew : bool
}.

(** The event of the candle service as handleKlineMessage decodes it. *)
Record CandleServiceMsg := {
  cs_Status : string;
  cs_Symbol : string;
  cs_Timeframe : string;
  cs_StartTime : time.Time;
  cs_Open : Q;
  cs_High : Q;
  cs_Low : Q;
  cs_Close : Q;
  cs_Volume : Z
}.

(** A message of the bus.  handleKlineMessage decodes the payload twice:
    [asCandleService] is what [json.Unmarshal] makes of it as an event of
    the candle service, [asKlineMessage] as a KlineMessage; [None] where
    the decoding fails. *)
Record RedisMessage := {
  redis_Channel : string;
  asCandleService : option CandleServiceMsg;
  asKlineMessage : option KlineMessage
}.

Inductive KlineLog :=
| ProcessingKline (channel : string)
| ParsedCandleService (symbol timeframe status : string)
| FailedToParseKline
| NoCandlesFor (key : string)
| ForwardedKlineList (symbol timeframe : string) (candles subscribers : nat)
| Dropped (line : ForwardLog).

(** handleKlineMessage: what it does to the buffers and to the clients'
    queues.  The indicator it computes and publishes to the bus afterwards
    reads the buffer and changes neither. *)
Definition handleKlineMessage (h : Hub) (clients : Clients) (msg : RedisMessage)
  : Hub * Clients * list KlineLog :=
  let channel := redis_Channel msg in
  let decoded :=
    match asCandleService msg with
    | Some cs =>
        if negb (String.eqb (cs_Status cs) "") then
          Some ({| km_Symbol := cs_Symbol cs; km_Timeframe := cs_Timeframe cs;
                   km_Candle :=
                     {| Time := cs_StartTime cs; Open := cs_Open cs;
                        High := cs_High cs; Low := cs_Low cs; Close := cs_Close cs;
                        Volume := cs_Volume cs |};
                   IsNew := String.eqb (cs_Status cs) "CLOSE" |},
                [ ParsedCandleService (cs_Symbol cs) (cs_Timeframe cs) (cs_Status cs) ])
        else (fun klineMsg => (klineMsg, [])) <$> asKlineMessage msg
    | None => (fun klineMsg => (klineMsg, [])) <$> asKlineMessage msg
    end in
  match decoded with
  | None => (h, clients, [ ProcessingKline channel; FailedToParseKline ])
  | Some (klineMsg, parsed) =>
      let log0 := ProcessingKline channel :: parsed in
      let key := km_Symbol klineMsg +:+ ":" +:+ km_Timeframe klineMsg in
      let h1 :=
        {| Subscriptions := Subscriptions h;
           indicatorManager :=
             AddCandle (indicatorManager h) key (km_Candle klineMsg) (IsNew klineMsg) |} in
      let allCandles := GetCandles (indicatorManager h1) key in
      if (length allCandles =? 0)%nat then (h1, clients, log0 ++ [ NoCandlesFor key ])
      else
        let snapshot :=
          {| Type_ := "snapshot"; Symbol := km_Symbol klineMsg;
             Timeframe := km_Timeframe klineMsg; Data := allCandles |} in
        let '(clients1, dropped) := forwardMessage h1 clients channel snapshot in
        (h1, clients1,
         log0 ++ (Dropped <$> dropped)
         ++ [ ForwardedKlineList (km_Symbol klineMsg) (km_Timeframe klineMsg)
                (length allCandles) (getSubscriberCount h1 channel) ])
  end.

End ws.

(** ** api/ws/indicators: Bollinger bands and Green Arrow

    [float64] here is the kernel's binary64 type: its operations round as
    Go's do, [PrimFloat.eqb] and [PrimFloat.ltb] are [==] and [<]. *)

Module indicators.

Definition float_of_int (z : Z) : float :=
  if (z <? 0)%Z then PrimFloat.opp (PrimFloat.of_uint63 (Uint63.of_Z (- z)))
  else PrimFloat.of_uint63 (Uint63.of_Z z).

Record BollingerBands := {
  Upper : float;
  Middle : float;
  Lower : float
}.

Definition zeroBands : BollingerBands :=
  {| Upper := 0%float; Middle := 0%float; Lower := 0%float |}.

(** The sum of the loop [for i := 0; i < period; i++ { sum += f(prices[i]) }]. *)
Definition sumFirst (f : float -> float) (prices : list float) (period : nat) : float :=
  fold_left (fun sum p => PrimFloat.add sum (f p)) (take period prices) 0%float.

Definition CalculateSMA (prices : list float) (period : Z) : float :=
  if (Z.of_nat (length prices) <? period)%Z then 0%float
  else PrimFloat.div (sumFirst (fun p => p) prices (Z.to_nat period))
         (float_of_int period).

Definition CalculateStdDev (prices : list float) (period : Z) (mean : float) : float :=
  if (Z.of_nat (length prices) <? period)%Z then 0%float
  else
    let variance :=
      sumFirst (fun p => let diff := PrimFloat.sub p mean in PrimFloat.mul diff diff)
        prices (Z.to_nat period) in
    PrimFloat.sqrt (PrimFloat.div variance (float_of_int period)).

Definition CalculateBollingerBands (prices : list float) (period : Z)
  (deviation : float) : BollingerBands :=
  if (Z.of_nat (length prices) <? period)%Z then zeroBands
  else
    let middle := CalculateSMA prices period in
    let stdDev := CalculateStdDev prices period middle in
    {| Upper := PrimFloat.add middle (PrimFloat.mul deviation stdDev);
       Middle := middle;
       Lower := PrimFloat.sub middle (PrimFloat.mul deviation stdDev) |}.

(** The window of bar [i]: [window[j] = prices[i-j]] for [j < period]. *)
Definition window (prices : list float) (i period : nat) : list float :=
  (fun j => nth (i - j) prices 0%float) <$> seq 0 period.

(** The series: the zero value below index [period-1], the bands of the
    bar's window from there on. *)
Definition CalculateBollingerBandsSeries (prices : list float) (period : Z)
  (deviation : float) : list BollingerBands :=
  let n := length prices in
  if (Z.of_nat n <? period)%Z then []
  else
    (fun i =>
       if (Z.of_nat i <? period - 1)%Z then zeroBands
       else CalculateBollingerBands (window prices i (Z.to_nat period)) period deviation)
    <$> seq 0 n.

Record GreenArrowParams := {
  Length : Z;
  Deviation : Z;
  MoneyRisk : float;
  Signal : Z;
  Line : Z
}.

Record GreenArrowResult := {
  UpStop : float;
  DownStop : float;
  UpSignal : float;
  DownSignal : float;
  UpLine : float;
  DownLine : float;
  Trend : Z;
  IsSignal : bool
}.

Record Candle := {
  Open : float;
  High : float;
  Low : float;
  Close : float;
  Volume : Z
}.

(** [math.MaxFloat64]. *)
Definition EMPTY_VALUE : float := 0x1.fffffffffffffp+1023%float.

Definition emptyResult : GreenArrowResult :=
  {| UpStop := (-1)%float; DownStop := (-1)%float;
     UpSignal := (-1)%float; DownSignal := (-1)%float;
     UpLine := EMPTY_VALUE; DownLine := EMPTY_VALUE;
     Trend := 0%Z; IsSignal := false |}.

Definition clearUpTrendBuffers (result : GreenArrowResult) : GreenArrowResult :=
  {| UpStop := (-1)%float; DownStop := DownStop result;
     UpSignal := (-1)%float; DownSignal := DownSignal result;
     UpLine := EMPTY_VALUE; DownLine := DownLine result;
     Trend := Trend result; IsSignal := IsSignal result |}.

Definition clearDownTrendBuffers (result : GreenArrowResult) : GreenArrowResult :=
  {| UpStop := UpStop result; DownStop := (-1)%float;
     UpSignal := UpSignal result; DownSignal := (-1)%float;
     UpLine := UpLine result; DownLine := EMPTY_VALUE;
     Trend := Trend result; IsSignal := IsSignal result |}.

Definition updateUpTrendBuffers (result : GreenArrowResult) (index : nat)
  (stopLevel : float) (params : GreenArrowParams)
  (results : list GreenArrowResult) : GreenArrowResult :=
  let isNewSignal :=
    if (0 <? Signal params)%Z then
      if (Z.of_nat index =? Length params - 1)%Z then true
      else PrimFloat.eqb (UpStop (nth (index - 1) results emptyResult)) (-1)%float
    else false in
  {| UpStop := if (Signal params =? 2)%Z then 0%float else stopLevel;
     DownStop := DownStop result;
     UpSignal := if isNewSignal then stopLevel else (-1)%float;
     DownSignal := DownSignal result;
     UpLine := if (0 <? Line params)%Z then stopLevel else UpLine result;
     DownLine := DownLine result;
     Trend := Trend result;
     IsSignal := isNewSignal |}.

Definition updateDownTrendBuffers (result : GreenArrowResult) (index : nat)
  (stopLevel : float) (params : GreenArrowParams)
  (results : list GreenArrowResult) : GreenArrowResult :=
  let isNewSignal :=
    if (0 <? Signal params)%Z then
      if (Z.of_nat index =? Length params - 1)%Z then true
      else PrimFloat.eqb (DownStop (nth (index - 1) results emptyResult)) (-1)%float
    else false in
  {| UpStop := UpStop result;
     DownStop := if (Signal params =? 2)%Z then 0%float else stopLevel;
     UpSignal := UpSignal result;
     DownSignal := if isNewSignal then stopLevel else (-1)%float;
     UpLine := UpLine result;
     DownLine := if (0 <? Line params)%Z then stopLevel else DownLine result;
     Trend := Trend result;
     IsSignal := isNewSignal |}.

Definition updateBuffers (result : GreenArrowResult) (index : nat)
  (upperStop lowerStop : list float) (trend : Z) (params : GreenArrowParams)
  (results : list GreenArrowResult) : GreenArrowResult :=
  if (0 <? trend)%Z then
    clearDownTrendBuffers
      (updateUpTrendBuffers result index (nth index lowerStop 0%float) params results)
  else if (trend <? 0)%Z then
    clearUpTrendBuffers
      (updateDownTrendBuffers result index (nth index upperStop 0%float) params results)
  else result.

Definition set_Trend (result : GreenArrowResult) (trend : Z) : GreenArrowResult :=
  {| UpStop := UpStop result; DownStop := DownStop result;
     UpSignal := UpSignal result; DownSignal := DownSignal result;
     UpLine := UpLine result; DownLine := DownLine result;
     Trend := trend; IsSignal := IsSignal result |}.

(** The variables of the main loop of CalculateGreenArrow. *)
Record LoopState := {
  trend : Z;
  upperBand : list float;
  lowerBand : list float;
  upperStop : list float;
  lowerStop : list float;
  results : list GreenArrowResult
}.

Definition at_ (l : list float) (i : nat) : float := nth i l 0%float.

(** One iteration of the main loop, for bar [i]. *)
Definition loopBody (closes : list float) (bbSeries : list BollingerBands)
  (params : GreenArrowParams) (s : LoopState) (i : nat) : LoopState :=
  (* 1 *)
  let upperBand := <[i := Upper (nth i bbSeries zeroBands)]> (upperBand s) in
  let lowerBand := <[i := Lower (nth i bbSeries zeroBands)]> (lowerBand s) in
  (* 2 *)
  let trend :=
    if (0 <? i)%nat then
      let t1 := if PrimFloat.ltb (at_ upperBand (i - 1)) (at_ closes i) then 1%Z
                else trend s in
      if PrimFloat.ltb (at_ closes i) (at_ lowerBand (i - 1)) then (-1)%Z else t1
    else trend s in
  (* 3 *)
  let lowerBand :=
    if (0 <? i)%nat && (0 <? trend)%Z
       && PrimFloat.ltb (at_ lowerBand i) (at_ lowerBand (i - 1))
    then <[i := at_ lowerBand (i - 1)]> lowerBand else lowerBand in
  let upperBand :=
    if (0 <? i)%nat && (trend <? 0)%Z
       && PrimFloat.ltb (at_ upperBand (i - 1)) (at_ upperBand i)
    then <[i := at_ upperBand (i - 1)]> upperBand else upperBand in
  (* 4 *)
  let bandWidth := PrimFloat.sub (at_ upperBand i) (at_ lowerBand i) in
  let riskFactor := PrimFloat.div (PrimFloat.sub (MoneyRisk params) 1%float) 2%float in
  let upperStop :=
    <[i := PrimFloat.add (at_ upperBand i) (PrimFloat.mul riskFactor bandWidth)]>
      (upperStop s) in
  let lowerStop :=
    <[i := PrimFloat.sub (at_ lowerBand i) (PrimFloat.mul riskFactor bandWidth)]>
      (lowerStop s) in
  (* 5 *)
  let lowerStop :=
    if (0 <? i)%nat && (0 <? trend)%Z
       && PrimFloat.ltb (at_ lowerStop i) (at_ lowerStop (i - 1))
    then <[i := at_ lowerStop (i - 1)]> lowerStop else lowerStop in
  let upperStop :=
    if (0 <? i)%nat && (trend <? 0)%Z
       && PrimFloat.ltb (at_ upperStop (i - 1)) (at_ upperStop i)
    then <[i := at_ upperStop (i - 1)]> upperStop else upperStop in
  (* 6 *)
  let results1 := <[i := set_Trend (nth i (results s) emptyResult) trend]> (results s) in
  let results2 :=
    <[i := updateBuffers (nth i results1 emptyResult) i upperStop lowerStop trend
             params results1]> results1 in
  {| trend := trend; upperBand := upperBand; lowerBand := lowerBand;
     upperStop := upperStop; lowerStop := lowerStop; results := results2 |}.

(** The state the loop of CalculateGreenArrow ends in: the results and the
    four working arrays. *)
Definition runGreenArrow (candles : list Candle) (params : GreenArrowParams)
  : LoopState :=
  let n := length candles in
  let closes := Close <$> candles in
  let bbSeries :=
    CalculateBollingerBandsSeries closes (Length params) (float_of_int (Deviation params)) in
  let zeros := replicate n 0%float in
  fold_left (loopBody closes bbSeries params)
    (seq (Z.to_nat (Length params - 1)) (n - Z.to_nat (Length params - 1)))
    {| trend := 0%Z; upperBand := zeros; lowerBand := zeros;
       upperStop := zeros; lowerStop := zeros;
       results := replicate n emptyResult |}.

Definition CalculateGreenArrow (candles : list Candle) (params : GreenArrowParams)
  : list GreenArrowResult :=
  if (Z.of_nat (length candles) <? Length params)%Z then []
  else results (runGreenArrow candles params).

End indicators.

(** ** The strategy runtime: trade manager and lot sizing

    Money, lots and prices are exact rationals. *)

Module services.

Record User := {
  UserID : string;
  Username : string;
  Balance : Q;
  Equity : Q;
  Margin : Q;
  FreeMargin : Q
}.

Record Signal := {
  sig_Symbol : string;
  sig_Timeframe : string;
  sig_Type : string;
  Price : Q;
  sig_StopLoss : Q;
  Trend : Z;
  Timestamp : time.Time
}.

Record Position := {
  PositionID : string;
  pos_UserID : string;
  pos_EAID : string;
  pos_Symbol : string;
  pos_Type : string;
  Lots : Q;
  OpenPrice : Q;
  StopLoss : Q;
  TakeProfit : Q;
  OpenTime : time.Time;
  CloseTime : time.Time;
  ClosePrice : Q;
  Profit : Q;
  Status : string
}.

Record TradeRequest := {
  req_UserID : string;
  req_EAID : string;
  req_MT4AccountID : Z;
  req_Symbol : string;
  req_Type : string;
  req_Lots : Q;
  req_StopLoss : Q;
  req_TakeProfit : Q
}.

Record TradeResponse := {
  Success : bool;
  resp_PositionID : string;
  Message : string
}.

(** TradeManager without its lock.  The users are held by pointer in the
    source; each pointer is reachable through this map only, so a write
    through it is a write of the entry. *)
Record TradeManager := {
  positions : gmap string Position;
  users : gmap string User
}.

Definition NewTradeManager : TradeManager := {| positions := ∅; users := ∅ |}.

Definition RegisterUser (tm : TradeManager) (user : User) : TradeManager :=
  {| positions := positions tm; users := <[UserID user := user]> (users tm) |}.

Definition UserExists (tm : TradeManager) (userID : string) : bool :=
  bool_decide (is_Some (users tm !! userID)).

(** ExecuteTrade.  [newID] is the string [uuid.New()] returns and [now] the
    clock's reading. *)
Definition ExecuteTrade (tm : TradeManager) (req : TradeRequest)
  (newID : string) (now : time.Time) : TradeManager * TradeResponse :=
  match users tm !! req_UserID req with
  | None =>
      (tm, {| Success := false; resp_PositionID := ""; Message := "用户不存在" |})
  | Some user =>
      let requiredMargin := (req_Lots req * 1000)%Q in
      if Qltb (FreeMargin user) requiredMargin then
        (tm, {| Success := false; resp_PositionID := "";
                Message := "保证金不足" |})
      else
        let position :=
          {| PositionID := newID; pos_UserID := req_UserID req;
             pos_EAID := req_EAID req; pos_Symbol := req_Symbol req;
             pos_Type := req_Type req; Lots := req_Lots req;
             OpenPrice := 0; StopLoss := req_StopLoss req;
             TakeProfit := req_TakeProfit req; OpenTime := now;
             CloseTime := 0%Z; ClosePrice := 0; Profit := 0;
             Status := "OPEN" |} in
        let user' :=
          {| UserID := UserID user; Username := Username user;
             Balance := Balance user; Equity := Equity user;
             Margin := (Margin user + requiredMargin)%Q;
             FreeMargin := (FreeMargin user - requiredMargin)%Q |} in
        ({| positions := <[PositionID position := position]> (positions tm);
            users := <[req_UserID req := user']> (users tm) |},
         {| Success := true; resp_PositionID := PositionID position;
            Message := "开仓成功" |})
  end.

Definition abs (x : Q) : Q := if Qltb x 0 then (- x)%Q else x.

(** [int(x)] of a float64: the integer part, towards zero. *)
Definition int (x : Q) : Z := (Qnum x ÷ Zpos (Qden x))%Z.

Definition roundLots (lots : Q) : Q :=
  (inject_Z (int (lots * 100 + (1 # 2))) / 100)%Q.

(** BaseEAStrategy.CalculateLots, which every strategy inherits. *)
Definition CalculateLots (balance riskPercent entryPrice stopLoss : Q) : Q :=
  let riskAmount := (balance * riskPercent / 100)%Q in
  let pointsRisk := abs (entryPrice - stopLoss) in
  if Qeq_bool pointsRisk 0 then (1 # 100)%Q
  else
    let pointValue := 10%Q in
    let lots := (riskAmount / (pointsRisk * pointValue))%Q in
    let lots := if Qltb lots (1 # 100) then (1 # 100)%Q else lots in
    let lots := if Qgtb lots 10 then 10%Q else lots in
    roundLots lots.

Record EAConfig := {
  EAID : string;
  cfg_UserID : string;
  EAName : string;
  cfg_Symbol : string;
  cfg_Timeframe : string;
  Strategy : string;
  RiskPercent : Q;
  MaxPositions : Z;
  Enabled : bool;
  MT4AccountID : Z
}.

(** StrategyEAInstance: the fields executeSignal reads and writes.  The
    instance holds a User of its own, not the one the manager holds. *)
Record StrategyEAInstance := {
  orderID : Z;
  config : EAConfig;
  user : User;
  ea_positions : gmap string Position
}.

Inductive InstanceLog :=
| MaxPositionsReached (limit : Z)
| PositionOpened (positionID : string)
| OpenFailed (message : string).

(** The request executeSignal builds for a signal. *)
Definition tradeRequest (ea : StrategyEAInstance) (signal : Signal) : TradeRequest :=
  let lots :=
    CalculateLots (Balance (user ea)) (RiskPercent (config ea)) (Price signal)
      (sig_StopLoss signal) in
  {| req_UserID := UserID (user ea); req_EAID := EAID (config ea);
     req_MT4AccountID := MT4AccountID (config ea);
     req_Symbol := sig_Symbol signal; req_Type := sig_Type signal;
     req_Lots := lots; req_StopLoss := sig_StopLoss signal;
     req_TakeProfit := 0 |}.

(** executeSignal against the shared trade manager. *)
Definition executeSignal (ea : StrategyEAInstance) (tm : TradeManager)
  (signal : Signal) (newID : string) (now : time.Time)
  : StrategyEAInstance * TradeManager * list InstanceLog :=
  let openCount := Z.of_nat (size (ea_positions ea)) in
  if (MaxPositions (config ea) <=? openCount)%Z then
    (ea, tm, [ MaxPositionsReached (MaxPositions (config ea)) ])
  else
    let req := tradeRequest ea signal in
    let '(tm1, resp) := ExecuteTrade tm req newID now in
    if Success resp then
      let position :=
        {| PositionID := resp_PositionID resp; pos_UserID := req_UserID req;
           pos_EAID := req_EAID req; pos_Symbol := req_Symbol req;
           pos_Type := req_Type req; Lots := req_Lots req;
           OpenPrice := Price signal; StopLoss := req_StopLoss req;
           TakeProfit := req_TakeProfit req; OpenTime := now;
           CloseTime := 0%Z; ClosePrice := 0; Profit := 0;
           Status := "OPEN" |} in
      ({| orderID := orderID ea; config := config ea; user := user ea;
          ea_positions := <[resp_PositionID resp := position]> (ea_positions ea) |},
       tm1, [ PositionOpened (resp_PositionID resp) ])
    else (ea, tm1, [ OpenFailed (Message resp) ]).

(** *** From an indicator to a signal *)

(** indicators.GreenArrowResult as [json.Unmarshal] fills it from a payload
    of the indicator channel; its levels are exact rationals like the
    prices of this module. *)
Record GreenArrowResult := {
  UpStop : Q;
  DownStop : Q;
  UpSignal : Q;
  DownSignal : Q;
  UpLine : Q;
  DownLine : Q;
  ind_Trend : Z;
  IsSignal : bool
}.

(** A payload of the indicator channel: the result it decodes to, or the
    decoder's error text. *)
Abbreviation IndicatorPayload := (candle.result GreenArrowResult) (only parsing).

(** The interface EAStrategy: the methods an instance calls through it.
    CalculateLots and ValidateParams are the ones of BaseEAStrategy for
    every strategy; the parameters a strategy parses at its creation are
    read by none of its methods. *)
Record EAStrategy := {
  GetName : string;
  GetIndicatorChannel : string -> string -> string;
  ProcessIndicator : IndicatorPayload -> time.Time -> candle.result (option Signal)
}.

(** GreenArrowEA.ProcessIndicator; [now] is the clock's reading. *)
Definition GreenArrowEA_ProcessIndicator (payload : IndicatorPayload)
  (now : time.Time) : candle.result (option Signal) :=
  match payload with
  | candle.Err err => candle.Err ("解析指标失败: " +:+ err)
  | candle.Ok indicator =>
      if negb (IsSignal indicator) then candle.Ok None
      else if (ind_Trend indicator =? 1)%Z && Qgtb (UpSignal indicator) 0 then
        candle.Ok (Some {| sig_Symbol := ""; sig_Timeframe := ""; sig_Type := "BUY";
                           Price := UpSignal indicator;
                           sig_StopLoss := UpStop indicator;
                           Trend := ind_Trend indicator; Timestamp := now |})
      else if (ind_Trend indicator =? -1)%Z && Qgtb (DownSignal indicator) 0 then
        candle.Ok (Some {| sig_Symbol := ""; sig_Timeframe := ""; sig_Type := "SELL";
                           Price := DownSignal indicator;
                           sig_StopLoss := DownStop indicator;
                           Trend := ind_Trend indicator; Timestamp := now |})
      else candle.Ok None
  end.

Definition NewGreenArrowEA : EAStrategy :=
  {| GetName := "GreenArrow";
     GetIndicatorChannel := fun symbol timeframe =>
       "indicator:" +:+ symbol +:+ ":" +:+ timeframe +:+ ":green_arrow";
     ProcessIndicator := GreenArrowEA_ProcessIndicator |}.

Definition NewMACDEA : EAStrategy :=
  {| GetName := "MACD";
     GetIndicatorChannel := fun symbol timeframe =>
       "indicator:" +:+ symbol +:+ ":" +:+ timeframe +:+ ":macd";
     ProcessIndicator := fun _ _ => candle.Ok None |}.

(** EAFactory.CreateStrategy. *)
Definition CreateStrategy (eaName : string) : candle.result EAStrategy :=
  if String.eqb eaName "GreenArrow" || String.eqb eaName "绿箭侠"
     || String.eqb eaName "Green Arrow EA" then candle.Ok NewGreenArrowEA
  else if String.eqb eaName "MACD" || String.eqb eaName "MACD EA" then
    candle.Ok NewMACDEA
  else candle.Err ("不支持的EA类型: " +:+ eaName).

(** *** The instances of the runtime *)

(** A StrategyEAInstance as the runtime holds it: the fields executeSignal
    works on, the strategy, and the flags; [started] says whether Start
    launched the subscription and the signal loop. *)
Record RunningEA := {
  instance : StrategyEAInstance;
  strategy : EAStrategy;
  paused : bool;
  stopped : bool;
  started : bool
}.

Definition NewStrategyEAInstance (orderID : Z) (config : EAConfig) (user : User)
  (strategy : EAStrategy) : RunningEA :=
  {| instance := {| orderID := orderID; config := config; user := user;
                    ea_positions := ∅ |};
     strategy := strategy; paused := false; stopped := false; started := false |}.

Definition Start (ea : RunningEA) : RunningEA :=
  if negb (Enabled (config (instance ea))) then ea
  else {| instance := instance ea; strategy := strategy ea; paused := paused ea;
          stopped := stopped ea; started := true |}.

Definition set_paused (ea : RunningEA) (p : bool) : RunningEA :=
  {| instance := instance ea; strategy := strategy ea; paused := p;
     stopped := stopped ea; started := started ea |}.

Definition Pause (ea : RunningEA) : RunningEA := set_paused ea true.
Definition Resume (ea : RunningEA) : RunningEA := set_paused ea false.

Definition Stop (ea : RunningEA) : RunningEA :=
  if stopped ea then ea
  else {| instance := instance ea; strategy := strategy ea; paused := paused ea;
          stopped := true; started := started ea |}.

Inductive IndicatorLog :=
| ProcessIndicatorFailed (err : string).

(** handleIndicator: the signal it sends to the signal loop, if any. *)
Definition handleIndicator (ea : RunningEA) (payload : IndicatorPayload)
  (now : time.Time) : option Signal * list IndicatorLog :=
  if paused ea then (None, [])
  else
    match ProcessIndicator (strategy ea) payload now with
    | candle.Err err => (None, [ ProcessIndicatorFailed err ])
    | candle.Ok None => (None, [])
    | candle.Ok (Some signal) =>
        (Some {| sig_Symbol := cfg_Symbol (config (instance ea));
                 sig_Timeframe := cfg_Timeframe (config (instance ea));
                 sig_Type := sig_Type signal; Price := Price signal;
                 sig_StopLoss := sig_StopLoss signal; Trend := Trend signal;
                 Timestamp := Timestamp signal |}, [])
    end.

(** *** EARuntimeService *)

Record UserInfo := {
  ui_UserID : Z;
  ui_Username : string;
  ui_Balance : Q
}.

Record EARuntimeService := {
  instances : gmap Z RunningEA;
  tradeManager : TradeManager
}.

Definition NewEARuntimeService : EARuntimeService :=
  {| instances := ∅; tradeManager := NewTradeManager |}.

(** The User StartEA builds from a UserInfo, twice: 80% of the balance is
    free margin. *)
Definition userOf (user : UserInfo) : User :=
  {| UserID := pretty (ui_UserID user); Username := ui_Username user;
     Balance := ui_Balance user; Equity := 0; Margin := 0;
     FreeMargin := (ui_Balance user * (8 # 10))%Q |}.

Definition StartEA (s : EARuntimeService) (orderID : Z) (config : EAConfig)
  (user : UserInfo) : EARuntimeService * candle.result unit :=
  if bool_decide (is_Some (instances s !! orderID)) then (s, candle.Err "EA已在运行")
  else
    let userID := pretty (ui_UserID user) in
    let tm :=
      if negb (UserExists (tradeManager s) userID) then
        RegisterUser (tradeManager s) (userOf user)
      else tradeManager s in
    match CreateStrategy (EAName config) with
    | candle.Err err =>
        ({| instances := instances s; tradeManager := tm |},
         candle.Err ("创建EA策略失败: " +:+ err))
    | candle.Ok strategy =>
        let ea := NewStrategyEAInstance orderID config (userOf user) strategy in
        ({| instances := <[orderID := Start ea]> (instances s); tradeManager := tm |},
         candle.Ok tt)
    end.

Definition PauseEA (s : EARuntimeService) (orderID : Z)
  : EARuntimeService * candle.result unit :=
  match instances s !! orderID with
  | None => (s, candle.Err "EA不存在")
  | Some ea =>
      ({| instances := <[orderID := Pause ea]> (instances s);
          tradeManager := tradeManager s |}, candle.Ok tt)
  end.

Definition ResumeEA (s : EARuntimeService) (orderID : Z)
  : EARuntimeService * candle.result unit :=
  match instances s !! orderID with
  | None => (s, candle.Err "EA不存在")
  | Some ea =>
      ({| instances := <[orderID := Resume ea]> (instances s);
          tradeManager := tradeManager s |}, candle.Ok tt)
  end.

(** StopEA stops the instance and forgets it. *)
Definition StopEA (s : EARuntimeService) (orderID : Z)
  : EARuntimeService * candle.result unit :=
  match instances s !! orderID with
  | None => (s, candle.Err "EA不存在")
  | Some ea =>
      ({| instances := delete orderID (instances s);
          tradeManager := tradeManager s |}, candle.Ok tt)
  end.

End services.

(** * What the claims speak of *)

(** ** The shape of an event stream *)

Module AggregatorSpec.
Import candle.

(** The CLOSE event of the [i]-th gap-fill bar after the bar [cur]: it
    starts [i] periods after [cur], is flat at the close of [cur] and has
    no volume. *)
Definition gapClose (t : TimeframeAggregator) (cur : Candle) (i : Z) : PublishEvent :=
  {| Status := "CLOSE";
     EventCandle :=
       {| Symbol := agg_Symbol t; Timeframe := TfName t;
          StartTime := (StartTime cur + i * agg_Timeframe t)%Z;
          Open := Close cur; High := Close cur; Low := Close cur;
          Close := Close cur; Volume := 0%Z |} |}.

(** Where a reader of the stream stands. *)
Inductive Shape :=
| Idle
| InBar (start : Z)
| Filling (start : Z) (last : Z)
| Closed (upto : Z).

(** One event read.  From [InBar s], UPDATEs of [s] stay, the CLOSE of [s]
    ends the block; a later block must start after every start seen.  With
    [gaps], CLOSE events of the following periods [s+P, s+2P, ...] may
    stand between the UPDATEs of [s] and the CLOSE of [s]. *)
Definition shape_step (P : Z) (gaps : bool) (st : Shape) (e : PublishEvent)
  : option Shape :=
  let t := StartTime (EventCandle e) in
  if String.eqb (Status e) "UPDATE" then
    match st with
    | Idle => Some (InBar t)
    | InBar s => if (t =? s)%Z then Some (InBar s) else None
    | Filling _ _ => None
    | Closed m => if (m <? t)%Z then Some (InBar t) else None
    end
  else if String.eqb (Status e) "CLOSE" then
    match st with
    | InBar s =>
        if (t =? s)%Z then Some (Closed s)
        else if gaps && (t =? s + P)%Z then Some (Filling s t)
        else None
    | Filling s l =>
        if (t =? s)%Z then Some (Closed l)
        else if (t =? l + P)%Z then Some (Filling s t)
        else None
    | _ => None
    end
  else None.

Fixpoint shape_run (P : Z) (gaps : bool) (st : Shape) (evs : list PublishEvent)
  : option Shape :=
  match evs with
  | [] => Some st
  | e :: rest =>
      match shape_step P gaps st e with
      | Some st' => shape_run P gaps st' rest
      | None => None
      end
  end.

(** Blocks [UPDATE+ CLOSE] with strictly increasing starts, the last block
    possibly still open. *)
Definition update_close_blocks (P : Z) (evs : list PublishEvent) : bool :=
  bool_decide (is_Some (shape_run P false Idle evs)).

(** The same with gap-fill CLOSEs inside a block. *)
Definition blocks_with_gap_fills (P : Z) (evs : list PublishEvent) : bool :=
  bool_decide (is_Some (shape_run P true Idle evs)).

Definition start_multiple_of (P : Z) (e : PublishEvent) : Prop :=
  (StartTime (EventCandle e) mod P = 0)%Z.

(** What the state machine and a reader of its stream agree on. *)
Definition agrees (t : TimeframeAggregator) (st : Shape) : Prop :=
  match currentCandle t with
  | None => st = Idle
  | Some c => st = InBar (StartTime c) /\ (StartTime c mod agg_Timeframe t = 0)%Z
  end.

(** What a tick [g] periods past the current bar makes the machine emit,
    as the specification has it. *)
Definition gap_emission (t : TimeframeAggregator) (cur : Candle)
  (tick : CleanTick) (g : Z) : list PublishEvent :=
  (gapClose t cur <$> seqZ 1 (g - 1))
  ++ [ {| Status := "CLOSE"; EventCandle := cur |};
       {| Status := "UPDATE";
          EventCandle :=
            freshCandle t (StartTime cur + g * agg_Timeframe t)%Z tick |} ].

(** A tick of XAUUSD at the time the upstream string [ts] parses to. *)
Definition tick_at (ts : string) (price : Q) : CleanTick :=
  {| tick_Symbol := "XAUUSD"; Price := price; tick_Volume := 1%Z;
     Timestamp := default 0%Z (time.ParseInLocation ts) |}.

(** Two ticks three minutes apart. *)
Definition gap_ticks : list CleanTick :=
  [ tick_at "2025-11-24T10:00:15" 2650; tick_at "2025-11-24T10:03:10" 2660 ].

(** Three ticks in two adjacent minutes. *)
Definition adjacent_ticks : list CleanTick :=
  [ tick_at "2025-11-24T10:00:15" 2650; tick_at "2025-11-24T10:00:45" 2655;
    tick_at "2025-11-24T10:01:05" 2648 ].

(** The daily machine of XAUUSD holding the bar of 2025-01-01. *)
Definition day_bar : Candle :=
  {| Symbol := "XAUUSD"; Timeframe := "D1";
     StartTime := default 0%Z (time.ParseInLocation "2025-01-01T00:00:00");
     Open := 2650; High := 2650; Low := 2650; Close := 2650; Volume := 1%Z |}.

Definition day_machine : TimeframeAggregator :=
  set_currentCandle (NewTimeframeAggregator "XAUUSD" "D1" (24 * time.Hour))
    (Some day_bar).

(** The minute machine of XAUUSD holding the bar of 10:00. *)
Definition minute_bar : Candle :=
  {| Symbol := "XAUUSD"; Timeframe := "M1";
     StartTime := default 0%Z (time.ParseInLocation "2025-11-24T10:00:00");
     Open := 2650; High := 2650; Low := 2650; Close := 2650; Volume := 1%Z |}.

Definition minute_machine : TimeframeAggregator :=
  set_currentCandle (NewTimeframeAggregator "XAUUSD" "M1" time.Minute)
    (Some minute_bar).

End AggregatorSpec.

(** ** Histories of a buffer *)

Module BufferSpec.
Import ws.




(** Strictly earlier start. *)
Definition before (a b : CandleData) : Prop := (Time a < Time b)%Z.

(** Strictly ascending starts; in particular no start occurs twice. *)
Definition ordered (cs : list CandleData) : Prop := StronglySorted before cs.

(** All bars but the newest. *)
Definition init (cs : list CandleData) : list CandleData :=
  take (length cs - 1) cs.

Definition later_than_tail (cs : list CandleData) (c : CandleData) : Prop :=
  match last cs with
  | Some l => before l c
  | None => True
  end.



(** A valid flat bar starting at [t]. *)
Definition flat_bar (t : Z) (price : Q) : CandleData :=
  {| Time := t; Open := price; High := price; Low := price; Close := price;
     Volume := 1%Z |}.

(** Every buffer of a manager has the manager's capacity and holds no more
    bars than that. *)
Definition within_capacity (N : Z) (m : MultiPeriodManager) : Prop :=
  mgr_maxSize m = N
  /\ forall key b, buffers m !! key = Some b ->
       maxSize b = N /\ (Z.of_nat (length (candles b)) <= N)%Z.

End BufferSpec.

(** ** Subscribing to a channel *)

Module HubSpec.
Import ws BufferSpec.

(** No [:] in a symbol or a timeframe. *)
Fixpoint colon_free (s : string) : bool :=
  match s with
  | EmptyString => true
  | String c rest => negb (Ascii.eqb c ":") && colon_free rest
  end.

Definition kline_channel (symbol timeframe : string) : string :=
  "kline:" +:+ symbol +:+ ":" +:+ timeframe.

Definition buffer_key (symbol timeframe : string) : string :=
  symbol +:+ ":" +:+ timeframe.

Definition snapshot_of (symbol timeframe : string) (bars : list CandleData)
  : SnapshotMessage :=
  {| Type_ := "snapshot"; Symbol := symbol; Timeframe := timeframe; Data := bars |}.

(** A hub (capacity 500, no store) after the bar events of XAUUSD:M1
    given with their [is_new] flag: [true] for CLOSE, [false] for UPDATE. *)
Definition hub_after (events : list (CandleData * bool)) : Hub :=
  {| Subscriptions := ∅;
     indicatorManager :=
       fold_left (fun m e => AddCandle m "XAUUSD:M1" e.1 e.2) events
         (NewMultiPeriodManager 500 None) |}.

Definition idle_client : Client := {| Send := []; Send_capacity := 256 |}.

(** A client whose writer has not drained any of 256 queued messages. *)
Definition stalled_client : Client :=
  {| Send := replicate 256 (snapshot_of "EURUSD" "M5" [flat_bar 940 1]);
     Send_capacity := 256 |}.

End HubSpec.

(** ** The writer's table *)

Module WriterSpec.
Import dbwriter.

(** The bar of (XAUUSD, M1, 10:00) and its CLOSE and UPDATE messages. *)
Definition bar_1000 : Candle :=
  {| StartTime := default 0%Z (time.ParseInLocation "2025-11-24T10:00:00");
     Symbol := "XAUUSD"; Timeframe := "M1";
     Open := 2650; High := 2655; Low := 2650; Close := 2655; Volume := 2%Z |}.

Definition close_1000 : Message :=
  {| Channel := "kline:XAUUSD:M1";
     Payload := Some {| Status := "CLOSE"; EventCandle := bar_1000 |} |}.

Definition update_1000 : Message :=
  {| Channel := "kline:XAUUSD:M1";
     Payload := Some {| Status := "UPDATE"; EventCandle := bar_1000 |} |}.

End WriterSpec.

(** ** Parsing upstream frames *)

Module ParserSpec.
Import candle.

(** [short] is [full] cut at its first dot. *)
Definition truncated_at_dot (full short : string) : Prop :=
  Contains short "." = false
  /\ exists rest, full = short +:+ rest /\ (rest = "" \/ exists r, rest = String "." r).

Definition quote_of (type symbol time : string) (bid : Q) : UpstreamQuote :=
  {| Id := 6%Z; Type_ := type;
     Args := {| arg_Symbol := symbol; Bid := bid; Ask := bid; arg_Time := time;
                arg_High := bid; arg_Low := bid; Spread := 0 |} |}.

Definition empty_manager : AggregatorManager :=
  {| Aggregators := ∅; Channels := ∅; droppedTicks := ∅ |}.

End ParserSpec.

(** ** Lot sizing and margins *)

Module ServicesSpec.
Import services.




Definition account (free margin : Q) : User :=
  {| UserID := "7"; Username := "trader"; Balance := 10000; Equity := 0;
     Margin := margin; FreeMargin := free |}.

Definition manager_of (u : User) : TradeManager := RegisterUser NewTradeManager u.


Definition buy_signal : Signal :=
  {| sig_Symbol := "XAUUSD"; sig_Timeframe := "M5"; sig_Type := "BUY";
     Price := 2650; sig_StopLoss := 2640; Trend := 1%Z; Timestamp := 0%Z |}.

Definition instance_of (u : User) : StrategyEAInstance :=
  {| orderID := 1%Z;
     config := {| EAID := "ea-1"; cfg_UserID := "7"; EAName := "GreenArrow";
                  cfg_Symbol := "XAUUSD"; cfg_Timeframe := "M5";
                  Strategy := "trend"; RiskPercent := 1; MaxPositions := 3%Z;
                  Enabled := true; MT4AccountID := 1%Z |};
     user := u;
     ea_positions := ∅ |}.

End ServicesSpec.

(** ** The trend-flip scenario of the indicator *)

Module IndicatorSpec.
Import indicators.

Definition bar_at (close : float) : Candle :=
  {| Open := close; High := close; Low := close; Close := close; Volume := 0%Z |}.

(** Twenty bars: ten closes at 100, then ten closes stepping up by 1. *)
Definition flat_then_rising : list Candle :=
  (bar_at <$> replicate 10 100%float)
  ++ (bar_at <$> [101; 102; 103; 104; 105; 106; 107; 108; 109; 110]%float).

Definition defaultParams : GreenArrowParams :=
  {| Length := 8; Deviation := 1; MoneyRisk := 1%float; Signal := 1; Line := 1 |}.







(** The first bar, among those whose predecessor has Bollinger bands of
    its own (index L and later), whose close exceeds those bands' upper
    value. *)
Definition first_crossing_of_computed_band (candles : list Candle)
  (params : GreenArrowParams) : option nat :=
  let closes := Close <$> candles in
  let bbSeries :=
    CalculateBollingerBandsSeries closes (Length params)
      (float_of_int (Deviation params)) in
  List.find
    (fun i => PrimFloat.ltb (Upper (nth (i - 1) bbSeries zeroBands)) (nth i closes 0%float))
    (seq (Z.to_nat (Length params)) (length candles - Z.to_nat (Length params))).

End IndicatorSpec.

(** * What the code shows besides *)

(** ** One machine, one worker, one manager *)

Module MachineSpec.
Import time candle.

(** A bar whose open and close lie between its low and its high. *)
Definition well_formed (c : Candle) : Prop :=
  (Low c <= Open c /\ Open c <= High c /\ Low c <= Close c /\ Close c <= High c)%Q.

(** The window of a tick in a machine. *)
Definition window (t : TimeframeAggregator) (tick : CleanTick) : Z :=
  Truncate (Timestamp tick) (agg_Timeframe t).

Definition is_CLOSE (e : PublishEvent) : bool := String.eqb (Status e) "CLOSE".

(** The start times of the CLOSE events of a stream, in order. *)
Definition closed_starts (evs : list PublishEvent) : list Z :=
  (fun e => StartTime (EventCandle e)) <$> List.filter is_CLOSE evs.

(** The bar of an event as the hub's handleKlineMessage copies it. *)
Definition hub_candle (c : Candle) : ws.CandleData :=
  {| ws.Time := StartTime c; ws.Open := Open c; ws.High := High c;
     ws.Low := Low c; ws.Close := Close c; ws.Volume := Volume c |}.

(** The bar of an event as the writer service decodes it: its Candle has
    the JSON names of the aggregator's. *)
Definition writer_row (c : Candle) : dbwriter.Candle :=
  {| dbwriter.StartTime := StartTime c; dbwriter.Symbol := Symbol c;
     dbwriter.Timeframe := Timeframe c; dbwriter.Open := Open c;
     dbwriter.High := High c; dbwriter.Low := Low c; dbwriter.Close := Close c;
     dbwriter.Volume := Volume c |}.

(** The message the bus hands to the writer for an event the machine [t]
    publishes on its channel. *)
Definition writer_message (t : TimeframeAggregator) (e : PublishEvent)
  : dbwriter.Message :=
  {| dbwriter.Channel := "kline:" +:+ agg_Symbol t +:+ ":" +:+ TfName t;
     dbwriter.Payload :=
       Some {| dbwriter.Status := Status e;
               dbwriter.EventCandle := writer_row (EventCandle e) |} |}.

(** The rows of the CLOSE events of a stream, in order. *)
Definition closed_rows (evs : list PublishEvent) : list dbwriter.Candle :=
  (fun e => writer_row (EventCandle e)) <$> List.filter is_CLOSE evs.

(** The seven timeframes of a worker. *)
Definition periods : list (string * Z) :=
  [ ("M1", Minute); ("M5", 5 * Minute); ("M15", 15 * Minute); ("M30", 30 * Minute);
    ("H1", Hour); ("H4", 4 * Hour); ("D1", 24 * Hour) ]%Z.

(** The aggregators and the queues of a manager go together. *)
Definition paired (m : AggregatorManager) : Prop :=
  forall symbol, is_Some (Aggregators m !! symbol) <-> is_Some (Channels m !! symbol).

(** The volume of a list of ticks. *)
Definition total_volume (ticks : list CleanTick) : Z :=
  foldr (fun k acc => tick_Volume k + acc)%Z 0%Z ticks.

(** The bar a tick of the current window leaves. *)
Definition merged (cur : Candle) (tick : CleanTick) : Candle :=
  {| Symbol := Symbol cur; Timeframe := Timeframe cur;
     StartTime := StartTime cur; Open := Open cur;
     High := max (High cur) (Price tick);
     Low := min (Low cur) (Price tick);
     Close := Price tick;
     Volume := wrap64 (Volume cur + tick_Volume tick) |}.

(** The bar a machine holds, if it holds one, is well formed. *)
Definition holds_well_formed (t : TimeframeAggregator) : Prop :=
  forall cur, currentCandle t = Some cur -> well_formed cur.

End MachineSpec.

(** ** Timestamps and the wall clock *)

Module ClockSpec.
Import time candle.
Local Open Scope Z_scope.

(** The character of a decimal digit. *)
Definition digitChar (d : Z) : ascii := ascii_of_nat (48 + Z.to_nat d).

(** A number in two and in four decimal digits. *)
Definition two (n : Z) : string :=
  String (digitChar (n / 10)) (String (digitChar (n mod 10)) "").

Definition four (n : Z) : string :=
  String (digitChar (n / 1000))
    (String (digitChar (n / 100 mod 10))
       (String (digitChar (n / 10 mod 10)) (String (digitChar (n mod 10)) ""))).

(** A time written in the layout of the upstream: 2006-01-02T15:04:05. *)
Definition stamp (year month day hour min sec : Z) : string :=
  four year +:+ "-" +:+ two month +:+ "-" +:+ two day +:+ "T"
  +:+ two hour +:+ ":" +:+ two min +:+ ":" +:+ two sec.

(** The start of the bar a machine holds after a tick. *)
Definition opens (t : TimeframeAggregator) (tick : CleanTick) : option Z :=
  StartTime <$> currentCandle (fst (ProcessTick t tick)).

End ClockSpec.

(** ** Channels, clients and buffers of the hub *)

Module ChannelSpec.
Import ws BufferSpec HubSpec.

(** The clients of a channel; none when the map has no entry for it. *)
Definition subscribers (h : Hub) (channel : string) : gset positive :=
  default ∅ (Subscriptions h !! channel).

(** Unsubscribe and cleanUpSubscriptions leave no channel without a client
    in the map. *)
Definition no_empty_channel (h : Hub) : Prop :=
  forall channel clients, Subscriptions h !! channel = Some clients -> clients <> ∅.

(** A client after a payload was sent to it without blocking. *)
Definition offered (payload : SnapshotMessage) (client : Client) : Client :=
  if (length (Send client) <? Send_capacity client)%nat then
    {| Send := Send client ++ [payload]; Send_capacity := Send_capacity client |}
  else client.

(** The bars a buffer holds once it exists: what the store gave it when
    the key is new. *)
Definition held (m : MultiPeriodManager) (key : string) : list CandleData :=
  GetCandles (fst (GetOrCreateBuffer m key)) key.

(** Open and close between low and high. *)
Definition sane (c : CandleData) : Prop :=
  (Low c <= Open c /\ Open c <= High c /\ Low c <= Close c /\ Close c <= High c)%Q.

(** Bar events as they reach the manager: the key, the bar, and [is_new]. *)
Definition add_all (m : MultiPeriodManager) (events : list (string * CandleData * bool))
  : MultiPeriodManager :=
  fold_left (fun m e => AddCandle m e.1.1 e.1.2 e.2) events m.

(** The bar of an event of the candle service. *)
Definition bar_of (cs : CandleServiceMsg) : CandleData :=
  {| Time := cs_StartTime cs; Open := cs_Open cs; High := cs_High cs;
     Low := cs_Low cs; Close := cs_Close cs; Volume := cs_Volume cs |}.

(** The parts of a channel name put together again. *)
Fixpoint join (parts : list string) : string :=
  match parts with
  | [] => ""
  | [part] => part
  | part :: rest => part +:+ ":" +:+ join rest
  end.

(** A hub nobody has subscribed to yet, with no history. *)
Definition quiet_hub : Hub := hub_after [].

(** The CLOSE event of a flat bar of XAUUSD:M1 at 2650. *)
Definition close_event : RedisMessage :=
  {| redis_Channel := "kline:XAUUSD:M1";
     asCandleService :=
       Some {| cs_Status := "CLOSE"; cs_Symbol := "XAUUSD"; cs_Timeframe := "M1";
               cs_StartTime := 1000%Z; cs_Open := 2650; cs_High := 2650;
               cs_Low := 2650; cs_Close := 2650; cs_Volume := 1%Z |};
     asKlineMessage := None |}.

(** Two rows of XAUUSD:M1 as the store returns them. *)
Definition stored_rows : list KlineRow :=
  [ {| row_symbol := "XAUUSD"; row_timeframe := "M1"; row_candle := flat_bar 1060 2655 |};
    {| row_symbol := "XAUUSD"; row_timeframe := "M1"; row_candle := flat_bar 1000 2650 |} ].

End ChannelSpec.

(** ** Accounts, instances and the runtime service *)

Module RuntimeSpec.
Import services ServicesSpec.






(** The names CreateStrategy knows. *)
Definition supported : list string :=
  [ "GreenArrow"; "绿箭侠"; "Green Arrow EA"; "MACD"; "MACD EA" ].

(** A Green Arrow instance as StartEA makes it for the account of
    ServicesSpec. *)
Definition green_arrow_instance : RunningEA :=
  Start (NewStrategyEAInstance 1 (config (instance_of (account 8000 0)))
           (account 8000 0) NewGreenArrowEA).

(** The indicator's message of an up signal at 2650 with stop 2640. *)
Definition up_signal : GreenArrowResult :=
  {| UpStop := 2640; DownStop := -1; UpSignal := 2650; DownSignal := -1;
     UpLine := 2640; DownLine := 0; ind_Trend := 1%Z; IsSignal := true |}.

End RuntimeSpec.

(** ** The main loop of Green Arrow *)

Module LoopSpec.
Import indicators.

(** The index of the first bar the main loop computes. *)
Definition first_bar (params : GreenArrowParams) : nat := Z.to_nat (Length params - 1).

(** The main loop after its first [k] iterations. *)
Definition loopAfter (candles : list Candle) (params : GreenArrowParams) (k : nat)
  : LoopState :=
  let n := length candles in
  let closes := Close <$> candles in
  let bbSeries :=
    CalculateBollingerBandsSeries closes (Length params) (float_of_int (Deviation params)) in
  let zeros := replicate n 0%float in
  fold_left (loopBody closes bbSeries params) (seq (first_bar params) k)
    {| trend := 0%Z; upperBand := zeros; lowerBand := zeros;
       upperStop := zeros; lowerStop := zeros;
       results := replicate n emptyResult |}.

(** The up side of a bar is blank. *)
Definition up_blank (r : GreenArrowResult) : Prop :=
  UpStop r = (-1)%float /\ UpSignal r = (-1)%float /\ UpLine r = EMPTY_VALUE.

Definition down_blank (r : GreenArrowResult) : Prop :=
  DownStop r = (-1)%float /\ DownSignal r = (-1)%float /\ DownLine r = EMPTY_VALUE.

(** What a bar of the output looks like, [prev] being the bar before it and
    [first] saying whether it is the first bar the loop computes. *)
Definition bar_ok (params : GreenArrowParams) (first : bool)
  (prev r : GreenArrowResult) : Prop :=
  (Trend r = 0 \/ Trend r = 1 \/ Trend r = -1)%Z
  /\ (Trend r = 0%Z -> r = emptyResult)
  /\ (Trend r <> 1%Z -> up_blank r)
  /\ (Trend r <> (-1)%Z -> down_blank r)
  /\ (Trend r = 1%Z ->
      IsSignal r
      = (if (0 <? Signal params)%Z
         then (if first then true else PrimFloat.eqb (UpStop prev) (-1)%float)
         else false)
      /\ (Signal params = 2%Z -> UpStop r = 0%float)
      /\ (IsSignal r = true -> Signal params <> 2%Z -> UpSignal r = UpStop r)
      /\ (IsSignal r = false -> UpSignal r = (-1)%float)
      /\ (Line params <= 0 -> UpLine r = EMPTY_VALUE)%Z)
  /\ (Trend r = (-1)%Z ->
      IsSignal r
      = (if (0 <? Signal params)%Z
         then (if first then true else PrimFloat.eqb (DownStop prev) (-1)%float)
         else false)
      /\ (Signal params = 2%Z -> DownStop r = 0%float)
      /\ (IsSignal r = true -> Signal params <> 2%Z -> DownSignal r = DownStop r)
      /\ (IsSignal r = false -> DownSignal r = (-1)%float)
      /\ (Line params <= 0 -> DownLine r = EMPTY_VALUE)%Z).

(** The invariant of the main loop after [k] iterations over [n] bars. *)
Definition loop_inv (params : GreenArrowParams) (n k : nat) (s : LoopState) : Prop :=
  length (results s) = n
  /\ (trend s = 0 \/ trend s = 1 \/ trend s = -1)%Z
  /\ (forall j, (j < first_bar params \/ first_bar params + k <= j)%nat ->
        nth j (results s) emptyResult = emptyResult)
  /\ (forall j, (first_bar params <= j < first_bar params + k)%nat ->
        bar_ok params (j =? first_bar params)%nat
          (nth (j - 1) (results s) emptyResult) (nth j (results s) emptyResult))
  /\ (forall j, (first_bar params <= j < first_bar params + k)%nat ->
        Trend (nth j (results s) emptyResult) <> 0%Z -> trend s <> 0%Z)
  /\ (forall j, (S j < first_bar params + k)%nat ->
        Trend (nth j (results s) emptyResult) <> 0%Z ->
        Trend (nth (S j) (results s) emptyResult) <> 0%Z).

End LoopSpec.

(** * Proofs *)

(** Case analysis on the first integer comparison the goal tests. *)
Ltac case_compare :=
  match goal with
  | |- context [(?a <? ?b)%Z] => destruct (Z.ltb_spec a b)
  | |- context [(?a <=? ?b)%Z] => destruct (Z.leb_spec a b)
  | |- context [(?a =? ?b)%Z] => destruct (Z.eqb_spec a b)
  end.

(** ** Appending strings *)

Module StringFacts.

Lemma append_cons (x : ascii) (a b : string) : String x a +:+ b = String x (a +:+ b).
Proof. reflexivity. Qed.

Lemma append_nil_l (b : string) : "" +:+ b = b.
Proof. reflexivity. Qed.

Lemma append_assoc (a b c : string) : (a +:+ b) +:+ c = a +:+ b +:+ c.
Proof.
  induction a as [|x a IH].
  - reflexivity.
  - rewrite !append_cons. f_equal. exact IH.
Qed.

Lemma append_nil_r (a : string) : a +:+ "" = a.
Proof.
  induction a as [|x a IH].
  - reflexivity.
  - rewrite append_cons. f_equal. exact IH.
Qed.

End StringFacts.

Module AggregatorProofs.
Import time candle AggregatorSpec.

Local Open Scope Z_scope.

Lemma Truncate_multiple (t P : Z) : 0 < P -> Truncate t P mod P = 0.
Proof.
  intros HP. unfold Truncate. case_compare; [lia|].
  rewrite (Z.div_mod t P) at 1 by lia.
  replace (P * (t / P) + t mod P - t mod P) with ((t / P) * P) by lia.
  apply Z_mod_mult.
Qed.

Lemma Sub_after (t u : Z) : u < t -> 0 < Sub t u <= t - u.
Proof.
  intros H. unfold Sub, maxDuration, minDuration. repeat case_compare; lia.
Qed.

Lemma Sub_exact (t u : Z) : u <= t -> t - u <= maxDuration -> Sub t u = t - u.
Proof.
  intros H1 H2. unfold Sub, maxDuration, minDuration in *.
  repeat case_compare; lia.
Qed.

(** The events of the fill loop, one per iteration. *)
Lemma fillLoop_published t lastClose cur n :
  Close cur = lastClose ->
  forall k : Z,
    published (fillLoop t lastClose (StartTime cur + k * agg_Timeframe t) n)
    = gapClose t cur <$> seqZ (k + 1) (Z.of_nat n).
Proof.
  intros <-. induction n as [|n IH]; intros k.
  - reflexivity.
  - cbn [fillLoop emit_app published]. unfold Add.
    replace (StartTime cur + k * agg_Timeframe t + agg_Timeframe t)
      with (StartTime cur + (k + 1) * agg_Timeframe t) by lia.
    rewrite IH.
    rewrite (seqZ_cons (k + 1) (Z.of_nat (S n))) by lia.
    rewrite fmap_cons. cbn [app]. f_equal.
    replace (Z.succ (k + 1)) with (k + 1 + 1) by lia.
    replace (Z.pred (Z.of_nat (S n))) with (Z.of_nat n) by lia.
    reflexivity.
Qed.

Lemma fillMissingBars_published t cur count :
  currentCandle t = Some cur ->
  published (fillMissingBars t count) = gapClose t cur <$> seqZ 1 count.
Proof.
  intros Hc. unfold fillMissingBars. rewrite Hc.
  destruct (Z.leb_spec count 0) as [H|H].
  - rewrite seqZ_nil by lia. reflexivity.
  - pose proof (fillLoop_published t (Close cur) cur (Z.to_nat count) eq_refl 0) as E.
    rewrite Z.mul_0_l, Z.add_0_r in E. rewrite E.
    rewrite Z2Nat.id by lia. reflexivity.
Qed.

Lemma shape_run_app P gaps st a b :
  shape_run P gaps st (a ++ b)
  = match shape_run P gaps st a with
    | Some st' => shape_run P gaps st' b
    | None => None
    end.
Proof.
  revert st. induction a as [|e a IH]; intros st; cbn [app shape_run].
  - reflexivity.
  - destruct (shape_step P gaps st e); [apply IH | reflexivity].
Qed.

Lemma shape_step_CLOSE P gaps st c :
  shape_step P gaps st {| Status := "CLOSE"; EventCandle := c |}
  = match st with
    | InBar s =>
        if StartTime c =? s then Some (Closed s)
        else if gaps && (StartTime c =? s + P) then Some (Filling s (StartTime c))
        else None
    | Filling s l =>
        if StartTime c =? s then Some (Closed l)
        else if StartTime c =? l + P then Some (Filling s (StartTime c))
        else None
    | _ => None
    end.
Proof. reflexivity. Qed.

Lemma shape_step_UPDATE P gaps st c :
  shape_step P gaps st {| Status := "UPDATE"; EventCandle := c |}
  = match st with
    | Idle => Some (InBar (StartTime c))
    | InBar s => if StartTime c =? s then Some (InBar s) else None
    | Filling _ _ => None
    | Closed m => if m <? StartTime c then Some (InBar (StartTime c)) else None
    end.
Proof. reflexivity. Qed.

Lemma publishCandle_current t cur status :
  currentCandle t = Some cur ->
  published (publishCandle t status) = [ {| Status := status; EventCandle := cur |} ].
Proof. intros H. unfold publishCandle. rewrite H. reflexivity. Qed.

Lemma publishCandle_set t c status :
  published (publishCandle (set_currentCandle t (Some c)) status)
  = [ {| Status := status; EventCandle := c |} ].
Proof. reflexivity. Qed.

Lemma ProcessTick_Timeframe t tick :
  agg_Timeframe (fst (ProcessTick t tick)) = agg_Timeframe t.
Proof.
  unfold ProcessTick. destruct (currentCandle t) as [cur|]; [|reflexivity].
  repeat (match goal with |- context [if ?b then _ else _] => destruct b end);
    reflexivity.
Qed.

(** *** One machine of positive period *)

Section Machine.

Variable t : TimeframeAggregator.
Hypothesis positive_period : 0 < agg_Timeframe t.

(** Reading gap-fill CLOSEs [k+1 .. k+n] of the bar [cur] after [k >= 1]
    of them. *)
Lemma shape_run_filling cur n :
  forall k, 1 <= k ->
    shape_run (agg_Timeframe t) true
      (Filling (StartTime cur) (StartTime cur + k * agg_Timeframe t))
      (gapClose t cur <$> seqZ (k + 1) (Z.of_nat n))
    = Some (Filling (StartTime cur)
              (StartTime cur + (k + Z.of_nat n) * agg_Timeframe t)).
Proof.
  induction n as [|n IH]; intros k Hk.
  - rewrite seqZ_nil by lia. cbn [fmap list_fmap shape_run].
    replace (k + Z.of_nat 0) with k by lia. reflexivity.
  - rewrite (seqZ_cons (k + 1) (Z.of_nat (S n))) by lia.
    rewrite fmap_cons. cbn [shape_run]. unfold gapClose at 1.
    rewrite shape_step_CLOSE. cbn [StartTime].
    assert (0 < (k + 1) * agg_Timeframe t) by (apply Z.mul_pos_pos; lia).
    destruct (Z.eqb_spec (StartTime cur + (k + 1) * agg_Timeframe t) (StartTime cur)) as [E|_];
      [lia|].
    destruct (Z.eqb_spec (StartTime cur + (k + 1) * agg_Timeframe t)
                (StartTime cur + k * agg_Timeframe t + agg_Timeframe t)) as [_|E];
      [|lia].
    replace (Z.succ (k + 1)) with (k + 1 + 1) by lia.
    replace (Z.pred (Z.of_nat (S n))) with (Z.of_nat n) by lia.
    rewrite IH by lia. do 2 f_equal. lia.
Qed.

(** Reading the [n >= 0] gap-fill CLOSEs that follow the UPDATEs of [cur]. *)
Lemma shape_run_gap_fills cur n :
  0 < n ->
  shape_run (agg_Timeframe t) true (InBar (StartTime cur))
    (gapClose t cur <$> seqZ 1 n)
  = Some (Filling (StartTime cur) (StartTime cur + n * agg_Timeframe t)).
Proof.
  intros Hn.
  rewrite (seqZ_cons 1 n) by lia.
  rewrite fmap_cons. cbn [shape_run]. unfold gapClose at 1.
  rewrite shape_step_CLOSE. cbn [StartTime].
  destruct (Z.eqb_spec (StartTime cur + 1 * agg_Timeframe t) (StartTime cur)) as [E|_];
    [lia|].
  destruct (Z.eqb_spec (StartTime cur + 1 * agg_Timeframe t)
              (StartTime cur + agg_Timeframe t)) as [_|E]; [|lia].
  cbn [andb].
  pose proof (shape_run_filling cur (Z.to_nat (Z.pred n)) 1 ltac:(lia)) as E.
  rewrite Z2Nat.id in E by lia.
  replace (Z.succ 1) with (1 + 1) by lia. rewrite E. do 2 f_equal. lia.
Qed.

Lemma gapClose_multiples cur m n :
  StartTime cur mod agg_Timeframe t = 0 ->
  Forall (start_multiple_of (agg_Timeframe t)) (gapClose t cur <$> seqZ m n).
Proof.
  intros Hs. apply Forall_fmap, Forall_forall. intros i _.
  unfold start_multiple_of, compose. cbn.
  rewrite Z_mod_plus_full. exact Hs.
Qed.

(** One tick keeps the machine and the reader of its stream in step. *)
Lemma ProcessTick_shape tick st :
  agrees t st ->
  exists st',
    shape_run (agg_Timeframe t) true st (published (snd (ProcessTick t tick))) = Some st'
    /\ agrees (fst (ProcessTick t tick)) st'
    /\ Forall (start_multiple_of (agg_Timeframe t)) (published (snd (ProcessTick t tick))).
Proof.
  intros Hagree. unfold agrees in Hagree.
  pose proof positive_period as HP.
  pose proof (Truncate_multiple (Timestamp tick) _ HP) as HW.
  unfold ProcessTick.
  remember (Truncate (Timestamp tick) (agg_Timeframe t)) as W eqn:EW. clear EW.
  destruct (currentCandle t) as [cur|] eqn:Hcur.
  2:{ subst st. exists (InBar W). cbn. unfold agrees. cbn.
      repeat split; auto. }
  destruct Hagree as [-> Hs].
  unfold After, Equal, Before.
  destruct (Z.ltb_spec (StartTime cur) W) as [Hlt|Hge].
  - (* a new bar *)
    pose proof (Sub_after W (StartTime cur) Hlt) as [Hpos Hle].
    set (m := Sub W (StartTime cur) ÷ agg_Timeframe t).
    assert (Hm : m * agg_Timeframe t <= W - StartTime cur).
    { unfold m. rewrite Z.quot_div_nonneg by lia.
      pose proof (Z.mul_div_le (Sub W (StartTime cur)) (agg_Timeframe t) HP). lia. }
    exists (InBar W).
    cbn [fst snd emit_app published].
    rewrite !(publishCandle_current t cur "CLOSE" Hcur), !publishCandle_set.
    destruct (Z.ltb_spec 1 m) as [Hgap|Hnogap].
    + cbn [emit_app published app].
      rewrite !(fillMissingBars_published t cur (m - 1) Hcur).
      split; [|split].
      * rewrite shape_run_app, shape_run_gap_fills by lia.
        cbn [shape_run]. rewrite shape_step_CLOSE, Z.eqb_refl, shape_step_UPDATE.
        cbn [freshCandle StartTime].
        destruct (Z.ltb_spec (StartTime cur + (m - 1) * agg_Timeframe t) W); [reflexivity|lia].
      * unfold agrees. cbn. auto.
      * apply Forall_app. split; [apply gapClose_multiples; auto|].
        repeat constructor; unfold start_multiple_of; cbn; auto.
    + unfold nothing. cbn [published app].
      split; [|split].
      * cbn [shape_run]. rewrite shape_step_CLOSE, Z.eqb_refl, shape_step_UPDATE.
        cbn [freshCandle StartTime].
        destruct (Z.ltb_spec (StartTime cur) W); [reflexivity|lia].
      * unfold agrees. cbn. auto.
      * repeat constructor; unfold start_multiple_of; cbn; auto.
  - destruct (Z.eqb_spec W (StartTime cur)) as [Heq|Hne].
    + (* the same bar *)
      exists (InBar (StartTime cur)). cbn [fst snd].
      rewrite !publishCandle_set. cbn [shape_run].
      rewrite shape_step_UPDATE. cbn [StartTime]. rewrite Z.eqb_refl.
      unfold agrees. cbn [currentCandle set_currentCandle agg_Timeframe StartTime].
      repeat split; auto.
    + (* an out-of-order tick *)
      exists (InBar (StartTime cur)).
      destruct (Z.ltb_spec W (StartTime cur)); cbn; unfold agrees; rewrite Hcur;
        repeat split; auto.
Qed.

End Machine.

(** The invariant along a whole feed. *)
Lemma feed_shape ticks : forall t st,
  0 < agg_Timeframe t ->
  agrees t st ->
  exists st',
    shape_run (agg_Timeframe t) true st (published (snd (feed t ticks))) = Some st'
    /\ Forall (start_multiple_of (agg_Timeframe t)) (published (snd (feed t ticks))).
Proof.
  induction ticks as [|tick rest IH]; intros t st HP Hagree.
  - exists st. cbn. auto.
  - cbn [feed].
    destruct (ProcessTick_shape t HP tick st Hagree) as (st1 & Hrun & Hagree1 & Hmult).
    pose proof (ProcessTick_Timeframe t tick) as HT.
    destruct (ProcessTick t tick) as [t1 e1] eqn:E1. cbn [fst snd] in *.
    rewrite <- HT in HP.
    destruct (IH t1 st1 HP Hagree1) as (st2 & Hrun2 & Hmult2).
    destruct (feed t1 rest) as [t2 e2] eqn:E2. cbn [fst snd] in *.
    rewrite HT in *.
    exists st2. cbn [emit_app published]. split.
    + rewrite shape_run_app, Hrun. exact Hrun2.
    + apply Forall_app. auto.
Qed.

(** What a tick of a later window makes the machine emit: the gap-fill
    CLOSEs the measured distance asks for, the CLOSE of the current bar and
    the UPDATE of the fresh one. *)
Lemma ProcessTick_new_bar_published t cur tick :
  currentCandle t = Some cur ->
  StartTime cur < Truncate (Timestamp tick) (agg_Timeframe t) ->
  published (snd (ProcessTick t tick))
  = (gapClose t cur
       <$> seqZ 1 (Sub (Truncate (Timestamp tick) (agg_Timeframe t)) (StartTime cur)
                     ÷ agg_Timeframe t - 1))
    ++ [ {| Status := "CLOSE"; EventCandle := cur |};
         {| Status := "UPDATE";
            EventCandle :=
              freshCandle t (Truncate (Timestamp tick) (agg_Timeframe t)) tick |} ].
Proof.
  intros Hcur Hlt. unfold ProcessTick. rewrite Hcur.
  unfold After. destruct (Z.ltb_spec (StartTime cur) (Truncate (Timestamp tick) (agg_Timeframe t)));
    [|lia].
  cbn [fst snd emit_app published].
  rewrite (publishCandle_current t cur "CLOSE" Hcur), publishCandle_set.
  destruct (Z.ltb_spec 1 (Sub (Truncate (Timestamp tick) (agg_Timeframe t)) (StartTime cur)
                            ÷ agg_Timeframe t)).
  - cbn [emit_app published app].
    rewrite (fillMissingBars_published t cur _ Hcur). reflexivity.
  - rewrite seqZ_nil by lia. reflexivity.
Qed.

(** C2, as stated, fails: a tick three minutes after the first makes the
    minute machine emit UPDATE(10:00), CLOSE(10:01), CLOSE(10:02),
    CLOSE(10:00), UPDATE(10:03); the CLOSEs of 10:01 and 10:02 belong to
    bars that have no UPDATE and stand before the CLOSE of 10:00, so the
    stream is no concatenation of UPDATE+ CLOSE blocks with increasing
    starts. *)
Lemma C2_gap_fill_breaks_blocks :
  update_close_blocks Minute
    (published (snd (feed (NewTimeframeAggregator "XAUUSD" "M1" Minute) gap_ticks)))
  = false.
Proof. vm_compute. reflexivity. Qed.

(** C2 (amended): for every tick sequence fed to one timeframe state
    machine of period P > 0, the emitted events form per-bar blocks
    UPDATE+ G* CLOSE, where G* are the stand-alone CLOSE events of the
    gap-fill bars of the following periods (none when the next tick falls
    in the next period), the last block possibly still open; a block starts
    after every start emitted before it, and every emitted start_time is a
    multiple of P. *)
Theorem C2_event_stream_shape (symbol tfName : string) (P : Z)
  (ticks : list CleanTick) :
  0 < P ->
  blocks_with_gap_fills P
    (published (snd (feed (NewTimeframeAggregator symbol tfName P) ticks))) = true
  /\ Forall (start_multiple_of P)
       (published (snd (feed (NewTimeframeAggregator symbol tfName P) ticks))).
Proof.
  intros HP.
  destruct (feed_shape ticks (NewTimeframeAggregator symbol tfName P) Idle HP eq_refl)
    as (st & Hrun & Hmult).
  split; [|exact Hmult].
  unfold blocks_with_gap_fills. apply bool_decide_eq_true.
  cbn [agg_Timeframe NewTimeframeAggregator] in Hrun. rewrite Hrun. eauto.
Qed.

Lemma C2_event_stream_shape_witness :
  blocks_with_gap_fills Minute
    (published (snd (feed (NewTimeframeAggregator "XAUUSD" "M1" Minute) gap_ticks))) = true
  /\ Forall (start_multiple_of Minute)
       (published (snd (feed (NewTimeframeAggregator "XAUUSD" "M1" Minute) gap_ticks))).
Proof.
  apply (C2_event_stream_shape "XAUUSD" "M1" Minute gap_ticks). reflexivity.
Defined.

(** Without a gap the blocks are exactly UPDATE+ CLOSE. *)
Example adjacent_ticks_blocks :
  update_close_blocks Minute
    (published (snd (feed (NewTimeframeAggregator "XAUUSD" "M1" Minute) adjacent_ticks)))
  = true.
Proof. vm_compute. reflexivity. Qed.

Lemma length_gap_emission t cur tick g :
  1 <= g -> Z.of_nat (length (gap_emission t cur tick g)) = g + 1.
Proof.
  intros Hg. unfold gap_emission.
  rewrite length_app, length_fmap, length_seqZ. cbn [length]. lia.
Qed.

(** C3, as stated, fails when the distance does not fit in a Duration: the
    daily machine holds the bar of 2025-01-01 and the next tick is stamped
    2600-01-01, 210014 periods later; [Sub] returns the largest Duration,
    which holds 106751 days, so 106750 synthetic bars are emitted where the
    claim promises 210013. *)
Lemma C3_gap_beyond_max_duration :
  0 < agg_Timeframe day_machine
  /\ currentCandle day_machine = Some day_bar
  /\ 2 <= 210014
  /\ Truncate (Timestamp (tick_at "2600-01-01T00:00:00" 2660)) (agg_Timeframe day_machine)
     = StartTime day_bar + 210014 * agg_Timeframe day_machine
  /\ Z.of_nat (length (published (snd (ProcessTick day_machine
                                         (tick_at "2600-01-01T00:00:00" 2660)))))
     = 106752
  /\ published (snd (ProcessTick day_machine (tick_at "2600-01-01T00:00:00" 2660)))
     <> gap_emission day_machine day_bar (tick_at "2600-01-01T00:00:00" 2660) 210014.
Proof.
  assert (L : Z.of_nat (length (published (snd (ProcessTick day_machine
                                 (tick_at "2600-01-01T00:00:00" 2660))))) = 106752).
  { rewrite (ProcessTick_new_bar_published day_machine day_bar) by (vm_compute; reflexivity).
    rewrite length_app, length_fmap, length_seqZ. cbn [length].
    vm_compute. reflexivity. }
  split; [reflexivity|]. split; [reflexivity|]. split; [lia|].
  split; [vm_compute; reflexivity|]. split; [exact L|].
  intros E. rewrite E, length_gap_emission in L by lia. lia.
Qed.

(** C3 (amended): for every state of the machine (period P > 0) with
    current bar C and every tick whose truncated window is g >= 2 periods
    past C.start, the distance g * P fitting in a Duration (2^63 - 1 ns,
    about 292 years), the machine emits exactly g - 1 synthetic CLOSE bars
    at the consecutive periods from C.start + P, each with open = high =
    low = close = C's close and volume 0, then CLOSE for C, then UPDATE for
    the fresh bar at W(tick) opened at the tick price, which becomes the
    current bar. *)
Theorem C3_gap_fill_emission (t : TimeframeAggregator) (cur : Candle)
  (tick : CleanTick) (g : Z) :
  0 < agg_Timeframe t ->
  currentCandle t = Some cur ->
  2 <= g ->
  Truncate (Timestamp tick) (agg_Timeframe t) = StartTime cur + g * agg_Timeframe t ->
  g * agg_Timeframe t <= maxDuration ->
  published (snd (ProcessTick t tick)) = gap_emission t cur tick g
  /\ length (gapClose t cur <$> seqZ 1 (g - 1)) = Z.to_nat (g - 1)
  /\ currentCandle (fst (ProcessTick t tick))
     = Some (freshCandle t (StartTime cur + g * agg_Timeframe t) tick).
Proof.
  intros HP Hcur Hg HW Hfit.
  assert (Hpos : 0 < g * agg_Timeframe t) by (apply Z.mul_pos_pos; lia).
  split; [|split].
  - rewrite (ProcessTick_new_bar_published t cur tick Hcur) by lia.
    rewrite HW, Sub_exact by lia.
    replace (StartTime cur + g * agg_Timeframe t - StartTime cur)
      with (g * agg_Timeframe t) by lia.
    rewrite Z.quot_mul by lia. reflexivity.
  - rewrite length_fmap, length_seqZ. reflexivity.
  - unfold ProcessTick. rewrite Hcur, HW. unfold After.
    destruct (Z.ltb_spec (StartTime cur) (StartTime cur + g * agg_Timeframe t)); [|lia].
    reflexivity.
Qed.

Lemma C3_gap_fill_emission_witness :
  published (snd (ProcessTick minute_machine (tick_at "2025-11-24T10:03:10" 2660)))
  = gap_emission minute_machine minute_bar (tick_at "2025-11-24T10:03:10" 2660) 3
  /\ length (gapClose minute_machine minute_bar <$> seqZ 1 (3 - 1)) = Z.to_nat (3 - 1)
  /\ currentCandle (fst (ProcessTick minute_machine (tick_at "2025-11-24T10:03:10" 2660)))
     = Some (freshCandle minute_machine
               (StartTime minute_bar + 3 * agg_Timeframe minute_machine)
               (tick_at "2025-11-24T10:03:10" 2660)).
Proof.
  apply (C3_gap_fill_emission minute_machine minute_bar
           (tick_at "2025-11-24T10:03:10" 2660) 3);
    vm_compute; congruence.
Defined.

End AggregatorProofs.

Module BufferProofs.
Import ws BufferSpec.

Local Open Scope Z_scope.

Lemma init_snoc (pre : list CandleData) (x : CandleData) : init (pre ++ [x]) = pre.
Proof.
  unfold init. rewrite length_app. cbn [length].
  replace (length pre + 1 - 1)%nat with (length pre) by lia.
  apply take_app_length.
Qed.

Lemma snoc_cases (cs : list CandleData) :
  cs = [] \/ exists pre x, cs = pre ++ [x].
Proof.
  destruct (last cs) as [x|] eqn:E.
  - right. apply last_Some in E as [pre ->]. eauto.
  - left. apply last_None in E. exact E.
Qed.

(** Update writes the newest bar, or the first one. *)
Lemma Update_candles cb c : candles (Update cb c) = init (candles cb) ++ [c].
Proof.
  unfold Update. cbn [candles].
  destruct (snoc_cases (candles cb)) as [->|(pre & x & ->)].
  - reflexivity.
  - rewrite init_snoc, length_app. cbn [length].
    destruct (Nat.ltb_spec 0 (length pre + 1)); [|lia].
    replace (length pre + 1 - 1)%nat with (length pre + 0)%nat by lia.
    rewrite insert_app_r. reflexivity.
Qed.

(** Add appends, and drops the oldest bar when that overflows. *)
Lemma Add_candles cb c :
  candles (Add cb c)
  = if maxSize cb <? Z.of_nat (length (candles cb)) + 1
    then tail (candles cb ++ [c]) else candles cb ++ [c].
Proof.
  unfold Add. cbn [candles]. rewrite length_app. cbn [length].
  replace (Z.of_nat (length (candles cb) + 1)) with (Z.of_nat (length (candles cb)) + 1)
    by lia.
  reflexivity.
Qed.


Lemma length_init (cs : list CandleData) : length (init cs) = (length cs - 1)%nat.
Proof. unfold init. rewrite length_take. lia. Qed.

Lemma Add_size cb c :
  Z.of_nat (length (candles cb)) <= maxSize cb ->
  Z.of_nat (length (candles (Add cb c))) <= maxSize cb.
Proof.
  intros H. rewrite Add_candles.
  destruct (Z.ltb_spec (maxSize cb) (Z.of_nat (length (candles cb)) + 1)).
  - destruct (candles cb) as [|x cs]; cbn [app tail length] in *; [lia|].
    rewrite length_app. cbn [length]. lia.
  - rewrite length_app. cbn [length]. lia.
Qed.

Lemma Update_size cb c :
  1 <= maxSize cb ->
  Z.of_nat (length (candles cb)) <= maxSize cb ->
  Z.of_nat (length (candles (Update cb c))) <= maxSize cb.
Proof.
  intros HN H. rewrite Update_candles, length_app, length_init. cbn [length]. lia.
Qed.

Create HintDb buffer discriminated.
#[local] Hint Resolve Add_size Update_size : buffer.


(** In an ordered list no bar starts after the newest. *)
Lemma ordered_snoc (cs : list CandleData) (c : CandleData) :
  ordered cs -> later_than_tail cs c -> ordered (cs ++ [c]).
Proof.
  unfold ordered, later_than_tail. intros Hs Hl.
  apply StronglySorted_app. repeat split; auto.
  - intros x1 x2 H1 H2. apply list_elem_of_singleton in H2 as ->.
    destruct (snoc_cases cs) as [->|(pre & l & ->)].
    + inversion H1.
    + rewrite last_snoc in Hl.
      apply elem_of_app in H1 as [H1|H1].
      * pose proof (StronglySorted_app_1_elem_of before pre [l] x1 l Hs H1
                      ltac:(apply list_elem_of_singleton; reflexivity)) as Hb.
        unfold before in *. lia.
      * apply list_elem_of_singleton in H1 as ->. exact Hl.
  - repeat constructor.
Qed.

Lemma ordered_tail (cs : list CandleData) : ordered cs -> ordered (tail cs).
Proof.
  unfold ordered. destruct cs as [|x cs]; cbn [tail]; [auto|].
  intros H. apply StronglySorted_cons in H. tauto.
Qed.

Lemma ordered_init (cs : list CandleData) : ordered cs -> ordered (init cs).
Proof.
  destruct (snoc_cases cs) as [->|(pre & x & ->)]; [auto|].
  rewrite init_snoc. apply StronglySorted_app_1_l.
Qed.

#[local] Hint Resolve ordered_snoc ordered_tail ordered_init : buffer.






(** *** The manager keeps its buffers within capacity *)

Lemma loadLoop_length (rows : list CandleData) : forall lastTime acc,
  (length (loadLoop rows lastTime acc) <= length acc + length rows)%nat.
Proof.
  induction rows as [|c rows IH]; intros lastTime acc; cbn [loadLoop length].
  - lia.
  - destruct (valid_row lastTime c).
    + specialize (IH (Time c) (acc ++ [c])). rewrite length_app in IH.
      cbn [length] in IH. lia.
    + specialize (IH lastTime acc). lia.
Qed.

Lemma loadFromDB_size rows N key buffer :
  0 <= N ->
  maxSize buffer = N ->
  Z.of_nat (length (candles buffer)) <= N ->
  maxSize (loadFromDB rows N key buffer) = N
  /\ Z.of_nat (length (candles (loadFromDB rows N key buffer))) <= N.
Proof.
  intros HN HM Hlen. unfold loadFromDB.
  destruct (Split key ":") as [|symbol [|timeframe [|x parts]]]; auto.
  unfold Select. destruct (Z.ltb_spec N 0); [lia|].
  cbn [candles maxSize]. split; [exact HM|].
  pose proof (loadLoop_length
                (reverse (take (Z.to_nat N)
                            (foldr insert_desc []
                               (row_candle <$>
                                  filter (fun r => String.eqb (row_symbol r) symbol
                                                   && String.eqb (row_timeframe r) timeframe
                                                   = true) rows))))
                0 []) as H1.
  rewrite length_reverse, length_take in H1. cbn [length] in H1. lia.
Qed.

Lemma within_capacity_New N db : within_capacity N (NewMultiPeriodManager N db).
Proof.
  split; [reflexivity|]. intros key b H. cbn in H.
  rewrite lookup_empty in H. discriminate.
Qed.

Lemma within_capacity_set N m key b :
  within_capacity N m ->
  maxSize b = N -> Z.of_nat (length (candles b)) <= N ->
  within_capacity N (set_buffer m key b).
Proof.
  intros [HM Hall] Hb1 Hb2. split; [exact HM|].
  intros k b' H. cbn [buffers set_buffer] in H.
  rewrite lookup_insert in H. destruct (decide (key = k)) as [->|Hne].
  - inversion H; subst. auto.
  - eauto.
Qed.

Lemma GetOrCreateBuffer_capacity N m key :
  1 <= N ->
  within_capacity N m ->
  within_capacity N (fst (GetOrCreateBuffer m key))
  /\ maxSize (snd (GetOrCreateBuffer m key)) = N
  /\ Z.of_nat (length (candles (snd (GetOrCreateBuffer m key)))) <= N.
Proof.
  intros HN Hm. unfold GetOrCreateBuffer.
  destruct (buffers m !! key) as [b|] eqn:E; cbn [fst snd].
  - pose proof Hm as [HM Hall]. destruct (Hall _ _ E). split; [exact Hm | auto].
  - pose proof Hm as [HM _]. rewrite HM.
    assert (H : maxSize (match db m with
                         | Some rows => loadFromDB rows N key (NewCandleBuffer N)
                         | None => NewCandleBuffer N
                         end) = N
                /\ Z.of_nat (length (candles (match db m with
                                              | Some rows => loadFromDB rows N key (NewCandleBuffer N)
                                              | None => NewCandleBuffer N
                                              end))) <= N).
    { destruct (db m) as [rows|].
      - apply loadFromDB_size; cbn; lia.
      - cbn. lia. }
    destruct H as [H1 H2].
    split; [apply within_capacity_set; auto | auto].
Qed.

(** Every call of AddCandle keeps every buffer within N >= 1, warm-up from
    the store included. *)
Lemma AddCandle_capacity N m key candle isNew :
  1 <= N ->
  within_capacity N m ->
  within_capacity N (AddCandle m key candle isNew).
Proof.
  intros HN Hm. unfold AddCandle.
  destruct (GetOrCreateBuffer_capacity N m key HN Hm) as (H1 & H2 & H3).
  destruct (GetOrCreateBuffer m key) as [m1 buffer]. cbn [fst snd] in *.
  destruct (valid_ohlc candle); cbn [negb]; [|exact H1].
  destruct isNew; apply within_capacity_set; auto.
  - pose proof (Add_size buffer candle). rewrite H2 in *. auto.
  - pose proof (Update_size buffer candle). rewrite H2 in *. auto.
Qed.

Lemma AddCandle_fold_capacity N key (events : list (CandleData * bool)) : forall m,
  1 <= N ->
  within_capacity N m ->
  within_capacity N (fold_left (fun m e => AddCandle m key e.1 e.2) events m).
Proof.
  induction events as [|e events IH]; intros m HN Hm; cbn [fold_left]; [exact Hm|].
  apply IH, AddCandle_capacity; assumption.
Qed.

End BufferProofs.

Module HubProofs.
Import ws BufferSpec HubSpec StringFacts.

(** The loop runs over a part without [:] and keeps it in [cur]. *)
Lemma splitLoop_colon_free (s : string) : forall rest cur result,
  colon_free s = true ->
  splitLoop ":" (s +:+ rest) cur result = splitLoop ":" rest (cur +:+ s) result.
Proof.
  induction s as [|c s IH]; intros rest cur result H.
  - rewrite append_nil_l, append_nil_r. reflexivity.
  - cbn [colon_free] in H. apply andb_true_iff in H as [Hc Hs].
    apply negb_true_iff in Hc.
    rewrite append_cons. cbn [splitLoop]. rewrite Hc, IH by exact Hs.
    rewrite append_assoc, append_cons, append_nil_l. reflexivity.
Qed.

Lemma splitLoop_last (s cur : string) (result : list string) :
  colon_free s = true ->
  splitLoop ":" s cur result = result ++ [cur +:+ s].
Proof.
  intros H. rewrite <- (append_nil_r s) at 1.
  rewrite splitLoop_colon_free by exact H. reflexivity.
Qed.

Lemma splitChannel_kline (symbol timeframe : string) :
  colon_free symbol = true -> colon_free timeframe = true ->
  splitChannel (kline_channel symbol timeframe) = [ "kline"; symbol; timeframe ].
Proof.
  intros Hs Ht. unfold splitChannel, kline_channel.
  change ("kline:" +:+ symbol +:+ ":" +:+ timeframe)
    with ("kline" +:+ String ":" (symbol +:+ String ":" timeframe)).
  rewrite (splitLoop_colon_free "kline") by reflexivity.
  cbn [splitLoop]. rewrite Ascii.eqb_refl.
  rewrite (splitLoop_colon_free symbol) by exact Hs.
  cbn [splitLoop]. rewrite Ascii.eqb_refl.
  rewrite (splitLoop_last timeframe) by exact Ht.
  reflexivity.
Qed.

(** What sendSnapshot leaves in the client's queue. *)
Lemma sendSnapshot_kline (h : Hub) (client : Client) (symbol timeframe : string) :
  colon_free symbol = true -> colon_free timeframe = true ->
  Send (fst (sendSnapshot h client (kline_channel symbol timeframe)))
  = if bool_decide (GetCandles (indicatorManager h) (buffer_key symbol timeframe) = [])
    then Send client
    else if (length (Send client) <? Send_capacity client)%nat
         then Send client
              ++ [ snapshot_of symbol timeframe
                     (GetCandles (indicatorManager h) (buffer_key symbol timeframe)) ]
         else Send client.
Proof.
  intros Hs Ht. unfold sendSnapshot. rewrite splitChannel_kline by assumption.
  cbn [String.eqb Ascii.eqb Bool.eqb negb]. fold (buffer_key symbol timeframe).
  destruct (GetCandles (indicatorManager h) (buffer_key symbol timeframe)) as [|c cs] eqn:E.
  - reflexivity.
  - cbn [length Nat.eqb]. rewrite bool_decide_eq_false_2 by discriminate.
    destruct (length (Send client) <? Send_capacity client)%nat; reflexivity.
Qed.

(** C7, as stated, fails twice.  A client whose queue of 256 messages is
    full subscribes to a channel whose buffer holds a bar: the snapshot is
    dropped, the queue is what it was.  And a client with room subscribes
    after the hub took UPDATE and then CLOSE of one bar: the one snapshot
    it gets carries that bar twice. *)
Lemma C7_dropped_or_duplicated :
  GetCandles (indicatorManager (hub_after [(flat_bar 1000 2650, true)])) "XAUUSD:M1"
  = [ flat_bar 1000 2650 ]
  /\ Send (snd (fst (Subscribe (hub_after [(flat_bar 1000 2650, true)]) 1%positive
                       stalled_client (kline_channel "XAUUSD" "M1"))))
     = Send stalled_client
  /\ Send (snd (fst (Subscribe
                       (hub_after [(flat_bar 1000 2650, false); (flat_bar 1000 2650, true)])
                       1%positive idle_client (kline_channel "XAUUSD" "M1"))))
     = [ snapshot_of "XAUUSD" "M1" [ flat_bar 1000 2650; flat_bar 1000 2650 ] ].
Proof. repeat split; vm_compute; reflexivity. Qed.

(** C7 (amended): a client subscribes to kline:{symbol}:{timeframe}
    (neither part holding a colon) and joins the channel's set.  If the
    buffer of that key is empty or absent, nothing is sent.  If it holds
    bars and the client's outbound queue has room, exactly one snapshot is
    queued for that client, carrying exactly the buffer's bars in the
    buffer's order (at most N of them when the manager keeps its buffers
    within N); if the queue is full the snapshot is dropped.  The buffer
    itself is not changed. *)
Theorem C7_snapshot_on_subscribe (h : Hub) (ptr : positive) (client : Client)
  (symbol timeframe : string) (N : Z) :
  colon_free symbol = true ->
  colon_free timeframe = true ->
  within_capacity N (indicatorManager h) ->
  let bars := GetCandles (indicatorManager h) (buffer_key symbol timeframe) in
  let after := Subscribe h ptr client (kline_channel symbol timeframe) in
  (exists members, Subscriptions (fst (fst after)) !! kline_channel symbol timeframe
                   = Some members /\ ptr ∈ members)
  /\ indicatorManager (fst (fst after)) = indicatorManager h
  /\ (bars = [] -> Send (snd (fst after)) = Send client)
  /\ (bars <> [] -> (length (Send client) < Send_capacity client)%nat ->
      Send (snd (fst after)) = Send client ++ [ snapshot_of symbol timeframe bars ])
  /\ (bars <> [] -> (Send_capacity client <= length (Send client))%nat ->
      Send (snd (fst after)) = Send client)
  /\ (Z.of_nat (length bars) <= Z.max N 0)%Z.
Proof.
  intros Hs Ht Hcap bars after.
  assert (E : Send (snd (fst after))
              = Send (fst (sendSnapshot
                             {| Subscriptions :=
                                  <[kline_channel symbol timeframe :=
                                      {[ ptr ]} ∪ default ∅ (Subscriptions h
                                                               !! kline_channel symbol timeframe)]>
                                    (Subscriptions h);
                                indicatorManager := indicatorManager h |}
                             client (kline_channel symbol timeframe)))).
  { unfold after, Subscribe.
    destruct (sendSnapshot _ client (kline_channel symbol timeframe)); reflexivity. }
  rewrite sendSnapshot_kline in E by assumption. cbn [indicatorManager] in E.
  fold bars in E.
  assert (F : fst (fst after)
              = {| Subscriptions :=
                     <[kline_channel symbol timeframe :=
                         {[ ptr ]} ∪ default ∅ (Subscriptions h
                                                  !! kline_channel symbol timeframe)]>
                       (Subscriptions h);
                   indicatorManager := indicatorManager h |}).
  { unfold after, Subscribe.
    destruct (sendSnapshot _ client (kline_channel symbol timeframe)); reflexivity. }
  rewrite F. cbn [Subscriptions indicatorManager].
  split; [|split; [|split; [|split; [|split]]]].
  - eexists. split; [apply lookup_insert_eq|]. set_solver.
  - reflexivity.
  - intros Hb. rewrite E, bool_decide_eq_true_2 by exact Hb. reflexivity.
  - intros Hb Hroom. rewrite E, bool_decide_eq_false_2 by exact Hb.
    destruct (Nat.ltb_spec (length (Send client)) (Send_capacity client)); [reflexivity|lia].
  - intros Hb Hfull. rewrite E, bool_decide_eq_false_2 by exact Hb.
    destruct (Nat.ltb_spec (length (Send client)) (Send_capacity client)); [lia|reflexivity].
  - unfold bars, GetCandles.
    destruct (buffers (indicatorManager h) !! buffer_key symbol timeframe) as [b|] eqn:Eb.
    + destruct Hcap as [_ Hcap]. destruct (Hcap _ _ Eb) as [_ Hlen].
      unfold GetAll. lia.
    + cbn. lia.
Qed.

Lemma C7_snapshot_on_subscribe_witness :
  Send (snd (fst (Subscribe
                    (hub_after [(flat_bar 1000 2650, true); (flat_bar 1060 2655, true)])
                    1%positive idle_client (kline_channel "XAUUSD" "M1"))))
  = [ snapshot_of "XAUUSD" "M1" [flat_bar 1000 2650; flat_bar 1060 2655] ].
Proof.
  destruct (C7_snapshot_on_subscribe
              (hub_after [(flat_bar 1000 2650, true); (flat_bar 1060 2655, true)])
              1%positive idle_client "XAUUSD" "M1" 500 eq_refl eq_refl
              (BufferProofs.AddCandle_fold_capacity 500 "XAUUSD:M1" _ _ ltac:(lia)
                 (BufferProofs.within_capacity_New 500 None)))
    as (_ & _ & _ & H & _).
  apply H.
  - vm_compute. discriminate.
  - cbn. lia.
Defined.

End HubProofs.

Module WriterProofs.
Import dbwriter WriterSpec.

Lemma same_key_refl c : same_key c c = true.
Proof.
  unfold same_key. rewrite !String.eqb_refl, Z.eqb_refl. reflexivity.
Qed.

Lemma same_key_spec a b :
  same_key a b = true
  <-> Symbol a = Symbol b /\ Timeframe a = Timeframe b /\ StartTime a = StartTime b.
Proof.
  unfold same_key. rewrite !andb_true_iff, !String.eqb_eq, Z.eqb_eq. tauto.
Qed.

Lemma existsb_rows_of db c :
  existsb (same_key c) db = false -> rows_of db c = [].
Proof.
  unfold rows_of. induction db as [|r db IH]; cbn [existsb]; intros H.
  - reflexivity.
  - apply orb_false_iff in H as [Hr Hdb].
    rewrite filter_cons_False by (rewrite Hr; discriminate). auto.
Qed.

Lemma rows_of_existsb db c :
  existsb (same_key c) db = true -> rows_of db c <> [].
Proof.
  unfold rows_of. induction db as [|r db IH]; cbn [existsb]; intros H.
  - discriminate.
  - destruct (same_key c r) eqn:Hr.
    + rewrite filter_cons_True by exact Hr. discriminate.
    + rewrite filter_cons_False by (rewrite Hr; discriminate). auto.
Qed.

(** One more insert of a key the table holds changes nothing. *)
Lemma insertKlineToDB_again db c :
  insertKlineToDB (insertKlineToDB db c) c = insertKlineToDB db c.
Proof.
  unfold insertKlineToDB at 2 3.
  destruct (existsb (same_key c) db) eqn:E.
  - unfold insertKlineToDB. rewrite E. reflexivity.
  - unfold insertKlineToDB. rewrite existsb_app. cbn [existsb].
    rewrite same_key_refl, orb_true_r. reflexivity.
Qed.

Lemma processMessage_CLOSE db msg event :
  Payload msg = Some event -> Status event = "CLOSE" ->
  fst (processMessage db msg) = insertKlineToDB db (EventCandle event).
Proof.
  intros Hp Hs. unfold processMessage, ParseEvent. rewrite Hp, Hs. reflexivity.
Qed.

Lemma Run_CLOSE_replicate db msg event (n : nat) :
  Payload msg = Some event -> Status event = "CLOSE" ->
  Run db (replicate (S n) msg) = insertKlineToDB db (EventCandle event).
Proof.
  intros Hp Hs. revert db. induction n as [|n IH]; intros db.
  - cbn. apply processMessage_CLOSE; assumption.
  - change (Run db (replicate (S (S n)) msg))
      with (Run (fst (processMessage db msg)) (replicate (S n) msg)).
    rewrite IH, (processMessage_CLOSE db msg event Hp Hs).
    apply insertKlineToDB_again.
Qed.

Lemma rows_of_insert db c c' :
  rows_of (insertKlineToDB db c) c'
  = if existsb (same_key c) db then rows_of db c'
    else rows_of db c' ++ (if same_key c' c then [c] else []).
Proof.
  unfold insertKlineToDB. destruct (existsb (same_key c) db); [reflexivity|].
  unfold rows_of. rewrite filter_app. f_equal.
  destruct (same_key c' c) eqn:E.
  - rewrite filter_cons_True by exact E. reflexivity.
  - rewrite filter_cons_False by (rewrite E; discriminate). reflexivity.
Qed.

(** C8: a bar event whose status is not CLOSE (or whose payload does not
    decode) writes nothing.  A CLOSE event inserts its bar under the key
    (symbol, timeframe, start_time) unless a row of that key is there; so,
    on a table that keeps its UNIQUE constraint, processing the same CLOSE
    event once or any number of times more leaves exactly one row of that
    key (the bar itself when the key was new), and the rows of every other
    key as they were. *)
Theorem C8_writer_idempotent (db : list Candle) (msg : Message) :
  (Payload msg = None -> fst (processMessage db msg) = db)
  /\ (forall event, Payload msg = Some event -> Status event <> "CLOSE" ->
      fst (processMessage db msg) = db
      /\ forall n, Run db (replicate n msg) = db)
  /\ (forall event (n : nat), Payload msg = Some event -> Status event = "CLOSE" ->
      (rows_of db (EventCandle event) = [] ->
       rows_of (Run db (replicate (S n) msg)) (EventCandle event) = [EventCandle event])
      /\ ((length (rows_of db (EventCandle event)) <= 1)%nat ->
          length (rows_of (Run db (replicate (S n) msg)) (EventCandle event)) = 1%nat)
      /\ (forall other, same_key other (EventCandle event) = false ->
          rows_of (Run db (replicate (S n) msg)) other = rows_of db other)).
Proof.
  split; [|split].
  - intros Hp. unfold processMessage, ParseEvent. rewrite Hp. reflexivity.
  - intros event Hp Hs.
    assert (H1 : fst (processMessage db msg) = db).
    { unfold processMessage, ParseEvent. rewrite Hp.
      destruct (String.eqb_spec (Status event) "CLOSE"); [contradiction|reflexivity]. }
    split; [exact H1|].
    induction n as [|n IH]; [reflexivity|].
    change (Run db (replicate (S n) msg))
      with (Run (fst (processMessage db msg)) (replicate n msg)).
    rewrite H1. exact IH.
  - intros event n Hp Hs.
    rewrite (Run_CLOSE_replicate db msg event n Hp Hs).
    split; [|split].
    + intros Hnone. rewrite rows_of_insert, Hnone.
      destruct (existsb (same_key (EventCandle event)) db) eqn:E.
      * apply rows_of_existsb in E. contradiction.
      * rewrite same_key_refl. reflexivity.
    + intros Hone. rewrite rows_of_insert.
      destruct (existsb (same_key (EventCandle event)) db) eqn:E.
      * apply rows_of_existsb in E.
        destruct (rows_of db (EventCandle event)) as [|r [|r' rs]];
          [contradiction | reflexivity | cbn in Hone; lia].
      * rewrite (existsb_rows_of _ _ E), same_key_refl. reflexivity.
    + intros other Hother. rewrite rows_of_insert, Hother, app_nil_r.
      destruct (existsb (same_key (EventCandle event)) db); reflexivity.
Qed.

(** The same CLOSE event for (XAUUSD, M1, 10:00) twice, UPDATEs around it:
    one row. *)
Example writer_same_close_twice :
  Run [] [ update_1000; close_1000; update_1000; close_1000 ] = [ bar_1000 ].
Proof. vm_compute. reflexivity. Qed.

End WriterProofs.

Module ParserProofs.
Import time candle ParserSpec StringFacts.

Lemma SplitN_head_no_sep (s : string) (sep : ascii) :
  Contains s sep = false -> SplitN_head s sep = s.
Proof.
  induction s as [|c s IH]; cbn [Contains SplitN_head]; [reflexivity|].
  destruct (Ascii.eqb c sep); [discriminate|]. intros H. f_equal. auto.
Qed.

Lemma SplitN_head_truncated (s : string) : truncated_at_dot s (SplitN_head s ".").
Proof.
  induction s as [|c s (IH1 & rest & IH2 & IH3)]; cbn [SplitN_head].
  - split; [reflexivity|]. exists "". auto.
  - destruct (Ascii.eqb_spec c ".") as [->|Hne].
    + split; [reflexivity|]. exists (String "." s). split; [reflexivity|]. eauto.
    + split.
      * cbn [Contains]. destruct (Ascii.eqb_spec c "."); [contradiction|exact IH1].
      * exists rest. split; [|exact IH3].
        rewrite append_cons. f_equal. exact IH2.
Qed.

(** The symbol parseQuote keeps, whichever branch it takes. *)
Lemma cleanSymbol_truncated (s : string) :
  truncated_at_dot s (if Contains s "." then SplitN_head s "." else s).
Proof.
  destruct (Contains s ".") eqn:E.
  - apply SplitN_head_truncated.
  - rewrite <- (SplitN_head_no_sep s "." E) at 2. apply SplitN_head_truncated.
Qed.

(** C5, as stated, fails in two places.  A frame that is no quote is
    answered with an error value like any other parse failure.  And a quote
    with no symbol (the empty string) and a good time is not dropped: it
    yields a tick with the empty symbol, for which a worker and a queue are
    created. *)
Lemma C5_not_dropped_without_symbol :
  parseQuote (quote_of "Ping" "XAUUSD.raw" "2025-11-24T10:00:15" 2650)
  = Err "not a quote message"
  /\ parseQuote (quote_of "Quote" "" "2025-11-24T10:00:15" 2650)
     = Ok {| tick_Symbol := ""; Price := 2650; tick_Volume := 1%Z;
             Timestamp := 63899575215000000000%Z |}
  /\ Channels (fst (HandleRawQuote empty_manager false
                      (quote_of "Quote" "" "2025-11-24T10:00:15" 2650))) !! ""
     = Some [ {| tick_Symbol := ""; Price := 2650; tick_Volume := 1%Z;
                 Timestamp := 63899575215000000000%Z |} ].
Proof. repeat split; vm_compute; reflexivity. Qed.

(** C5 (amended): a frame whose type is not "Quote" is dropped: parseQuote
    returns the error "not a quote message", which HandleRawQuote logs and
    returns on, its state untouched; a quote whose time field does not
    parse in the layout 2006-01-02T15:04:05 (UTC) is dropped the same way,
    with the error "invalid time format"; every other quote yields a tick
    whose symbol is the upstream symbol cut at its first dot (the empty
    symbol of a frame without one included), whose price is the bid, whose
    volume is 1 and whose timestamp is the parsed time. *)
Theorem C5_parse_rules (m : AggregatorManager) (worker_received : bool)
  (quote : UpstreamQuote) :
  (Type_ quote <> "Quote" ->
   parseQuote quote = Err "not a quote message"
   /\ HandleRawQuote m worker_received quote
      = (m, [ FailedToParseQuote "not a quote message" ]))
  /\ (Type_ quote = "Quote" -> ParseInLocation (arg_Time (Args quote)) = None ->
      parseQuote quote = Err ("invalid time format: " +:+ arg_Time (Args quote))
      /\ HandleRawQuote m worker_received quote
         = (m, [ FailedToParseQuote ("invalid time format: " +:+ arg_Time (Args quote)) ]))
  /\ (forall ts, Type_ quote = "Quote" ->
      ParseInLocation (arg_Time (Args quote)) = Some ts ->
      exists tick, parseQuote quote = Ok tick
        /\ truncated_at_dot (arg_Symbol (Args quote)) (tick_Symbol tick)
        /\ Price tick = Bid (Args quote)
        /\ tick_Volume tick = 1%Z
        /\ Timestamp tick = ts).
Proof.
  split; [|split].
  - intros Hty.
    assert (E : parseQuote quote = Err "not a quote message").
    { unfold parseQuote.
      destruct (String.eqb_spec (Type_ quote) "Quote"); [contradiction|reflexivity]. }
    split; [exact E|]. unfold HandleRawQuote. rewrite E. reflexivity.
  - intros Hty Htime.
    assert (E : parseQuote quote
                = Err ("invalid time format: " +:+ arg_Time (Args quote))).
    { unfold parseQuote. rewrite Hty, Htime. reflexivity. }
    split; [exact E|]. unfold HandleRawQuote. rewrite E. reflexivity.
  - intros ts Hty Htime. unfold parseQuote. rewrite Hty, Htime.
    cbn [String.eqb Ascii.eqb Bool.eqb negb].
    eexists. split; [reflexivity|]. cbn [tick_Symbol Price tick_Volume Timestamp].
    split; [apply cleanSymbol_truncated | auto].
Qed.

(** What the layout accepts and what it does not. *)
Example ParseInLocation_layout :
  ParseInLocation "2025-11-24T19:45:19" = Some 63899610319000000000%Z
  /\ ParseInLocation "1970-01-01T00:00:00" = Some (62135596800 * Second)%Z
  /\ ParseInLocation "2025-11-24 19:45:19" = None
  /\ ParseInLocation "2025-11-24T19:45:19Z" = None
  /\ ParseInLocation "2025-02-29T19:45:19" = None
  /\ ParseInLocation "24/11/2025 19:45" = None.
Proof. repeat split; vm_compute; reflexivity. Qed.

(** Every timeframe of a worker has a positive period. *)
Lemma NewSymbolAggregator_periods (symbol tfName : string) (t : TimeframeAggregator) :
  Timeframes (NewSymbolAggregator symbol) !! tfName = Some t ->
  (0 < agg_Timeframe t)%Z /\ currentCandle t = None.
Proof.
  unfold NewSymbolAggregator. cbn [Timeframes]. intros H.
  repeat (rewrite lookup_insert in H; destruct (decide (_ = tfName));
          [inversion H; subst; cbn; split; [reflexivity|reflexivity]|]).
  rewrite lookup_empty in H. discriminate.
Qed.

End ParserProofs.

Module ServicesProofs.
Import services ServicesSpec.

Local Open Scope Q_scope.

Lemma Qltb_lt (a b : Q) : Qltb a b = true <-> a < b.
Proof.
  unfold Qltb. rewrite negb_true_iff. split.
  - intros H. apply Qnot_le_lt. intros Hle. apply Qle_bool_iff in Hle. congruence.
  - intros H. destruct (Qle_bool b a) eqn:E; [|reflexivity].
    apply Qle_bool_iff in E. lra.
Qed.

Lemma Qltb_ge (a b : Q) : Qltb a b = false <-> b <= a.
Proof.
  unfold Qltb. rewrite negb_false_iff. apply Qle_bool_iff.
Qed.

Lemma Qgtb_gt (a b : Q) : Qgtb a b = true <-> b < a.
Proof. apply Qltb_lt. Qed.

Lemma Qgtb_le (a b : Q) : Qgtb a b = false <-> a <= b.
Proof. apply Qltb_ge. Qed.

(** *** CalculateLots *)














(** Sizing a trade: risking 1% of 10000 over 10 points gives 1 lot (1.54
    lots over 6.5 points); a
    zero distance gives the minimum; a large account is capped at 10. *)
Example lot_sizing_examples :
  CalculateLots 10000 1 2650 2640 == 1
  /\ CalculateLots 10000 1 2650 2650 == 1 # 100
  /\ CalculateLots 1000000 5 2650 2649 == 10
  /\ CalculateLots 10000 1 2650 (5287 # 2) == 154 # 100.
Proof. repeat split; vm_compute; reflexivity. Qed.

(** *** ExecuteTrade *)



Lemma ExecuteTrade_stored_position tm req newID now :
  Success (snd (ExecuteTrade tm req newID now)) = true ->
  exists p, positions (fst (ExecuteTrade tm req newID now)) !! newID = Some p
            /\ PositionID p = newID /\ Lots p = req_Lots req
            /\ StopLoss p = req_StopLoss req /\ OpenPrice p = 0.
Proof.
  unfold ExecuteTrade.
  destruct (users tm !! req_UserID req) as [u|]; [|discriminate].
  destruct (Qltb (FreeMargin u) (req_Lots req * 1000)); [discriminate|].
  intros _. cbn [fst positions PositionID]. eexists. split; [apply lookup_insert_eq|].
  repeat split.
Qed.



(** *** The two records of one position *)

Lemma ExecuteTrade_position_id tm req newID now :
  Success (snd (ExecuteTrade tm req newID now)) = true ->
  resp_PositionID (snd (ExecuteTrade tm req newID now)) = newID.
Proof.
  unfold ExecuteTrade.
  destruct (users tm !! req_UserID req) as [u|]; [|discriminate].
  destruct (Qltb (FreeMargin u) (req_Lots req * 1000)); [discriminate|].
  reflexivity.
Qed.

(** C10: for every signal a strategy instance executes with success (the
    admission test passed and ExecuteTrade returned success), the position
    the trade manager stores under the new id has open_price 0, whatever
    the signal's price (a trade request carries no price), while the
    instance's own record of the same position has open_price equal to the
    signal's price; the two disagree whenever that price is not 0, and
    agree on lots and stop loss. *)
Theorem C10_open_price_disagrees (ea : StrategyEAInstance) (tm : TradeManager)
  (signal : Signal) (newID : string) (now : Z) :
  (Z.of_nat (size (ea_positions ea)) < MaxPositions (config ea))%Z ->
  Success (snd (ExecuteTrade tm (tradeRequest ea signal) newID now)) = true ->
  exists p_tm p_ea,
    positions (snd (fst (executeSignal ea tm signal newID now))) !! newID = Some p_tm
    /\ ea_positions (fst (fst (executeSignal ea tm signal newID now))) !! newID
       = Some p_ea
    /\ PositionID p_tm = newID /\ PositionID p_ea = newID
    /\ OpenPrice p_tm = 0
    /\ OpenPrice p_ea = Price signal
    /\ (~ Price signal == 0 -> ~ OpenPrice p_tm == OpenPrice p_ea)
    /\ Lots p_tm = Lots p_ea /\ StopLoss p_tm = StopLoss p_ea.
Proof.
  intros Hadm Hok.
  destruct (ExecuteTrade_stored_position tm (tradeRequest ea signal) newID now Hok)
    as (p & Hp & Hid & Hlots & Hsl & Hprice).
  assert (Hresp : resp_PositionID (snd (ExecuteTrade tm (tradeRequest ea signal) newID now))
                  = newID).
  { apply ExecuteTrade_position_id. exact Hok. }
  unfold executeSignal.
  destruct (Z.leb_spec (MaxPositions (config ea)) (Z.of_nat (size (ea_positions ea))));
    [lia|].
  destruct (ExecuteTrade tm (tradeRequest ea signal) newID now) as [tm1 resp] eqn:E.
  cbn [fst snd] in *. rewrite Hok. cbn [fst snd ea_positions]. rewrite Hresp.
  exists p. eexists. split; [exact Hp|]. split; [apply lookup_insert_eq|].
  cbn [PositionID OpenPrice Lots StopLoss].
  repeat split; auto.
  intros Hne Heq. rewrite Hprice in Heq. apply Hne. symmetry. exact Heq.
Qed.

Lemma C10_open_price_disagrees_witness :
  exists p_tm p_ea,
    positions (snd (fst (executeSignal (instance_of (account 8000 0))
                           (manager_of (account 8000 0)) buy_signal "p-1" 0%Z)))
      !! "p-1" = Some p_tm
    /\ ea_positions (fst (fst (executeSignal (instance_of (account 8000 0))
                                 (manager_of (account 8000 0)) buy_signal "p-1" 0%Z)))
         !! "p-1" = Some p_ea
    /\ PositionID p_tm = "p-1" /\ PositionID p_ea = "p-1"
    /\ OpenPrice p_tm = 0
    /\ OpenPrice p_ea = Price buy_signal
    /\ (~ Price buy_signal == 0 -> ~ OpenPrice p_tm == OpenPrice p_ea)
    /\ Lots p_tm = Lots p_ea /\ StopLoss p_tm = StopLoss p_ea.
Proof.
  apply (C10_open_price_disagrees (instance_of (account 8000 0))
           (manager_of (account 8000 0)) buy_signal "p-1" 0%Z).
  - vm_compute. reflexivity.
  - vm_compute. reflexivity.
Defined.

End ServicesProofs.

Module IndicatorProofs.
Import indicators IndicatorSpec.


(** The scenario in numbers: the sample of bar 7, the trends, and what the
    comparison of bar 7 was made with.  Bar 7 is L-1, the first bar of the
    scan; its close 100 is compared with the slot of bar 6, which holds 0.
    Bar 10, the first whose close exceeds the upper Bollinger band computed
    for its predecessor, carries the trend +1 and no signal; the sample's
    [down_stop] field is the sentinel on an uptrend bar. *)
Example trend_flip_in_numbers :
  length (CalculateGreenArrow flat_then_rising defaultParams) = 20%nat
  /\ (Trend <$> CalculateGreenArrow flat_then_rising defaultParams)
     = replicate 7 0%Z ++ replicate 13 1%Z
  /\ at_ (upperBand (runGreenArrow flat_then_rising defaultParams)) 6 = 0%float
  /\ at_ (Close <$> flat_then_rising) 7 = 100%float
  /\ at_ (lowerStop (runGreenArrow flat_then_rising defaultParams)) 7 = 100%float
  /\ CalculateGreenArrow flat_then_rising defaultParams !! 7%nat
     = Some {| UpStop := 100%float; DownStop := (-1)%float;
               UpSignal := 100%float; DownSignal := (-1)%float;
               UpLine := 100%float; DownLine := EMPTY_VALUE;
               Trend := 1%Z; IsSignal := true |}
  /\ first_crossing_of_computed_band flat_then_rising defaultParams = Some 10%nat
  /\ (IsSignal <$> CalculateGreenArrow flat_then_rising defaultParams !! 10%nat)
     = Some false.
Proof. repeat split; vm_compute; reflexivity. Qed.

End IndicatorProofs.

(** * Proofs of the further properties *)

Module MachineProofs.
Import time candle AggregatorSpec MachineSpec.
Import AggregatorProofs.
Local Open Scope Z_scope.

Lemma max_ge (a b : Q) : (a <= max a b /\ b <= max a b)%Q.
Proof.
  unfold max. destruct (Qgtb a b) eqn:E.
  - apply ServicesProofs.Qgtb_gt in E. split; lra.
  - apply ServicesProofs.Qgtb_le in E. split; lra.
Qed.

Lemma min_le (a b : Q) : (min a b <= a /\ min a b <= b)%Q.
Proof.
  unfold min. destruct (Qltb a b) eqn:E.
  - apply ServicesProofs.Qltb_lt in E. split; lra.
  - apply ServicesProofs.Qltb_ge in E. split; lra.
Qed.

Lemma max_cases (a b : Q) : max a b = a \/ max a b = b.
Proof. unfold max. destruct (Qgtb a b); auto. Qed.

Lemma min_cases (a b : Q) : min a b = a \/ min a b = b.
Proof. unfold min. destruct (Qltb a b); auto. Qed.

(** ProcessTick, branch by branch. *)
Lemma ProcessTick_first t tick :
  currentCandle t = None ->
  ProcessTick t tick
  = (set_currentCandle t (Some (freshCandle t (window t tick) tick)),
     {| published := [ {| Status := "UPDATE";
                          EventCandle := freshCandle t (window t tick) tick |} ];
        logged := [] |}).
Proof. intros H. unfold ProcessTick. rewrite H. reflexivity. Qed.

Lemma ProcessTick_same t cur tick :
  currentCandle t = Some cur -> window t tick = StartTime cur ->
  ProcessTick t tick
  = (set_currentCandle t (Some (merged cur tick)),
     {| published := [ {| Status := "UPDATE"; EventCandle := merged cur tick |} ];
        logged := [] |}).
Proof.
  intros H E. unfold ProcessTick, window in *. rewrite H, E.
  unfold After, Equal. rewrite Z.ltb_irrefl, Z.eqb_refl. reflexivity.
Qed.

Lemma ProcessTick_late t cur tick :
  currentCandle t = Some cur -> window t tick < StartTime cur ->
  ProcessTick t tick
  = (t, {| published := [];
           logged := [ OutOfOrderTick (window t tick) (StartTime cur) ] |}).
Proof.
  intros H E. unfold ProcessTick, window in *. rewrite H.
  unfold After, Equal, Before.
  destruct (Z.ltb_spec (StartTime cur) (Truncate (Timestamp tick) (agg_Timeframe t))); [lia|].
  destruct (Z.eqb_spec (Truncate (Timestamp tick) (agg_Timeframe t)) (StartTime cur)); [lia|].
  destruct (Z.ltb_spec (Truncate (Timestamp tick) (agg_Timeframe t)) (StartTime cur)); [|lia].
  reflexivity.
Qed.

Lemma ProcessTick_later_state t cur tick :
  currentCandle t = Some cur -> StartTime cur < window t tick ->
  fst (ProcessTick t tick)
  = set_currentCandle t (Some (freshCandle t (window t tick) tick)).
Proof.
  intros H E. unfold ProcessTick, window in *. rewrite H.
  unfold After.
  destruct (Z.ltb_spec (StartTime cur) (Truncate (Timestamp tick) (agg_Timeframe t))); [|lia].
  reflexivity.
Qed.

Lemma wrap64_id (z : Z) : - 2 ^ 63 <= z < 2 ^ 63 -> wrap64 z = z.
Proof.
  intros H. unfold wrap64. rewrite Z.mod_small by lia. lia.
Qed.

Lemma total_volume_nonneg ticks :
  Forall (fun k => 0 <= tick_Volume k) ticks -> 0 <= total_volume ticks.
Proof.
  induction 1 as [|k ticks Hk _ IH]; cbn [total_volume foldr]; [lia|].
  fold (total_volume ticks). lia.
Qed.

(** Ticks of the window of the current bar, one after the other. *)
Lemma feed_same_window ticks : forall t cur,
  currentCandle t = Some cur ->
  Forall (fun k => window t k = StartTime cur) ticks ->
  Forall (fun k => 0 <= tick_Volume k) ticks ->
  0 <= Volume cur -> Volume cur + total_volume ticks < 2 ^ 63 ->
  exists c,
    currentCandle (fst (feed t ticks)) = Some c
    /\ StartTime c = StartTime cur /\ Symbol c = Symbol cur
    /\ Timeframe c = Timeframe cur /\ Open c = Open cur
    /\ Close c = default (Close cur) (Price <$> last ticks)
    /\ (High cur <= High c)%Q
    /\ Forall (fun k => (Price k <= High c)%Q) ticks
    /\ (High c = High cur \/ Exists (fun k => High c = Price k) ticks)
    /\ (Low c <= Low cur)%Q
    /\ Forall (fun k => (Low c <= Price k)%Q) ticks
    /\ (Low c = Low cur \/ Exists (fun k => Low c = Price k) ticks)
    /\ Volume c = Volume cur + total_volume ticks.
Proof.
  induction ticks as [|tick rest IH]; intros t cur Hcur Hwin Hvol Hv0 Hsum.
  - exists cur. cbn [feed fst last fmap option_fmap option_map default total_volume foldr].
    repeat split; auto; try lra; try lia.
  - apply Forall_cons in Hwin as [Hw Hwin]. apply Forall_cons in Hvol as [Hk Hvol].
    cbn [total_volume foldr] in Hsum. fold (total_volume rest) in Hsum.
    pose proof (total_volume_nonneg rest Hvol) as Hnn.
    cbn [feed]. rewrite (ProcessTick_same t cur tick Hcur Hw).
    destruct (IH (set_currentCandle t (Some (merged cur tick))) (merged cur tick))
      as (c & Hc & Hs & Hsy & Htf & Ho & Hcl & Hh1 & Hh2 & Hh3 & Hl1 & Hl2 & Hl3 & Hv);
      [reflexivity | exact Hwin | exact Hvol
       | cbn [merged Volume]; rewrite wrap64_id by lia; lia
       | cbn [merged Volume]; rewrite wrap64_id by lia; lia |].
    cbn [merged StartTime Symbol Timeframe Open Close High Low Volume] in *.
    rewrite wrap64_id in Hv by lia.
    destruct (feed (set_currentCandle t (Some (merged cur tick))) rest) as [t2 e2].
    cbn [fst] in *. exists c.
    pose proof (max_ge (High cur) (Price tick)) as [Hm1 Hm2].
    pose proof (min_le (Low cur) (Price tick)) as [Hn1 Hn2].
    split; [exact Hc|]. split; [exact Hs|]. split; [exact Hsy|]. split; [exact Htf|].
    split; [exact Ho|]. split.
    { rewrite Hcl. destruct rest as [|k rest']; [reflexivity|].
      rewrite !last_cons. destruct (last rest'); reflexivity. }
    split; [lra|]. split; [constructor; [lra | exact Hh2]|]. split.
    { destruct Hh3 as [Hh3|Hh3].
      - destruct (max_cases (High cur) (Price tick)) as [E|E]; rewrite E in Hh3.
        + left. exact Hh3.
        + right. constructor. exact Hh3.
      - right. apply Exists_cons_tl. exact Hh3. }
    split; [lra|]. split; [constructor; [lra | exact Hl2]|]. split.
    { destruct Hl3 as [Hl3|Hl3].
      - destruct (min_cases (Low cur) (Price tick)) as [E|E]; rewrite E in Hl3.
        + left. exact Hl3.
        + right. constructor. exact Hl3.
      - right. apply Exists_cons_tl. exact Hl3. }
    cbn [total_volume foldr]. fold (total_volume rest). lia.
Qed.

(** X1: a fresh timeframe machine fed ticks that all fall in one window
    (volumes non-negative, their sum below 2^63) holds one bar for that
    window: symbol and timeframe of the machine, start = the window, open =
    the first tick's price, close = the last tick's price, high and low =
    the largest and the smallest price among the ticks, volume = the sum of
    the tick volumes. *)
Theorem one_window_aggregation (t : TimeframeAggregator) (first : CleanTick)
  (rest : list CleanTick) :
  currentCandle t = None ->
  Forall (fun k => window t k = window t first) rest ->
  Forall (fun k => 0 <= tick_Volume k) (first :: rest) ->
  total_volume (first :: rest) < 2 ^ 63 ->
  exists c,
    currentCandle (fst (feed t (first :: rest))) = Some c
    /\ Symbol c = agg_Symbol t /\ Timeframe c = TfName t
    /\ StartTime c = window t first
    /\ Open c = Price first
    /\ Close c = Price (default first (last rest))
    /\ Forall (fun k => (Price k <= High c)%Q) (first :: rest)
    /\ Exists (fun k => High c = Price k) (first :: rest)
    /\ Forall (fun k => (Low c <= Price k)%Q) (first :: rest)
    /\ Exists (fun k => Low c = Price k) (first :: rest)
    /\ Volume c = total_volume (first :: rest).
Proof.
  intros Hnone Hwin Hvol Hsum.
  apply Forall_cons in Hvol as [Hk Hvol].
  cbn [total_volume foldr] in Hsum. fold (total_volume rest) in Hsum.
  cbn [feed]. rewrite (ProcessTick_first t first Hnone).
  destruct (feed_same_window rest
              (set_currentCandle t (Some (freshCandle t (window t first) first)))
              (freshCandle t (window t first) first))
    as (c & Hc & Hs & Hsy & Htf & Ho & Hcl & Hh1 & Hh2 & Hh3 & Hl1 & Hl2 & Hl3 & Hv);
    [reflexivity | exact Hwin | exact Hvol | exact Hk | exact Hsum |].
  cbn [freshCandle StartTime Symbol Timeframe Open Close High Low Volume] in *.
  destruct (feed _ rest) as [t2 e2]. cbn [fst] in *. exists c.
  split; [exact Hc|]. split; [exact Hsy|]. split; [exact Htf|]. split; [exact Hs|].
  split; [exact Ho|]. split.
  { rewrite Hcl. destruct (last rest); reflexivity. }
  split; [constructor; [exact Hh1 | exact Hh2]|]. split.
  { destruct Hh3 as [->|Hh3]; [constructor; reflexivity | apply Exists_cons_tl; exact Hh3]. }
  split; [constructor; [exact Hl1 | exact Hl2]|]. split.
  { destruct Hl3 as [->|Hl3]; [constructor; reflexivity | apply Exists_cons_tl; exact Hl3]. }
  cbn [total_volume foldr]. fold (total_volume rest). exact Hv.
Qed.

Lemma window_bounds t tick :
  0 < agg_Timeframe t ->
  window t tick <= Timestamp tick < window t tick + agg_Timeframe t.
Proof.
  intros HP. unfold window, Truncate.
  destruct (Z.leb_spec (agg_Timeframe t) 0); [lia|].
  pose proof (Z.mod_pos_bound (Timestamp tick) (agg_Timeframe t) HP). lia.
Qed.

(** The gap-fill bars of a step end before the window of the tick. *)
Lemma missed_bars_before_window t cur tick :
  0 < agg_Timeframe t -> StartTime cur < window t tick ->
  (Sub (window t tick) (StartTime cur) ÷ agg_Timeframe t) * agg_Timeframe t
  <= window t tick - StartTime cur.
Proof.
  intros HP Hlt.
  pose proof (Sub_after (window t tick) (StartTime cur) Hlt) as [Hpos Hle].
  rewrite Z.quot_div_nonneg by lia.
  pose proof (Z.mul_div_le (Sub (window t tick) (StartTime cur)) (agg_Timeframe t) HP).
  lia.
Qed.

Lemma ProcessTick_later_published t cur tick :
  currentCandle t = Some cur -> StartTime cur < window t tick ->
  published (snd (ProcessTick t tick))
  = (gapClose t cur
       <$> seqZ 1 (Sub (window t tick) (StartTime cur) ÷ agg_Timeframe t - 1))
    ++ [ {| Status := "CLOSE"; EventCandle := cur |};
         {| Status := "UPDATE"; EventCandle := freshCandle t (window t tick) tick |} ].
Proof. apply ProcessTick_new_bar_published. Qed.

(** One step of a machine that holds a bar. *)
Lemma ProcessTick_forward t cur tick :
  0 < agg_Timeframe t -> currentCandle t = Some cur ->
  exists cur',
    currentCandle (fst (ProcessTick t tick)) = Some cur'
    /\ StartTime cur <= StartTime cur'
    /\ Forall (fun e => StartTime cur <= StartTime (EventCandle e))
         (published (snd (ProcessTick t tick))).
Proof.
  intros HP Hcur.
  destruct (Z.lt_trichotomy (window t tick) (StartTime cur)) as [H|[H|H]].
  - rewrite (ProcessTick_late t cur tick Hcur H). exists cur. cbn. auto with lia.
  - rewrite (ProcessTick_same t cur tick Hcur H). exists (merged cur tick).
    cbn. repeat split; auto with lia. repeat constructor. cbn. lia.
  - exists (freshCandle t (window t tick) tick).
    rewrite (ProcessTick_later_state t cur tick Hcur H),
      (ProcessTick_later_published t cur tick Hcur H).
    cbn [currentCandle set_currentCandle freshCandle StartTime].
    split; [reflexivity|]. split; [lia|].
    apply Forall_app. split.
    + apply Forall_fmap, Forall_forall. intros i Hi.
      apply elem_of_seqZ in Hi. unfold compose. cbn.
      assert (0 <= i * agg_Timeframe t) by (apply Z.mul_nonneg_nonneg; lia). lia.
    + repeat constructor; cbn; lia.
Qed.

Lemma feed_forward (ticks : list CleanTick) : forall t cur,
  0 < agg_Timeframe t ->
  currentCandle t = Some cur ->
  (exists cur', currentCandle (fst (feed t ticks)) = Some cur'
                /\ StartTime cur <= StartTime cur')
  /\ Forall (fun e => StartTime cur <= StartTime (EventCandle e))
       (published (snd (feed t ticks)))
  /\ (Forall (fun k => window t k < StartTime cur) ticks ->
      fst (feed t ticks) = t /\ published (snd (feed t ticks)) = []).
Proof.
  induction ticks as [|tick rest IH]; intros t cur HP Hcur.
  - cbn. split; [eauto with lia|]. split; [constructor|]. auto.
  - cbn [feed].
    destruct (ProcessTick_forward t cur tick HP Hcur) as (c1 & Hc1 & Hle1 & Hall1).
    pose proof (ProcessTick_Timeframe t tick) as HT.
    pose proof (ProcessTick_late t cur tick Hcur) as Hlate.
    destruct (ProcessTick t tick) as [t1 e1]. cbn [fst snd] in *.
    destruct (IH t1 c1 ltac:(lia) Hc1) as ((c2 & Hc2 & Hle2) & Hall2 & Hlate2).
    destruct (feed t1 rest) as [t2 e2] eqn:E2. cbn [fst snd emit_app published] in *.
    split; [exists c2; split; [exact Hc2 | lia]|]. split.
    + apply Forall_app. split; [exact Hall1|].
      eapply Forall_impl; [exact Hall2|]. cbn. intros e He. lia.
    + intros Hl. apply Forall_cons in Hl as [Hl1 Hl].
      specialize (Hlate Hl1). inversion Hlate; subst t1 e1.
      assert (c1 = cur) by congruence. subst c1.
      destruct (Hlate2 Hl) as [-> ->]. auto.
Qed.

(** X2: a machine of positive period that holds a bar never goes back in
    time: after any ticks it still holds a bar, starting no earlier; no
    event it publishes is for a bar older than the one it held; and ticks
    that all fall before the held bar change nothing and publish nothing. *)
Theorem feed_never_goes_back (t : TimeframeAggregator) (cur : Candle)
  (ticks : list CleanTick) :
  0 < agg_Timeframe t ->
  currentCandle t = Some cur ->
  (exists cur', currentCandle (fst (feed t ticks)) = Some cur'
                /\ StartTime cur <= StartTime cur')
  /\ Forall (fun e => StartTime cur <= StartTime (EventCandle e))
       (published (snd (feed t ticks)))
  /\ (Forall (fun k => window t k < StartTime cur) ticks ->
      fst (feed t ticks) = t /\ published (snd (feed t ticks)) = []).
Proof. apply feed_forward. Qed.

(** X3: for a machine of positive period and a tick not older than the
    window of the held bar, the last event published is the UPDATE of the
    bar the machine holds afterwards; that bar closes at the tick's price,
    which lies between its low and its high, it starts at the tick's window,
    and the tick's timestamp lies in [start, start + period). *)
Theorem tick_updates_live_bar (t : TimeframeAggregator) (tick : CleanTick) :
  0 < agg_Timeframe t ->
  (forall cur, currentCandle t = Some cur -> StartTime cur <= window t tick) ->
  exists c,
    currentCandle (fst (ProcessTick t tick)) = Some c
    /\ last (published (snd (ProcessTick t tick)))
       = Some {| Status := "UPDATE"; EventCandle := c |}
    /\ Close c = Price tick
    /\ (Low c <= Price tick)%Q /\ (Price tick <= High c)%Q
    /\ StartTime c = window t tick
    /\ StartTime c <= Timestamp tick < StartTime c + agg_Timeframe t.
Proof.
  intros HP Hnot. pose proof (window_bounds t tick HP) as Hb.
  destruct (currentCandle t) as [cur|] eqn:Hcur.
  - specialize (Hnot cur eq_refl).
    destruct (Z.eq_dec (window t tick) (StartTime cur)) as [H|H].
    + rewrite (ProcessTick_same t cur tick Hcur H). exists (merged cur tick).
      pose proof (max_ge (High cur) (Price tick)) as [_ Hm].
      pose proof (min_le (Low cur) (Price tick)) as [_ Hn].
      cbn. repeat split; auto; lia.
    + assert (Hlt : StartTime cur < window t tick) by lia.
      exists (freshCandle t (window t tick) tick).
      rewrite (ProcessTick_later_state t cur tick Hcur Hlt),
        (ProcessTick_later_published t cur tick Hcur Hlt).
      split; [reflexivity|]. split.
      { rewrite last_app. reflexivity. }
      cbn. repeat split; try lra; lia.
  - rewrite (ProcessTick_first t tick Hcur).
    exists (freshCandle t (window t tick) tick).
    cbn. repeat split; try lra; lia.
Qed.

Lemma well_formed_valid (c : Candle) :
  well_formed c -> ws.valid_ohlc (hub_candle c) = true.
Proof.
  intros (H1 & H2 & H3 & H4). unfold ws.valid_ohlc, hub_candle. cbn.
  rewrite (proj2 (ServicesProofs.Qltb_ge (High c) (Low c))) by lra.
  rewrite (proj2 (ServicesProofs.Qltb_ge (High c) (Open c))) by lra.
  rewrite (proj2 (ServicesProofs.Qltb_ge (High c) (Close c))) by lra.
  rewrite (proj2 (ServicesProofs.Qgtb_le (Low c) (Open c))) by lra.
  rewrite (proj2 (ServicesProofs.Qgtb_le (Low c) (Close c))) by lra.
  reflexivity.
Qed.

Lemma well_formed_gapClose t cur i : well_formed (EventCandle (gapClose t cur i)).
Proof. unfold well_formed. cbn. repeat split; lra. Qed.

Lemma well_formed_fresh t w tick : well_formed (freshCandle t w tick).
Proof. unfold well_formed. cbn. repeat split; lra. Qed.

Lemma well_formed_merged cur tick : well_formed cur -> well_formed (merged cur tick).
Proof.
  intros (H1 & H2 & H3 & H4). unfold well_formed. cbn.
  pose proof (max_ge (High cur) (Price tick)) as [Hm1 Hm2].
  pose proof (min_le (Low cur) (Price tick)) as [Hn1 Hn2].
  repeat split; lra.
Qed.

Lemma ProcessTick_well_formed t tick :
  holds_well_formed t ->
  holds_well_formed (fst (ProcessTick t tick))
  /\ Forall (fun e => well_formed (EventCandle e)) (published (snd (ProcessTick t tick))).
Proof.
  intros Hinv0. destruct (currentCandle t) as [cur|] eqn:Hcur.
  - pose proof (Hinv0 cur Hcur) as Hinv.
    destruct (Z.lt_trichotomy (window t tick) (StartTime cur)) as [H|[H|H]].
    + rewrite (ProcessTick_late t cur tick Hcur H). cbn. split; [exact Hinv0|constructor].
    + rewrite (ProcessTick_same t cur tick Hcur H). cbn.
      pose proof (well_formed_merged cur tick Hinv) as Hm.
      split; [|constructor; [exact Hm | constructor]].
      intros c Hc. cbn in Hc. inversion Hc; subst. exact Hm.
    + rewrite (ProcessTick_later_state t cur tick Hcur H),
        (ProcessTick_later_published t cur tick Hcur H).
      split.
      * intros c Hc. cbn in Hc. inversion Hc; subst. apply well_formed_fresh.
      * apply Forall_app. split.
        -- apply Forall_fmap, Forall_forall. intros i _. apply well_formed_gapClose.
        -- constructor; [exact Hinv|]. constructor; [apply well_formed_fresh|constructor].
  - rewrite (ProcessTick_first t tick Hcur). cbn. split.
    + intros c Hc. cbn in Hc. inversion Hc; subst. apply well_formed_fresh.
    + constructor; [apply well_formed_fresh | constructor].
Qed.

(** X4: every bar a machine of positive period publishes (UPDATE, CLOSE or
    gap fill) has open and close between low and high, provided the bar it
    starts with has; so each passes the hub's OHLC validation and AddCandle
    never rejects it. *)
Theorem published_bars_pass_validation (t : TimeframeAggregator)
  (ticks : list CleanTick) :
  0 < agg_Timeframe t ->
  (forall cur, currentCandle t = Some cur -> well_formed cur) ->
  Forall (fun e => well_formed (EventCandle e)
                   /\ ws.valid_ohlc (hub_candle (EventCandle e)) = true)
    (published (snd (feed t ticks))).
Proof.
  revert t. induction ticks as [|tick rest IH]; intros t HP Hinv.
  - constructor.
  - cbn [feed].
    destruct (ProcessTick_well_formed t tick Hinv) as [Hinv1 Hall1].
    pose proof (ProcessTick_Timeframe t tick) as HT.
    destruct (ProcessTick t tick) as [t1 e1]. cbn [fst snd] in *.
    specialize (IH t1 ltac:(lia) Hinv1).
    destruct (feed t1 rest) as [t2 e2]. cbn [fst snd emit_app published] in *.
    apply Forall_app. split; [|exact IH].
    eapply Forall_impl; [exact Hall1|]. cbn. intros e He.
    split; [exact He | apply well_formed_valid; exact He].
Qed.

(** *** Every bar is closed once *)

Lemma closed_starts_app a b : closed_starts (a ++ b) = closed_starts a ++ closed_starts b.
Proof. unfold closed_starts. rewrite List.filter_app, fmap_app. reflexivity. Qed.

Lemma closed_starts_gap t cur m n :
  closed_starts (gapClose t cur <$> seqZ m n)
  = (fun i => StartTime cur + i * agg_Timeframe t) <$> seqZ m n.
Proof.
  unfold closed_starts. induction (seqZ m n) as [|i l IH]; [reflexivity|].
  cbn [fmap list_fmap List.filter]. cbn. f_equal. exact IH.
Qed.

(** The CLOSE events of one step: distinct starts, from the start of the
    bar held up to, and not including, the start of the bar held next. *)
Lemma ProcessTick_closed_starts t cur tick :
  0 < agg_Timeframe t -> currentCandle t = Some cur ->
  exists cur',
    currentCandle (fst (ProcessTick t tick)) = Some cur'
    /\ StartTime cur <= StartTime cur'
    /\ NoDup (closed_starts (published (snd (ProcessTick t tick))))
    /\ Forall (fun s => StartTime cur <= s < StartTime cur')
         (closed_starts (published (snd (ProcessTick t tick)))).
Proof.
  intros HP Hcur.
  destruct (Z.lt_trichotomy (window t tick) (StartTime cur)) as [H|[H|H]].
  - rewrite (ProcessTick_late t cur tick Hcur H). exists cur. cbn.
    repeat split; auto with lia; constructor.
  - rewrite (ProcessTick_same t cur tick Hcur H). exists (merged cur tick). cbn.
    repeat split; auto with lia; constructor.
  - exists (freshCandle t (window t tick) tick).
    rewrite (ProcessTick_later_state t cur tick Hcur H),
      (ProcessTick_later_published t cur tick Hcur H).
    pose proof (missed_bars_before_window t cur tick HP H) as Hm.
    set (m := Sub (window t tick) (StartTime cur) ÷ agg_Timeframe t) in *.
    rewrite closed_starts_app, closed_starts_gap.
    change (closed_starts [ {| Status := "CLOSE"; EventCandle := cur |};
                            {| Status := "UPDATE";
                               EventCandle := freshCandle t (window t tick) tick |} ])
      with [StartTime cur].
    cbn [currentCandle set_currentCandle freshCandle StartTime].
    split; [reflexivity|]. split; [lia|]. split.
    + apply NoDup_app. split; [|split].
      * apply NoDup_fmap_2_strong; [|apply NoDup_seqZ].
        intros i j _ _ E. apply (Z.mul_cancel_r i j (agg_Timeframe t)); lia.
      * intros s Hs Hs'. apply list_elem_of_singleton in Hs'. subst s.
        apply list_elem_of_fmap in Hs as (i & E & Hi). apply elem_of_seqZ in Hi.
        assert (0 < i * agg_Timeframe t) by (apply Z.mul_pos_pos; lia). lia.
      * apply NoDup_singleton.
    + apply Forall_app. split.
      * apply Forall_fmap, Forall_forall. intros i Hi. apply elem_of_seqZ in Hi.
        unfold compose.
        assert (0 <= i * agg_Timeframe t) by (apply Z.mul_nonneg_nonneg; lia).
        assert (i * agg_Timeframe t <= (m - 1) * agg_Timeframe t)
          by (apply Z.mul_le_mono_nonneg_r; lia).
        lia.
      * repeat constructor; lia.
Qed.

Lemma feed_closed_starts ticks : forall t cur,
  0 < agg_Timeframe t -> currentCandle t = Some cur ->
  NoDup (closed_starts (published (snd (feed t ticks))))
  /\ Forall (fun s => StartTime cur <= s) (closed_starts (published (snd (feed t ticks)))).
Proof.
  induction ticks as [|tick rest IH]; intros t cur HP Hcur.
  - cbn. split; constructor.
  - cbn [feed].
    destruct (ProcessTick_closed_starts t cur tick HP Hcur) as (c1 & Hc1 & Hle & Hnd & Hall).
    pose proof (ProcessTick_Timeframe t tick) as HT.
    destruct (ProcessTick t tick) as [t1 e1]. cbn [fst snd] in *.
    destruct (IH t1 c1 ltac:(lia) Hc1) as [Hnd2 Hall2].
    destruct (feed t1 rest) as [t2 e2]. cbn [fst snd emit_app published] in *.
    rewrite closed_starts_app. split.
    + apply NoDup_app. split; [exact Hnd|]. split; [|exact Hnd2].
      intros s Hs Hs'.
      rewrite Forall_forall in Hall, Hall2.
      specialize (Hall s Hs). specialize (Hall2 s Hs'). lia.
    + apply Forall_app. split.
      * eapply Forall_impl; [exact Hall|]. cbn. intros; lia.
      * eapply Forall_impl; [exact Hall2|]. cbn. intros; lia.
Qed.

Lemma fresh_feed_closed_starts (symbol tfName : string) (P : Z)
  (ticks : list CleanTick) :
  0 < P ->
  NoDup (closed_starts
           (published (snd (feed (NewTimeframeAggregator symbol tfName P) ticks)))).
Proof.
  intros HP. destruct ticks as [|tick rest]; [constructor|].
  cbn [feed]. rewrite ProcessTick_first by reflexivity.
  destruct (feed_closed_starts rest
              (set_currentCandle (NewTimeframeAggregator symbol tfName P)
                 (Some (freshCandle (NewTimeframeAggregator symbol tfName P)
                          (window (NewTimeframeAggregator symbol tfName P) tick) tick)))
              (freshCandle (NewTimeframeAggregator symbol tfName P)
                 (window (NewTimeframeAggregator symbol tfName P) tick) tick)
              HP eq_refl) as [Hnd _].
  destruct (feed _ rest) as [t2 e2]. cbn [fst snd emit_app published] in *.
  rewrite closed_starts_app. exact Hnd.
Qed.

(** X5: in the stream of a fresh machine of period P > 0 no start time is
    closed twice: the start times of the CLOSE events are pairwise distinct,
    and each is a multiple of P. *)
Theorem every_bar_closed_once (symbol tfName : string) (P : Z)
  (ticks : list CleanTick) :
  0 < P ->
  NoDup (closed_starts
           (published (snd (feed (NewTimeframeAggregator symbol tfName P) ticks))))
  /\ Forall (fun s => s mod P = 0)
       (closed_starts
          (published (snd (feed (NewTimeframeAggregator symbol tfName P) ticks)))).
Proof.
  intros HP. split; [apply fresh_feed_closed_starts; exact HP|].
  destruct (feed_shape ticks (NewTimeframeAggregator symbol tfName P) Idle HP eq_refl)
    as (_ & _ & Hmult).
  unfold closed_starts. apply Forall_fmap.
  apply Forall_forall. intros e He. apply list_elem_of_In, filter_In in He as [He _].
  rewrite Forall_forall in Hmult. apply (Hmult e). apply list_elem_of_In. exact He.
Qed.

(** *** From the stream to the table *)

Lemma Run_stream t (evs : list PublishEvent) : forall db,
  NoDup (closed_starts evs) ->
  (forall r s, r ∈ db -> s ∈ closed_starts evs -> dbwriter.StartTime r <> s) ->
  dbwriter.Run db (writer_message t <$> evs)
  = db ++ closed_rows evs.
Proof.
  induction evs as [|e evs IH]; intros db Hnd Hdis.
  - cbn. rewrite app_nil_r. reflexivity.
  - cbn [fmap list_fmap]. unfold dbwriter.Run. cbn [fold_left].
    fold (dbwriter.Run (fst (dbwriter.processMessage db (writer_message t e)))
            (writer_message t <$> evs)).
    unfold dbwriter.processMessage, dbwriter.ParseEvent, writer_message.
    cbn [dbwriter.Payload dbwriter.Status dbwriter.EventCandle].
    unfold closed_starts, closed_rows in *. cbn [List.filter] in *.
    unfold is_CLOSE at 1. unfold is_CLOSE at 1 in Hnd. unfold is_CLOSE at 1 in Hdis.
    destruct (String.eqb (Status e) "CLOSE") eqn:Es; cbn [negb fst].
    + cbn [fmap list_fmap] in Hnd, Hdis. apply NoDup_cons in Hnd as [Hnot Hnd].
      assert (Hnew : existsb (dbwriter.same_key (writer_row (EventCandle e))) db = false).
      { apply not_true_is_false. intros Hex. apply existsb_exists in Hex as (r & Hr & Hk).
        apply WriterProofs.same_key_spec in Hk as (_ & _ & Hk).
        apply (Hdis r (StartTime (EventCandle e))).
        - apply list_elem_of_In. exact Hr.
        - left.
        - cbn in Hk. congruence. }
      unfold dbwriter.insertKlineToDB. rewrite Hnew.
      rewrite IH; [|exact Hnd|].
      * cbn [fmap list_fmap]. rewrite <- app_assoc. reflexivity.
      * intros r s Hr Hs. apply elem_of_app in Hr as [Hr|Hr].
        -- apply (Hdis r s Hr). right. exact Hs.
        -- apply list_elem_of_singleton in Hr. subst r. cbn. congruence.
    + apply IH; [exact Hnd | exact Hdis].
Qed.

(** X6: the writer, started on an empty table and fed the events a fresh
    machine of positive period publishes on its channel, ends with exactly
    the rows of the CLOSE events, in the order they were published: one row
    per closed bar, none for an UPDATE, none skipped as a conflict. *)
Theorem writer_stores_closed_bars (symbol tfName : string) (P : Z)
  (ticks : list CleanTick) :
  0 < P ->
  let t := NewTimeframeAggregator symbol tfName P in
  dbwriter.Run [] (writer_message t <$> published (snd (feed t ticks)))
  = closed_rows (published (snd (feed t ticks))).
Proof.
  intros HP t.
  rewrite (Run_stream t _ []); [reflexivity | |].
  - apply fresh_feed_closed_starts. exact HP.
  - intros r s Hr. inversion Hr.
Qed.

(** *** The worker of a symbol *)

Lemma startSymbolWorker_feed (ticks : list CleanTick) : forall agg,
  Timeframes (startSymbolWorker agg ticks)
  = (fun tf => fst (feed tf ticks)) <$> Timeframes agg.
Proof.
  induction ticks as [|tick rest IH]; intros agg.
  - cbn. rewrite map_fmap_id. reflexivity.
  - change (startSymbolWorker agg (tick :: rest))
      with (startSymbolWorker (SymbolAggregator_ProcessTick agg tick) rest).
    rewrite IH. cbn [SymbolAggregator_ProcessTick Timeframes].
    rewrite <- map_fmap_compose. apply map_fmap_ext. intros name tf _.
    unfold compose. cbn [feed].
    destruct (ProcessTick tf tick) as [t1 e1]. cbn [fst].
    destruct (feed t1 rest) as [t2 e2]. reflexivity.
Qed.

Lemma ProcessTick_holds t tick : is_Some (currentCandle (fst (ProcessTick t tick))).
Proof.
  unfold ProcessTick. destruct (currentCandle t) as [cur|] eqn:E; [|cbn; eauto].
  repeat (match goal with |- context [if ?b then _ else _] => destruct b end);
    cbn [fst currentCandle set_currentCandle]; rewrite ?E; eauto.
Qed.

Lemma feed_holds (ticks : list CleanTick) : forall t,
  ticks <> [] -> is_Some (currentCandle (fst (feed t ticks))).
Proof.
  induction ticks as [|tick rest IH]; intros t Hne; [contradiction|].
  cbn [feed]. pose proof (ProcessTick_holds t tick) as H1.
  destruct (ProcessTick t tick) as [t1 e1]. cbn [fst] in *.
  destruct rest as [|k rest'].
  - cbn. exact H1.
  - specialize (IH t1 ltac:(discriminate)).
    destruct (feed t1 (k :: rest')) as [t2 e2]. exact IH.
Qed.

(** X7: a symbol's worker run on a queue of ticks keeps exactly the seven
    timeframes M1, M5, M15, M30, H1, H4 and D1, and each ends in the state
    its machine reaches when fed the same ticks alone; every period is
    positive, and each machine holds a bar once a tick was processed. *)
Theorem worker_aggregates_each_timeframe (symbol : string) (ticks : list CleanTick) :
  dom (Timeframes (startSymbolWorker (NewSymbolAggregator symbol) ticks))
  = list_to_set (fst <$> periods)
  /\ Forall (fun np =>
               Timeframes (startSymbolWorker (NewSymbolAggregator symbol) ticks) !! np.1
               = Some (fst (feed (NewTimeframeAggregator symbol np.1 np.2) ticks))
               /\ 0 < np.2
               /\ (ticks <> [] ->
                   is_Some (currentCandle
                              (fst (feed (NewTimeframeAggregator symbol np.1 np.2) ticks)))))
       periods.
Proof.
  rewrite startSymbolWorker_feed. split.
  - rewrite dom_fmap_L. unfold NewSymbolAggregator. cbn [Timeframes].
    rewrite !dom_insert_L, dom_empty_L. cbn. set_solver.
  - unfold periods.
    repeat (apply Forall_cons; split;
            [ cbn [fst snd]; split;
              [ rewrite lookup_fmap; unfold NewSymbolAggregator; cbn [Timeframes];
                repeat (rewrite lookup_insert_ne by discriminate);
                rewrite lookup_insert_eq; reflexivity
              | split; [reflexivity | apply feed_holds] ]
            | ]).
    constructor.
Qed.

(** *** The manager's queues *)

(** X8: HandleRawQuote on a frame that parses to a tick keeps aggregators
    and queues paired, creates the aggregator of a new symbol, leaves every
    other symbol's aggregator, queue and drop counter untouched, and does
    one of three things with the tick: it appends it to the symbol's queue
    when the queue has room; it appends it behind the rest when the queue
    was full and the worker took the oldest tick in time; otherwise it
    leaves the queue as it is and adds one to the symbol's drop counter. *)
Theorem HandleRawQuote_accounts_for_tick (m : AggregatorManager)
  (worker_received : bool) (quote : UpstreamQuote) (tick : CleanTick) :
  parseQuote quote = Ok tick ->
  let m' := fst (HandleRawQuote m worker_received quote) in
  let symbol := tick_Symbol tick in
  let queue := default [] (Channels m !! symbol) in
  (paired m -> paired m')
  /\ (Channels m !! symbol = None ->
      Aggregators m' !! symbol = Some (NewSymbolAggregator symbol))
  /\ (forall other, other <> symbol ->
      Aggregators m' !! other = Aggregators m !! other
      /\ Channels m' !! other = Channels m !! other
      /\ droppedTicks m' !! other = droppedTicks m !! other)
  /\ (((length queue < channelCapacity)%nat ->
       Channels m' !! symbol = Some (queue ++ [tick])
       /\ droppedTicks m' = droppedTicks m)
      /\ ((channelCapacity <= length queue)%nat -> worker_received = true ->
          Channels m' !! symbol = Some (tail queue ++ [tick])
          /\ droppedTicks m' = droppedTicks m)
      /\ ((channelCapacity <= length queue)%nat -> worker_received = false ->
          Channels m' !! symbol = Some queue
          /\ droppedTicks m' !! symbol
             = Some (wrap64 (default 0 (droppedTicks m !! symbol) + 1))
          /\ Aggregators m' = Aggregators m)).
Proof.
  intros Hparse. cbv zeta. unfold HandleRawQuote. rewrite Hparse. cbv zeta.
  remember (tick_Symbol tick) as symbol eqn:Es. clear Es.
  destruct (Channels m !! symbol) as [ch|] eqn:Ech; cbn [from_option id].
  - (* a symbol with a worker *)
    destruct (Nat.ltb_spec (length ch) channelCapacity) as [Hroom|Hfull];
      [|destruct worker_received];
      cbn [fst]; cbn [Aggregators Channels droppedTicks].
    + split.
      { intros Hp s. cbn [Aggregators Channels]. rewrite (Hp s). destruct (decide (s = symbol)) as [->|Hne].
        - rewrite lookup_insert_eq, Ech. split; eauto.
        - rewrite lookup_insert_ne by congruence. reflexivity. }
      split; [discriminate|]. split.
      { intros other Hne. rewrite lookup_insert_ne by congruence. auto. }
      split; [intros _; rewrite lookup_insert_eq; auto|].
      split; intros; lia.
    + split.
      { intros Hp s. cbn [Aggregators Channels]. rewrite (Hp s). destruct (decide (s = symbol)) as [->|Hne].
        - rewrite lookup_insert_eq, Ech. split; eauto.
        - rewrite lookup_insert_ne by congruence. reflexivity. }
      split; [discriminate|]. split.
      { intros other Hne. rewrite lookup_insert_ne by congruence. auto. }
      split; [intros; lia|].
      split; [intros _ _; rewrite lookup_insert_eq; auto | discriminate].
    + split; [auto|]. split; [discriminate|]. split.
      { intros other Hne. rewrite lookup_insert_ne by congruence. auto. }
      split; [intros; lia|]. split; [discriminate|].
      intros _ _. rewrite lookup_insert_eq. auto.
  - (* a new symbol: its queue is empty *)
    cbn [length]. change (0 <? channelCapacity)%nat with true.
    cbn [fst]; cbn [Aggregators Channels droppedTicks]. split.
    { intros Hp s. cbn [Aggregators Channels].
      destruct (decide (s = symbol)) as [->|Hne].
      - rewrite !lookup_insert_eq. split; eauto.
      - rewrite !lookup_insert_ne by congruence. apply Hp. }
    split; [intros _; apply lookup_insert_eq|]. split.
    { intros other Hne. rewrite !lookup_insert_ne by congruence. auto. }
    split; [intros _; rewrite lookup_insert_eq; auto|].
    unfold channelCapacity. split; intros; lia.
Qed.

(** *** The theorems at the ticks of 2025-11-24 *)

Lemma one_window_aggregation_witness :
  exists c,
    currentCandle
      (fst (feed (NewTimeframeAggregator "XAUUSD" "M1" Minute)
              [ tick_at "2025-11-24T10:00:15" 2650; tick_at "2025-11-24T10:00:45" 2655 ]))
    = Some c
    /\ Open c = 2650%Q /\ Close c = 2655%Q /\ Volume c = 2.
Proof.
  destruct (one_window_aggregation (NewTimeframeAggregator "XAUUSD" "M1" Minute)
              (tick_at "2025-11-24T10:00:15" 2650)
              [ tick_at "2025-11-24T10:00:45" 2655 ])
    as (c & Hc & _ & _ & _ & Ho & Hcl & _ & _ & _ & _ & Hv).
  - reflexivity.
  - constructor; [vm_compute; reflexivity | constructor].
  - repeat constructor; vm_compute; discriminate.
  - vm_compute. reflexivity.
  - exists c. split; [exact Hc|]. split; [exact Ho|]. split; [exact Hcl | exact Hv].
Defined.

Lemma feed_never_goes_back_witness :
  Forall (fun e => StartTime minute_bar <= StartTime (EventCandle e))
    (published (snd (feed minute_machine gap_ticks))).
Proof.
  destruct (feed_never_goes_back minute_machine minute_bar gap_ticks) as (_ & H & _).
  - reflexivity.
  - reflexivity.
  - exact H.
Defined.

Lemma tick_updates_live_bar_witness :
  exists c,
    currentCandle (fst (ProcessTick minute_machine (tick_at "2025-11-24T10:03:10" 2660)))
    = Some c
    /\ Close c = 2660%Q.
Proof.
  destruct (tick_updates_live_bar minute_machine (tick_at "2025-11-24T10:03:10" 2660))
    as (c & Hc & _ & Hcl & _).
  - reflexivity.
  - intros cur Hcur. injection Hcur as <-. vm_compute. discriminate.
  - exists c. split; [exact Hc | exact Hcl].
Defined.

Lemma published_bars_pass_validation_witness :
  Forall (fun e => well_formed (EventCandle e)
                   /\ ws.valid_ohlc (hub_candle (EventCandle e)) = true)
    (published (snd (feed (NewTimeframeAggregator "XAUUSD" "M1" Minute) gap_ticks))).
Proof.
  apply (published_bars_pass_validation (NewTimeframeAggregator "XAUUSD" "M1" Minute)
           gap_ticks).
  - reflexivity.
  - intros cur Hcur. discriminate Hcur.
Defined.

Lemma every_bar_closed_once_witness :
  NoDup (closed_starts
           (published (snd (feed (NewTimeframeAggregator "XAUUSD" "M1" Minute) gap_ticks))))
  /\ Forall (fun s => s mod Minute = 0)
       (closed_starts
          (published (snd (feed (NewTimeframeAggregator "XAUUSD" "M1" Minute) gap_ticks)))).
Proof. apply (every_bar_closed_once "XAUUSD" "M1" Minute gap_ticks). reflexivity. Defined.

Lemma writer_stores_closed_bars_witness :
  dbwriter.Run []
    (writer_message (NewTimeframeAggregator "XAUUSD" "M1" Minute)
       <$> published (snd (feed (NewTimeframeAggregator "XAUUSD" "M1" Minute) gap_ticks)))
  = closed_rows
      (published (snd (feed (NewTimeframeAggregator "XAUUSD" "M1" Minute) gap_ticks))).
Proof. apply (writer_stores_closed_bars "XAUUSD" "M1" Minute gap_ticks). reflexivity. Defined.

Lemma HandleRawQuote_accounts_for_tick_witness :
  Channels (fst (HandleRawQuote ParserSpec.empty_manager false
                   (ParserSpec.quote_of "Quote" "XAUUSD.s" "2025-11-24T10:00:15" 2650)))
    !! "XAUUSD"
  = Some [ tick_at "2025-11-24T10:00:15" 2650 ].
Proof.
  destruct (HandleRawQuote_accounts_for_tick ParserSpec.empty_manager false
              (ParserSpec.quote_of "Quote" "XAUUSD.s" "2025-11-24T10:00:15" 2650)
              (tick_at "2025-11-24T10:00:15" 2650))
    as (_ & _ & _ & H & _).
  - vm_compute. reflexivity.
  - destruct H as [H _].
    + vm_compute. lia.
    + exact H.
Defined.

End MachineProofs.

Module ClockProofs.
Import time candle ParserSpec ClockSpec.
Local Open Scope Z_scope.

Lemma digitChar_digit (k : Z) :
  0 <= k <= 9 -> isDigit (digitChar k) = true /\ digit (digitChar k) = k.
Proof.
  intros H.
  assert (E : k = 0 \/ k = 1 \/ k = 2 \/ k = 3 \/ k = 4 \/ k = 5 \/ k = 6 \/ k = 7
              \/ k = 8 \/ k = 9) by lia.
  repeat (destruct E as [->|E]; [split; reflexivity|]). subst. split; reflexivity.
Qed.

Lemma getnum_two (n : Z) (rest : string) (fixed : bool) :
  0 <= n < 100 ->
  getnum (String (digitChar (n / 10)) (String (digitChar (n mod 10)) rest)) fixed
  = Some (n, rest).
Proof.
  intros H.
  assert (H1 : 0 <= n / 10 <= 9) by (Z.div_mod_to_equations; lia).
  assert (H2 : 0 <= n mod 10 <= 9) by (Z.div_mod_to_equations; lia).
  destruct (digitChar_digit _ H1) as [Ea Da], (digitChar_digit _ H2) as [Eb Db].
  unfold getnum. rewrite Ea, Eb, Da, Db. do 2 f_equal.
  Z.div_mod_to_equations; lia.
Qed.

Lemma getyear_four (n : Z) (rest : string) :
  0 <= n <= 9999 ->
  getyear (String (digitChar (n / 1000))
             (String (digitChar (n / 100 mod 10))
                (String (digitChar (n / 10 mod 10))
                   (String (digitChar (n mod 10)) rest))))
  = Some (n, rest).
Proof.
  intros H.
  assert (H1 : 0 <= n / 1000 <= 9) by (Z.div_mod_to_equations; lia).
  assert (H2 : 0 <= n / 100 mod 10 <= 9) by (Z.div_mod_to_equations; lia).
  assert (H3 : 0 <= n / 10 mod 10 <= 9) by (Z.div_mod_to_equations; lia).
  assert (H4 : 0 <= n mod 10 <= 9) by (Z.div_mod_to_equations; lia).
  destruct (digitChar_digit _ H1) as [Ea Da], (digitChar_digit _ H2) as [Eb Db],
    (digitChar_digit _ H3) as [Ec Dc], (digitChar_digit _ H4) as [Ed Dd].
  unfold getyear. rewrite Ea, Eb, Ec, Ed, Da, Db, Dc, Dd. cbn [andb]. do 2 f_equal.
  clear - H. Z.div_mod_to_equations; lia.
Qed.

Lemma check_true (b : bool) : b = true -> check b = Some tt.
Proof. intros ->. reflexivity. Qed.

Lemma ParseInLocation_stamp (year month day hour min sec : Z) :
  0 <= year <= 9999 -> 1 <= month <= 12 -> 1 <= day <= daysIn month year ->
  0 <= hour < 24 -> 0 <= min < 60 -> 0 <= sec < 60 ->
  ParseInLocation (stamp year month day hour min sec)
  = Some (Date year month day hour min sec 0).
Proof.
  intros Hy Hmo Hd Hh Hmi Hs.
  assert (Hd' : day < 100).
  { unfold daysIn in Hd.
    repeat (match type of Hd with context [if ?b then _ else _] => destruct b end); lia. }
  change (stamp year month day hour min sec)
    with (String (digitChar (year / 1000))
            (String (digitChar (year / 100 mod 10))
               (String (digitChar (year / 10 mod 10))
                  (String (digitChar (year mod 10))
   (String "-" (String (digitChar (month / 10)) (String (digitChar (month mod 10))
   (String "-" (String (digitChar (day / 10)) (String (digitChar (day mod 10))
   (String "T" (String (digitChar (hour / 10)) (String (digitChar (hour mod 10))
   (String ":" (String (digitChar (min / 10)) (String (digitChar (min mod 10))
   (String ":" (String (digitChar (sec / 10)) (String (digitChar (sec mod 10))
      ""))))))))))))))))))).
  unfold ParseInLocation.
  rewrite getyear_four by lia. cbn [mbind option_bind skip Ascii.eqb Bool.eqb].
  rewrite getnum_two by lia. cbn [mbind option_bind].
  rewrite (check_true ((0 <? month) && (month <=? 12))) by lia.
  cbn [mbind option_bind skip Ascii.eqb Bool.eqb].
  rewrite getnum_two by lia. cbn [mbind option_bind skip Ascii.eqb Bool.eqb].
  rewrite getnum_two by lia. cbn [mbind option_bind].
  rewrite (check_true (hour <? 24)) by lia.
  cbn [mbind option_bind skip Ascii.eqb Bool.eqb].
  rewrite getnum_two by lia. cbn [mbind option_bind].
  rewrite (check_true (min <? 60)) by lia.
  cbn [mbind option_bind skip Ascii.eqb Bool.eqb].
  rewrite getnum_two by lia. cbn [mbind option_bind].
  rewrite (check_true (sec <? 60)) by lia.
  cbn [mbind option_bind fraction String.eqb check].
  rewrite (check_true ((1 <=? day) && (day <=? daysIn month year))) by lia.
  reflexivity.
Qed.

(** X9: every well-formed timestamp in the upstream layout YYYY-MM-
    DDTHH:MM:SS (year 0..9999, month 1..12, a day of that month, hour,
    minute and second in range) is accepted by parseQuote: the tick carries
    that instant (UTC), its price is the bid, and HandleRawQuote then has a
    queue for the tick's symbol. *)
Theorem upstream_timestamps_accepted (symbol : string) (bid : Q)
  (year month day hour min sec : Z) :
  0 <= year <= 9999 -> 1 <= month <= 12 -> 1 <= day <= daysIn month year ->
  0 <= hour < 24 -> 0 <= min < 60 -> 0 <= sec < 60 ->
  exists tick,
    parseQuote (quote_of "Quote" symbol (stamp year month day hour min sec) bid) = Ok tick
    /\ Timestamp tick = Date year month day hour min sec 0
    /\ Price tick = bid
    /\ forall m worker_received,
         Channels (fst (HandleRawQuote m worker_received
                          (quote_of "Quote" symbol (stamp year month day hour min sec) bid)))
           !! tick_Symbol tick <> None.
Proof.
  intros Hy Hmo Hd Hh Hmi Hs.
  pose proof (ParseInLocation_stamp year month day hour min sec Hy Hmo Hd Hh Hmi Hs) as E.
  unfold parseQuote, quote_of. cbn [Type_ Args arg_Time arg_Symbol Bid].
  rewrite E. cbn [String.eqb Ascii.eqb Bool.eqb negb].
  eexists. split; [reflexivity|]. cbn [Timestamp Price tick_Symbol].
  split; [reflexivity|]. split; [reflexivity|].
  intros m worker_received. unfold HandleRawQuote, parseQuote.
  cbn [Type_ Args arg_Time arg_Symbol Bid]. rewrite E.
  cbn [String.eqb Ascii.eqb Bool.eqb negb tick_Symbol].
  set (sym := if Contains symbol "." then SplitN_head symbol "." else symbol).
  destruct (Channels m !! sym) as [ch|] eqn:Ech.
  - destruct (length ch <? channelCapacity)%nat; [|destruct worker_received];
      cbn [fst Channels]; rewrite ?lookup_insert_eq, ?Ech; discriminate.
  - cbn [length]. change (0 <? channelCapacity)%nat with true.
    cbn [fst Channels]. rewrite lookup_insert_eq. discriminate.
Qed.

(** Rounding down a time that is [r] past a multiple of the period. *)
Lemma Truncate_offset (a r P : Z) :
  0 <= r < P -> Truncate (a * P + r) P = a * P.
Proof.
  intros H. unfold Truncate. destruct (Z.leb_spec P 0); [lia|].
  rewrite Z.add_comm, Z_mod_plus_full, Z.mod_small by lia. lia.
Qed.

Lemma Truncate_at (t P a r : Z) :
  t = a * P + r /\ 0 <= r < P -> Truncate t P = a * P.
Proof. intros [-> H]. apply Truncate_offset. exact H. Qed.

Lemma opens_fresh symbol tfName P tick :
  opens (NewTimeframeAggregator symbol tfName P) tick
  = Some (Truncate (Timestamp tick) P).
Proof. reflexivity. Qed.

(** X10: the first bar of each of the seven timeframes starts on the wall
    clock (UTC): for a tick at hour:min:sec of a day, M1 starts at
    hour:min:00, M5, M15 and M30 at the minute rounded down to a multiple of
    5, 15 and 30, H1 at hour:00, H4 at the hour rounded down to a multiple
    of 4, and D1 at midnight. *)
Theorem bars_start_on_the_clock (symbol : string) (tick : CleanTick)
  (year month day hour min sec : Z) :
  0 <= hour < 24 -> 0 <= min < 60 -> 0 <= sec < 60 ->
  Timestamp tick = Date year month day hour min sec 0 ->
  opens (NewTimeframeAggregator symbol "M1" Minute) tick
  = Some (Date year month day hour min 0 0)
  /\ opens (NewTimeframeAggregator symbol "M5" (5 * Minute)) tick
     = Some (Date year month day hour (min - min mod 5) 0 0)
  /\ opens (NewTimeframeAggregator symbol "M15" (15 * Minute)) tick
     = Some (Date year month day hour (min - min mod 15) 0 0)
  /\ opens (NewTimeframeAggregator symbol "M30" (30 * Minute)) tick
     = Some (Date year month day hour (min - min mod 30) 0 0)
  /\ opens (NewTimeframeAggregator symbol "H1" Hour) tick
     = Some (Date year month day hour 0 0 0)
  /\ opens (NewTimeframeAggregator symbol "H4" (4 * Hour)) tick
     = Some (Date year month day (hour - hour mod 4) 0 0 0)
  /\ opens (NewTimeframeAggregator symbol "D1" (24 * Hour)) tick
     = Some (Date year month day 0 0 0 0).
Proof.
  intros Hh Hmi Hs Ht. rewrite !opens_fresh, Ht.
  unfold Date, Hour, Minute, Second.
  set (D := daysSinceZero year + daysBefore month year + (day - 1)).
  clearbody D.
  rewrite (Truncate_at _ (60 * 1000000000) ((D * 24 + hour) * 60 + min)
             (sec * 1000000000)) by lia.
  rewrite (Truncate_at _ (5 * (60 * 1000000000)) ((D * 24 + hour) * 12 + min / 5)
             ((min mod 5 * 60 + sec) * 1000000000))
    by (Z.div_mod_to_equations; lia).
  rewrite (Truncate_at _ (15 * (60 * 1000000000)) ((D * 24 + hour) * 4 + min / 15)
             ((min mod 15 * 60 + sec) * 1000000000))
    by (Z.div_mod_to_equations; lia).
  rewrite (Truncate_at _ (30 * (60 * 1000000000)) ((D * 24 + hour) * 2 + min / 30)
             ((min mod 30 * 60 + sec) * 1000000000))
    by (Z.div_mod_to_equations; lia).
  rewrite (Truncate_at _ (60 * (60 * 1000000000)) (D * 24 + hour)
             ((min * 60 + sec) * 1000000000)) by lia.
  rewrite (Truncate_at _ (4 * (60 * (60 * 1000000000))) (D * 6 + hour / 4)
             (((hour mod 4 * 60 + min) * 60 + sec) * 1000000000))
    by (Z.div_mod_to_equations; lia).
  rewrite (Truncate_at _ (24 * (60 * (60 * 1000000000))) D
             (((hour * 60 + min) * 60 + sec) * 1000000000)) by lia.
  repeat split; f_equal; Z.div_mod_to_equations; lia.
Qed.

Lemma upstream_timestamps_accepted_witness :
  exists tick,
    parseQuote (quote_of "Quote" "XAUUSD.s" (stamp 2025 11 24 10 0 15) 2650) = Ok tick
    /\ Timestamp tick = Date 2025 11 24 10 0 15 0.
Proof.
  destruct (upstream_timestamps_accepted "XAUUSD.s" 2650 2025 11 24 10 0 15)
    as (tick & Hp & Ht & _); try lia.
  - vm_compute. split; discriminate.
  - exists tick. split; [exact Hp | exact Ht].
Defined.

Lemma bars_start_on_the_clock_witness :
  opens (NewTimeframeAggregator "XAUUSD" "M5" (5 * Minute))
    (AggregatorSpec.tick_at "2025-11-24T10:03:10" 2660)
  = Some (Date 2025 11 24 10 0 0 0).
Proof.
  destruct (bars_start_on_the_clock "XAUUSD"
              (AggregatorSpec.tick_at "2025-11-24T10:03:10" 2660) 2025 11 24 10 3 10)
    as (_ & H & _); try lia.
  - vm_compute. reflexivity.
  - exact H.
Defined.

End ClockProofs.

Module ChannelProofs.
Import ws BufferSpec HubSpec ChannelSpec StringFacts.


Lemma joined_without (ptr : positive) (s : gset positive) :
  ptr ∉ s -> ({[ ptr ]} ∪ s) ∖ {[ ptr ]} = s.
Proof.
  intros H. apply set_eq. intros x. set_unfold. split; [tauto|].
  intros Hx. split; [auto|]. intros ->. contradiction.
Qed.

Lemma singleton_apart (ptr : positive) (s : gset positive) : ptr ∉ s -> {[ ptr ]} ## s.
Proof. intros H. set_unfold. intros x -> ?. contradiction. Qed.

Lemma joined_not_empty (ptr : positive) (s : gset positive) : {[ ptr ]} ∪ s <> ∅.
Proof.
  intros H. assert (Hin : ptr ∈ ({[ ptr ]} ∪ s)) by (set_unfold; auto).
  rewrite H in Hin. set_unfold. exact Hin.
Qed.



Lemma Subscriptions_Subscribe h ptr client channel :
  Subscriptions (Subscribe h ptr client channel).1.1
  = <[channel := {[ ptr ]} ∪ subscribers h channel]> (Subscriptions h).
Proof.
  unfold Subscribe. destruct (sendSnapshot _ client channel). reflexivity.
Qed.

Lemma indicatorManager_Subscribe h ptr client channel :
  indicatorManager (Subscribe h ptr client channel).1.1 = indicatorManager h.
Proof.
  unfold Subscribe. destruct (sendSnapshot _ client channel). reflexivity.
Qed.

Lemma Unsubscribe_stranger h ptr channel :
  no_empty_channel h -> ptr ∉ subscribers h channel -> Unsubscribe h ptr channel = h.
Proof.
  intros Hinv Hnot. unfold Unsubscribe. unfold subscribers in Hnot.
  destruct h as [subs mgr]. cbn [Subscriptions indicatorManager] in *.
  destruct (subs !! channel) as [s|] eqn:E; [|reflexivity].
  cbn [from_option id] in Hnot.
  assert (Es : s ∖ {[ ptr ]} = s).
  { apply set_eq. intros x. set_unfold. split; [tauto|].
    intros Hx. split; [exact Hx|]. intros ->. contradiction. }
  rewrite Es. destruct (Nat.eqb_spec (size s) 0) as [Hz|Hnz].
  - apply size_empty_iff, leibniz_equiv_iff in Hz. exfalso. exact (Hinv channel s E Hz).
  - f_equal. apply insert_id. exact E.
Qed.

(** X11: on a hub whose map has no channel without a client, subscribing a
    client that is not yet on a channel adds it (the subscriber count of the
    channel goes up by one), and Unsubscribe then gives back the hub as it
    was, buffers included; Unsubscribe of a client that is not subscribed
    changes nothing. *)
Theorem subscribe_unsubscribe_round_trip (h : Hub) (ptr : positive) (client : Client)
  (channel : string) :
  no_empty_channel h ->
  ptr ∉ subscribers h channel ->
  let joined := (Subscribe h ptr client channel).1.1 in
  ptr ∈ subscribers joined channel
  /\ no_empty_channel joined
  /\ getSubscriberCount joined channel = S (getSubscriberCount h channel)
  /\ Unsubscribe joined ptr channel = h
  /\ Unsubscribe h ptr channel = h.
Proof.
  intros Hinv Hnot joined.
  pose proof (Subscriptions_Subscribe h ptr client channel) as ES.
  pose proof (indicatorManager_Subscribe h ptr client channel) as EM.
  fold joined in ES, EM.
  assert (Hsub : subscribers joined channel = {[ ptr ]} ∪ subscribers h channel).
  { unfold subscribers at 1. rewrite ES, lookup_insert_eq. reflexivity. }
  split; [rewrite Hsub; set_unfold; auto|].
  split; [|split; [|split; [|apply Unsubscribe_stranger; assumption]]].
  - intros ch s. rewrite ES. destruct (decide (ch = channel)) as [->|Hne].
    + rewrite lookup_insert_eq. intros H. inversion H. apply joined_not_empty.
    + rewrite lookup_insert_ne by congruence. apply Hinv.
  - unfold getSubscriberCount. rewrite ES, lookup_insert_eq.
    rewrite size_union by (apply singleton_apart; exact Hnot). rewrite size_singleton.
    unfold subscribers. destruct (Subscriptions h !! channel); cbn; [reflexivity|].
    rewrite size_empty. reflexivity.
  - unfold Unsubscribe. rewrite ES, lookup_insert_eq.
    assert (Hback : ({[ptr]} ∪ subscribers h channel) ∖ {[ptr]} = subscribers h channel)
      by (apply joined_without; exact Hnot).
    rewrite Hback. destruct h as [subs mgr]. cbn [Subscriptions indicatorManager] in *.
    rewrite EM. f_equal.
    unfold subscribers in *. cbn [Subscriptions] in *.
    destruct (subs !! channel) as [s|] eqn:E; cbn [from_option id] in *.
    + destruct (Nat.eqb_spec (size s) 0) as [Hz|Hnz].
      * apply size_empty_iff, leibniz_equiv_iff in Hz. exfalso. exact (Hinv channel s E Hz).
      * rewrite insert_insert_eq. apply insert_id. exact E.
    + rewrite size_empty. cbn. apply delete_insert_id. exact E.
Qed.



(** *** Broadcast *)

Lemma forwardTo_fold (payload : SnapshotMessage) (l : list positive) :
  NoDup l ->
  forall (clients : gmap positive Client) (log : list ForwardLog),
    (forall ptr,
       (fold_left (forwardTo payload) l (clients, log)).1 !! ptr
       = if decide (ptr ∈ l) then offered payload <$> clients !! ptr
         else clients !! ptr)
    /\ (forall q,
          ClientSendBufferFull q ∈ (fold_left (forwardTo payload) l (clients, log)).2
          <-> ClientSendBufferFull q ∈ log
              \/ (q ∈ l /\ exists c, clients !! q = Some c
                                     /\ (Send_capacity c <= length (Send c))%nat)).
Proof.
  induction 1 as [|x l Hx Hnd IH]; intros clients log.
  - cbn. split.
    + intros ptr. destruct (decide (ptr ∈ [])) as [Hin|_]; [|reflexivity].
      apply elem_of_nil in Hin. contradiction.
    + intros q. split; [auto|]. intros [Hq|[Hq _]]; [exact Hq|].
      apply elem_of_nil in Hq. contradiction.
  - cbn [fold_left].
    assert (Hstep : exists clients1 log1,
               forwardTo payload (clients, log) x = (clients1, log1)
               /\ (forall ptr, clients1 !! ptr
                               = if decide (ptr = x) then offered payload <$> clients !! ptr
                                 else clients !! ptr)
               /\ (forall q, ClientSendBufferFull q ∈ log1
                             <-> ClientSendBufferFull q ∈ log
                                 \/ (q = x /\ exists c, clients !! q = Some c
                                        /\ (Send_capacity c <= length (Send c))%nat))).
    { unfold forwardTo. cbn [fst snd].
      destruct (clients !! x) as [c|] eqn:Ec.
      - destruct (Nat.ltb_spec (length (Send c)) (Send_capacity c)) as [Hroom|Hfull].
        + eexists _, _. split; [reflexivity|]. split.
          * intros ptr. destruct (decide (ptr = x)) as [->|Hne].
            -- rewrite lookup_insert_eq, Ec. cbn. unfold offered.
               destruct (Nat.ltb_spec (length (Send c)) (Send_capacity c)); [reflexivity|lia].
            -- rewrite lookup_insert_ne by congruence. reflexivity.
          * intros q. split; [auto|]. intros [Hq|(-> & c' & Hc' & Hfull)]; [exact Hq|].
            rewrite Ec in Hc'. inversion Hc'; subst. lia.
        + eexists _, _. split; [reflexivity|]. split.
          * intros ptr. destruct (decide (ptr = x)) as [->|Hne]; [|reflexivity].
            rewrite Ec. cbn. unfold offered.
            destruct (Nat.ltb_spec (length (Send c)) (Send_capacity c)); [lia|reflexivity].
          * intros q. rewrite elem_of_app, list_elem_of_singleton. split.
            -- intros [Hq|Hq]; [auto|]. inversion Hq; subst. right. eauto.
            -- intros [Hq|(-> & _)]; auto.
      - eexists _, _. split; [reflexivity|]. split.
        + intros ptr. destruct (decide (ptr = x)) as [->|Hne]; [|reflexivity].
          rewrite Ec. reflexivity.
        + intros q. split; [auto|]. intros [Hq|(-> & c' & Hc' & _)]; [exact Hq|].
          rewrite Ec in Hc'. discriminate. }
    destruct Hstep as (clients1 & log1 & -> & Hc1 & Hl1).
    destruct (IH clients1 log1) as [IHc IHl]. split.
    + intros ptr. rewrite IHc, Hc1.
      destruct (decide (ptr = x)) as [->|Hne].
      * destruct (decide (x ∈ l)) as [Hin|_]; [contradiction|].
        destruct (decide (x ∈ x :: l)) as [_|Hout]; [reflexivity|].
        exfalso. apply Hout. left.
      * destruct (decide (ptr ∈ l)) as [Hin|Hout];
          destruct (decide (ptr ∈ x :: l)) as [Hin'|Hout']; try reflexivity.
        -- exfalso. apply Hout'. right. exact Hin.
        -- apply elem_of_cons in Hin' as [?|?]; contradiction.
    + intros q. rewrite IHl, Hl1, Hc1, elem_of_cons.
      destruct (decide (q = x)) as [->|Hne].
      * split.
        -- intros [[Hq|Hq]|[Hq _]]; [auto | right; split; [auto|tauto] | contradiction].
        -- intros [Hq|[_ Hq]]; [auto|]. left. right. auto.
      * split.
        -- intros [[Hq|[Hq _]]|[Hq Hc]]; [auto | contradiction | right; auto].
        -- intros [Hq|[[Hq|Hq] Hc]]; [auto | contradiction | right; auto].
Qed.

Lemma forwardMessage_queues (h : Hub) (clients : gmap positive Client)
  (channel : string) (payload : SnapshotMessage) :
  (forall ptr,
     (forwardMessage h clients channel payload).1 !! ptr
     = if decide (ptr ∈ subscribers h channel) then offered payload <$> clients !! ptr
       else clients !! ptr)
  /\ (forall q,
        ClientSendBufferFull q ∈ (forwardMessage h clients channel payload).2
        <-> q ∈ subscribers h channel
            /\ exists c, clients !! q = Some c
                         /\ (Send_capacity c <= length (Send c))%nat).
Proof.
  unfold forwardMessage, subscribers.
  destruct (Subscriptions h !! channel) as [s|]; cbn [from_option id fst snd].
  - destruct (forwardTo_fold payload (elements s) (NoDup_elements s) clients [])
      as [Hc Hl].
    split.
    + intros ptr. rewrite Hc.
      destruct (decide (ptr ∈ elements s)) as [Hin|Hout];
        destruct (decide (ptr ∈ s)) as [Hin'|Hout']; try reflexivity.
      * apply elem_of_elements in Hin. contradiction.
      * apply elem_of_elements in Hin'. contradiction.
    + intros q. rewrite Hl, elem_of_elements. split.
      * intros [Hq|Hq]; [apply elem_of_nil in Hq; contradiction | exact Hq].
      * auto.
  - split.
    + intros ptr. destruct (decide (ptr ∈ (∅ : gset positive))) as [Hin|_]; [|reflexivity].
      apply elem_of_empty in Hin. contradiction.
    + intros q. split.
      * intros Hq. apply elem_of_nil in Hq. contradiction.
      * intros [Hq _]. apply elem_of_empty in Hq. contradiction.
Qed.

(** X13: forwardMessage queues the payload once for each subscriber of the
    channel whose send queue has room and leaves every other client as it
    was; it logs a full send buffer exactly for the subscribers whose queue
    is full (these lose the message); and it neither adds nor removes a
    client. *)
Theorem forwardMessage_delivery (h : Hub) (clients : gmap positive Client)
  (channel : string) (payload : SnapshotMessage) (ptr : positive) :
  ((forwardMessage h clients channel payload).1 !! ptr
   = if decide (ptr ∈ subscribers h channel) then offered payload <$> clients !! ptr
     else clients !! ptr)
  /\ (ClientSendBufferFull ptr ∈ (forwardMessage h clients channel payload).2
      <-> ptr ∈ subscribers h channel
          /\ exists c, clients !! ptr = Some c
                       /\ (Send_capacity c <= length (Send c))%nat)
  /\ dom (forwardMessage h clients channel payload).1 = dom clients.
Proof.
  destruct (forwardMessage_queues h clients channel payload) as [Hc Hl].
  split; [apply Hc|]. split; [apply Hl|].
  apply set_eq. intros p. rewrite !elem_of_dom, Hc.
  destruct (decide (p ∈ subscribers h channel)); [|reflexivity].
  rewrite fmap_is_Some. reflexivity.
Qed.

(** *** The manager's buffers *)

Lemma valid_ohlc_sane (c : CandleData) : valid_ohlc c = true <-> sane c.
Proof.
  unfold valid_ohlc, sane. split.
  - destruct (Qltb (High c) (Low c)) eqn:E1; [discriminate|].
    destruct (Qltb (High c) (Open c)) eqn:E2; [discriminate|].
    destruct (Qltb (High c) (Close c)) eqn:E3; [discriminate|].
    destruct (Qgtb (Low c) (Open c)) eqn:E4; [discriminate|].
    destruct (Qgtb (Low c) (Close c)) eqn:E5; [discriminate|].
    apply ServicesProofs.Qltb_ge in E2, E3. apply ServicesProofs.Qgtb_le in E4, E5.
    intros _. auto.
  - intros (H1 & H2 & H3 & H4).
    rewrite (proj2 (ServicesProofs.Qltb_ge (High c) (Low c))) by lra.
    rewrite (proj2 (ServicesProofs.Qltb_ge (High c) (Open c))) by lra.
    rewrite (proj2 (ServicesProofs.Qltb_ge (High c) (Close c))) by lra.
    rewrite (proj2 (ServicesProofs.Qgtb_le (Low c) (Open c))) by lra.
    rewrite (proj2 (ServicesProofs.Qgtb_le (Low c) (Close c))) by lra.
    reflexivity.
Qed.

Lemma GetCandles_set_buffer m key b :
  GetCandles (set_buffer m key b) key = candles b.
Proof. unfold GetCandles, set_buffer. cbn. rewrite lookup_insert_eq. reflexivity. Qed.

Lemma GetCandles_set_buffer_ne m key b other :
  other <> key -> GetCandles (set_buffer m key b) other = GetCandles m other.
Proof.
  intros Hne. unfold GetCandles, set_buffer. cbn.
  rewrite lookup_insert_ne by congruence. reflexivity.
Qed.

Lemma held_candles m key : held m key = candles (snd (GetOrCreateBuffer m key)).
Proof.
  unfold held, GetOrCreateBuffer, GetCandles.
  destruct (buffers m !! key) as [b|] eqn:E; cbn [fst snd].
  - rewrite E. reflexivity.
  - cbn. rewrite lookup_insert_eq. reflexivity.
Qed.

Lemma buffers_GetOrCreateBuffer_ne m key other :
  other <> key -> buffers (fst (GetOrCreateBuffer m key)) !! other = buffers m !! other.
Proof.
  intros Hne. unfold GetOrCreateBuffer.
  destruct (buffers m !! key); cbn; [reflexivity|].
  rewrite lookup_insert_ne by congruence. reflexivity.
Qed.

Lemma buffers_AddCandle_ne m key c isNew other :
  other <> key -> buffers (AddCandle m key c isNew) !! other = buffers m !! other.
Proof.
  intros Hne. unfold AddCandle.
  pose proof (buffers_GetOrCreateBuffer_ne m key other Hne) as H.
  destruct (GetOrCreateBuffer m key) as [m1 buffer]. cbn [fst] in H.
  destruct (valid_ohlc c); cbn [negb]; [|exact H].
  destruct isNew; cbn [set_buffer buffers]; rewrite lookup_insert_ne by congruence;
    exact H.
Qed.

Lemma AddCandle_stored m key c isNew :
  valid_ohlc c = true ->
  GetCandles (AddCandle m key c isNew) key
  = candles (if isNew then Add (snd (GetOrCreateBuffer m key)) c
             else Update (snd (GetOrCreateBuffer m key)) c).
Proof.
  intros Hv. unfold AddCandle.
  destruct (GetOrCreateBuffer m key) as [m1 buffer]. cbn [snd].
  rewrite Hv. cbn [negb]. destruct isNew; apply GetCandles_set_buffer.
Qed.

Lemma last_Add b c :
  (1 <= maxSize b)%Z -> last (candles (Add b c)) = Some c.
Proof.
  intros HN. rewrite BufferProofs.Add_candles.
  destruct (Z.ltb_spec (maxSize b) (Z.of_nat (length (candles b)) + 1)).
  - destruct (candles b) as [|x cs]; cbn [length app tail] in *; [lia|].
    apply last_snoc.
  - apply last_snoc.
Qed.

Lemma last_Update b c : last (candles (Update b c)) = Some c.
Proof. rewrite BufferProofs.Update_candles. apply last_snoc. Qed.

Lemma length_Add b c :
  (0 <= maxSize b)%Z -> (Z.of_nat (length (candles b)) <= maxSize b)%Z ->
  length (candles (Add b c))
  = Nat.min (S (length (candles b))) (Z.to_nat (maxSize b)).
Proof.
  intros HN Hlen. rewrite BufferProofs.Add_candles.
  destruct (Z.ltb_spec (maxSize b) (Z.of_nat (length (candles b)) + 1)).
  - destruct (candles b) as [|x cs]; cbn [length app tail] in *; [lia|].
    rewrite length_app. cbn [length]. lia.
  - rewrite length_app. cbn [length]. lia.
Qed.

Lemma length_Update b c :
  length (candles (Update b c)) = Nat.max 1 (length (candles b)).
Proof.
  rewrite BufferProofs.Update_candles, length_app, BufferProofs.length_init.
  cbn [length]. lia.
Qed.

(** X16: AddCandle validates exactly that open and close lie between low and
    high. With capacity N >= 1, a bar that passes becomes the newest of its
    buffer, whose length becomes min(length + 1, N) for a new bar and max(1,
    length) for an update; a bar that fails is not stored: the buffer keeps
    the bars it held (it is created and loaded when the key was new, and the
    manager is unchanged when the key existed). *)
Theorem AddCandle_stores_sane_bars (m : MultiPeriodManager) (key : string)
  (c : CandleData) (isNew : bool) (N : Z) :
  (1 <= N)%Z ->
  within_capacity N m ->
  (valid_ohlc c = true <-> sane c)
  /\ (sane c ->
      last (GetCandles (AddCandle m key c isNew) key) = Some c
      /\ length (GetCandles (AddCandle m key c isNew) key)
         = if isNew then Nat.min (S (length (held m key))) (Z.to_nat N)
           else Nat.max 1 (length (held m key)))
  /\ (~ sane c ->
      AddCandle m key c isNew = fst (GetOrCreateBuffer m key)
      /\ GetCandles (AddCandle m key c isNew) key = held m key)
  /\ (~ sane c -> is_Some (buffers m !! key) -> AddCandle m key c isNew = m).
Proof.
  intros HN Hcap.
  destruct (BufferProofs.GetOrCreateBuffer_capacity N m key HN Hcap) as (_ & HM & Hlen).
  split; [apply valid_ohlc_sane|]. split; [|split].
  - intros Hs. apply valid_ohlc_sane in Hs.
    rewrite (AddCandle_stored m key c isNew Hs), held_candles.
    destruct isNew.
    + split; [apply last_Add; lia|]. rewrite length_Add, HM by lia. reflexivity.
    + split; [apply last_Update | apply length_Update].
  - intros Hs.
    assert (Hv : valid_ohlc c = false).
    { destruct (valid_ohlc c) eqn:E; [|reflexivity]. apply valid_ohlc_sane in E.
      contradiction. }
    assert (E : AddCandle m key c isNew = fst (GetOrCreateBuffer m key)).
    { unfold AddCandle. destruct (GetOrCreateBuffer m key). rewrite Hv. reflexivity. }
    split; [exact E|]. rewrite E. reflexivity.
  - intros Hs [b Hb].
    assert (Hv : valid_ohlc c = false).
    { destruct (valid_ohlc c) eqn:E; [|reflexivity]. apply valid_ohlc_sane in E.
      contradiction. }
    unfold AddCandle, GetOrCreateBuffer. rewrite Hb, Hv. reflexivity.
Qed.

(** X15: bar events for other keys never touch a buffer: after any sequence
    of AddCandle calls none of which is for the key k, the buffer of k
    (present or absent), the bars GetCandles returns for k and the manager's
    capacity are as before. *)
Theorem buffers_are_isolated (m : MultiPeriodManager)
  (events : list (string * CandleData * bool)) (key : string) :
  Forall (fun e => e.1.1 <> key) events ->
  buffers (add_all m events) !! key = buffers m !! key
  /\ GetCandles (add_all m events) key = GetCandles m key
  /\ mgr_maxSize (add_all m events) = mgr_maxSize m.
Proof.
  intros Hall.
  assert (H : buffers (add_all m events) !! key = buffers m !! key
              /\ mgr_maxSize (add_all m events) = mgr_maxSize m).
  { revert m. induction Hall as [|e events He _ IH]; intros m; [auto|].
    change (add_all m (e :: events)) with (add_all (AddCandle m e.1.1 e.1.2 e.2) events).
    destruct (IH (AddCandle m e.1.1 e.1.2 e.2)) as [IH1 IH2].
    rewrite IH1, IH2. split.
    - apply buffers_AddCandle_ne. congruence.
    - unfold AddCandle, GetOrCreateBuffer.
      destruct (buffers m !! e.1.1); cbn;
        destruct (valid_ohlc e.1.2); cbn; try reflexivity;
        destruct e.2; reflexivity. }
  destruct H as [H1 H2]. split; [exact H1|]. split; [|exact H2].
  unfold GetCandles. rewrite H1. reflexivity.
Qed.

(** *** A bar event, from the bus to the clients *)

(** X14: a candle-service event (status not empty) with a sane bar, handled
    by handleKlineMessage on a hub whose buffers are within capacity N >= 1:
    the bar is the newest of its buffer, the buffer holds at most N bars,
    the subscriptions and every other buffer are unchanged, and each
    subscriber of the message's channel with room in its queue gets one
    snapshot of the whole buffer, every other client nothing. *)
Theorem bar_event_reaches_subscribers (h : Hub) (clients : gmap positive Client)
  (msg : RedisMessage) (cs : CandleServiceMsg) (N : Z) :
  asCandleService msg = Some cs ->
  cs_Status cs <> "" ->
  (1 <= N)%Z ->
  within_capacity N (indicatorManager h) ->
  sane (bar_of cs) ->
  let key := buffer_key (cs_Symbol cs) (cs_Timeframe cs) in
  let after := handleKlineMessage h clients msg in
  let bars := GetCandles (indicatorManager after.1.1) key in
  last bars = Some (bar_of cs)
  /\ (Z.of_nat (length bars) <= N)%Z
  /\ Subscriptions after.1.1 = Subscriptions h
  /\ (forall other, other <> key ->
      buffers (indicatorManager after.1.1) !! other
      = buffers (indicatorManager h) !! other)
  /\ (forall ptr,
        after.1.2 !! ptr
        = if decide (ptr ∈ subscribers h (redis_Channel msg))
          then offered (snapshot_of (cs_Symbol cs) (cs_Timeframe cs) bars)
                 <$> clients !! ptr
          else clients !! ptr).
Proof.
  intros Hcs Hst HN Hcap Hsane. cbv zeta.
  assert (Est : String.eqb (cs_Status cs) "" = false).
  { destruct (String.eqb_spec (cs_Status cs) ""); [contradiction|reflexivity]. }
  unfold handleKlineMessage. rewrite Hcs, Est. cbn [negb].
  cbn [km_Symbol km_Timeframe km_Candle IsNew indicatorManager Subscriptions].
  fold (bar_of cs). fold (buffer_key (cs_Symbol cs) (cs_Timeframe cs)).
  set (key := buffer_key (cs_Symbol cs) (cs_Timeframe cs)).
  set (m1 := AddCandle (indicatorManager h) key (bar_of cs)
               (String.eqb (cs_Status cs) "CLOSE")).
  pose proof (AddCandle_stored (indicatorManager h) key (bar_of cs)
                (String.eqb (cs_Status cs) "CLOSE")
                (proj2 (valid_ohlc_sane _) Hsane)) as Estored.
  fold m1 in Estored.
  assert (Hlast : last (GetCandles m1 key) = Some (bar_of cs)).
  { rewrite Estored.
    destruct (BufferProofs.GetOrCreateBuffer_capacity N (indicatorManager h) key HN Hcap)
      as (_ & HM & _).
    destruct (String.eqb (cs_Status cs) "CLOSE"); [apply last_Add; lia | apply last_Update]. }
  pose proof (BufferProofs.AddCandle_capacity N (indicatorManager h) key (bar_of cs)
                (String.eqb (cs_Status cs) "CLOSE") HN Hcap) as Hcap1.
  fold m1 in Hcap1.
  assert (Hlen : (Z.of_nat (length (GetCandles m1 key)) <= N)%Z).
  { unfold GetCandles. destruct (buffers m1 !! key) as [b|] eqn:Eb; [|cbn; lia].
    destruct Hcap1 as [_ Hall]. destruct (Hall key b Eb) as [_ Hb]. exact Hb. }
  destruct (GetCandles m1 key) as [|c0 cs0] eqn:Ebars; [discriminate|].
  cbn [length Nat.eqb].
  pose proof (forwardMessage_queues
                {| Subscriptions := Subscriptions h; indicatorManager := m1 |}
                clients (redis_Channel msg)
                {| Type_ := "snapshot"; Symbol := cs_Symbol cs;
                   Timeframe := cs_Timeframe cs; Data := c0 :: cs0 |}) as [Hq _].
  destruct (forwardMessage _ clients (redis_Channel msg) _) as [clients1 dropped].
  cbn [fst snd indicatorManager Subscriptions] in *.
  rewrite Ebars.
  split; [exact Hlast|]. split; [exact Hlen|]. split; [reflexivity|]. split.
  - intros other Hne. unfold m1. apply buffers_AddCandle_ne. exact Hne.
  - exact Hq.
Qed.

(** *** Warm-up from the store *)

Lemma valid_row_ohlc lastTime c : valid_row lastTime c = true -> valid_ohlc c = true.
Proof.
  unfold valid_row, valid_ohlc.
  destruct (Qltb (High c) (Low c)); [discriminate|].
  destruct (Qltb (High c) (Open c) || Qltb (High c) (Close c)); [discriminate|].
  destruct (Qgtb (Low c) (Open c) || Qgtb (Low c) (Close c)); [discriminate|].
  reflexivity.
Qed.

Lemma valid_row_later lastTime c :
  valid_row lastTime c = true -> lastTime <> 0%Z -> (lastTime < Time c)%Z.
Proof.
  unfold valid_row, IsZero, time.After.
  destruct (Qltb (High c) (Low c)); [discriminate|].
  destruct (Qltb (High c) (Open c) || Qltb (High c) (Close c)); [discriminate|].
  destruct (Qgtb (Low c) (Open c) || Qgtb (Low c) (Close c)); [discriminate|].
  intros H Hnz. destruct (Z.eqb_spec lastTime 0); [contradiction|].
  destruct (Z.ltb_spec lastTime (Time c)); [assumption|discriminate].
Qed.

(** What the loop of loadFromDB keeps. *)
Lemma loadLoop_keeps (rows : list CandleData) : forall lastTime acc,
  Forall (fun c => Time c <> 0%Z) rows ->
  Forall (fun c => Time c <> 0%Z) acc ->
  ordered acc ->
  Forall (fun c => valid_ohlc c = true) acc ->
  match last acc with Some l => lastTime = Time l | None => lastTime = 0%Z end ->
  ordered (loadLoop rows lastTime acc)
  /\ Forall (fun c => valid_ohlc c = true) (loadLoop rows lastTime acc)
  /\ Forall (fun c => c ∈ acc \/ c ∈ rows) (loadLoop rows lastTime acc).
Proof.
  induction rows as [|c rows IH]; intros lastTime acc Hrows Hacc Hord Hval Hlast.
  - cbn. split; [exact Hord|]. split; [exact Hval|].
    apply Forall_forall. auto.
  - apply Forall_cons in Hrows as [Hc Hrows]. cbn [loadLoop].
    destruct (valid_row lastTime c) eqn:Ev.
    + destruct (IH (Time c) (acc ++ [c])) as (I1 & I2 & I3).
      * exact Hrows.
      * apply Forall_app. split; [exact Hacc | constructor; [exact Hc | constructor]].
      * apply BufferProofs.ordered_snoc; [exact Hord|].
        unfold later_than_tail. destruct (last acc) as [l|] eqn:El; [|exact I].
        subst lastTime. unfold before. apply valid_row_later in Ev; [exact Ev|].
        apply last_Some_elem_of in El. rewrite Forall_forall in Hacc. apply Hacc, El.
      * apply Forall_app. split; [exact Hval|].
        constructor; [eapply valid_row_ohlc; exact Ev | constructor].
      * rewrite last_snoc. reflexivity.
      * split; [exact I1|]. split; [exact I2|].
        eapply Forall_impl; [exact I3|]. cbn. intros x [Hx|Hx].
        -- apply elem_of_app in Hx as [Hx|Hx]; [left; exact Hx|].
           apply list_elem_of_singleton in Hx. subst. right. left.
        -- right. right. exact Hx.
    + destruct (IH lastTime acc Hrows Hacc Hord Hval Hlast) as (I1 & I2 & I3).
      split; [exact I1|]. split; [exact I2|].
      eapply Forall_impl; [exact I3|]. cbn. intros x [Hx|Hx]; [left; exact Hx|].
      right. right. exact Hx.
Qed.

Lemma insert_desc_elem_of (r x : CandleData) (sorted : list CandleData) :
  x ∈ insert_desc r sorted <-> x = r \/ x ∈ sorted.
Proof.
  induction sorted as [|y rest IH]; cbn [insert_desc].
  - rewrite list_elem_of_singleton. split; [auto|]. intros [?|H]; [auto|].
    apply elem_of_nil in H. contradiction.
  - destruct (Time y <? Time r)%Z.
    + rewrite elem_of_cons. reflexivity.
    + rewrite !elem_of_cons, IH. tauto.
Qed.

Lemma sorted_rows_elem_of (x : CandleData) (l : list CandleData) :
  x ∈ foldr insert_desc [] l <-> x ∈ l.
Proof.
  induction l as [|y l IH]; cbn [foldr]; [reflexivity|].
  rewrite insert_desc_elem_of, elem_of_cons, IH. reflexivity.
Qed.

(** X17: the history loadFromDB puts in a buffer (key symbol:timeframe with
    no further colon, limit N >= 0, no stored row at Go's zero time) is
    strictly ascending in time, holds only sane bars, at most N of them,
    each a stored row of that symbol and timeframe; the capacity of the
    buffer is unchanged. *)
Theorem loadFromDB_history (rows : list KlineRow) (N : Z) (symbol timeframe : string)
  (buffer : CandleBuffer) :
  colon_free symbol = true -> colon_free timeframe = true ->
  (0 <= N)%Z ->
  Forall (fun r => Time (row_candle r) <> 0%Z) rows ->
  let loaded := candles (loadFromDB rows N (buffer_key symbol timeframe) buffer) in
  ordered loaded
  /\ Forall sane loaded
  /\ (Z.of_nat (length loaded) <= N)%Z
  /\ Forall (fun c => exists r, r ∈ rows /\ row_candle r = c
                                /\ row_symbol r = symbol
                                /\ row_timeframe r = timeframe) loaded
  /\ maxSize (loadFromDB rows N (buffer_key symbol timeframe) buffer) = maxSize buffer.
Proof.
  intros Hs Ht HN Hrows. cbv zeta.
  assert (Ekey : Split (buffer_key symbol timeframe) ":" = [symbol; timeframe]).
  { unfold Split, buffer_key.
    change (symbol +:+ ":" +:+ timeframe) with (symbol +:+ String ":" timeframe).
    rewrite (HubProofs.splitLoop_colon_free symbol) by exact Hs.
    cbn [splitLoop]. rewrite Ascii.eqb_refl.
    rewrite (HubProofs.splitLoop_last timeframe) by exact Ht.
    reflexivity. }
  unfold loadFromDB. rewrite Ekey. unfold Select.
  destruct (Z.ltb_spec N 0) as [|_]; [lia|]. cbn [candles maxSize].
  set (matching := filter (fun r => String.eqb (row_symbol r) symbol
                                    && String.eqb (row_timeframe r) timeframe = true) rows).
  set (selected := take (Z.to_nat N) (foldr insert_desc [] (row_candle <$> matching))).
  assert (Hsel : forall c, c ∈ selected ->
                   exists r, r ∈ rows /\ row_candle r = c
                             /\ row_symbol r = symbol /\ row_timeframe r = timeframe).
  { intros c Hc. unfold selected in Hc.
    apply (subseteq_take (Z.to_nat N)) in Hc.
    apply sorted_rows_elem_of, list_elem_of_fmap in Hc as (r & -> & Hr).
    unfold matching in Hr. apply list_elem_of_filter in Hr as [Hm Hr].
    apply andb_true_iff in Hm as [H1 H2].
    apply String.eqb_eq in H1, H2. eauto. }
  destruct (loadLoop_keeps (reverse selected) 0%Z []) as (H1 & H2 & H3).
  { apply Forall_forall. intros c Hc. rewrite elem_of_reverse in Hc.
    destruct (Hsel c Hc) as (r & Hr & <- & _).
    rewrite Forall_forall in Hrows. apply Hrows, Hr. }
  { constructor. }
  { constructor. }
  { constructor. }
  { reflexivity. }
  split; [exact H1|]. split.
  { eapply Forall_impl; [exact H2|]. intros c Hc. apply valid_ohlc_sane, Hc. }
  split.
  { pose proof (BufferProofs.loadLoop_length (reverse selected) 0%Z []) as Hl.
    rewrite length_reverse in Hl. unfold selected in Hl at 2.
    rewrite length_take in Hl. cbn [length] in Hl. lia. }
  split; [|reflexivity].
  eapply Forall_impl; [exact H3|]. cbn. intros c [Hc|Hc].
  - apply elem_of_nil in Hc. contradiction.
  - rewrite elem_of_reverse in Hc. apply Hsel, Hc.
Qed.

(** *** Channel names *)

Lemma splitLoop_acc (rest cur : string) (result : list string) :
  splitLoop ":" rest cur result = result ++ splitLoop ":" rest cur [].
Proof.
  revert cur result. induction rest as [|c rest IH]; intros cur result.
  - reflexivity.
  - cbn [splitLoop]. destruct (Ascii.eqb c ":").
    + rewrite (IH "" (result ++ [cur])), (IH "" ([] ++ [cur])).
      rewrite <- app_assoc. reflexivity.
    + apply IH.
Qed.

Lemma splitLoop_not_nil (rest cur : string) : splitLoop ":" rest cur [] <> [].
Proof.
  revert cur. induction rest as [|c rest IH]; intros cur.
  - discriminate.
  - cbn [splitLoop]. destruct (Ascii.eqb c ":").
    + rewrite splitLoop_acc. discriminate.
    + apply IH.
Qed.

Lemma colon_free_app (a b : string) :
  colon_free (a +:+ b) = colon_free a && colon_free b.
Proof.
  induction a as [|c a IH]; [reflexivity|].
  rewrite append_cons. cbn [colon_free]. rewrite IH, andb_assoc. reflexivity.
Qed.

Lemma splitLoop_join (rest cur : string) :
  colon_free cur = true ->
  join (splitLoop ":" rest cur []) = cur +:+ rest
  /\ Forall (fun part => colon_free part = true) (splitLoop ":" rest cur []).
Proof.
  revert cur. induction rest as [|c rest IH]; intros cur Hcur.
  - cbn [splitLoop app join]. rewrite append_nil_r. split; [reflexivity|].
    constructor; [exact Hcur | constructor].
  - cbn [splitLoop]. destruct (Ascii.eqb_spec c ":") as [->|Hne].
    + rewrite splitLoop_acc. cbn [app].
      destruct (IH "" eq_refl) as [IH1 IH2].
      pose proof (splitLoop_not_nil rest "") as Hnn.
      split; [|constructor; [exact Hcur | exact IH2]].
      destruct (splitLoop ":" rest "" []) as [|p ps]; [contradiction|].
      change (join (cur :: p :: ps)) with (cur +:+ ":" +:+ join (p :: ps)).
      rewrite IH1, append_nil_l. reflexivity.
    + destruct (IH (cur +:+ String c "")) as [IH1 IH2].
      { rewrite colon_free_app, Hcur. cbn [colon_free andb].
        destruct (Ascii.eqb_spec c ":"); [contradiction|reflexivity]. }
      split; [|exact IH2].
      rewrite IH1, append_assoc, append_cons, append_nil_l. reflexivity.
Qed.

(** X18: splitChannel is inverse to joining with a colon: its parts joined
    by colons give back the channel name, no part contains a colon, there is
    at least one part, strings.Split gives the same parts, and a name
    without a colon is its own single part. *)
Theorem splitChannel_join (channel : string) :
  join (splitChannel channel) = channel
  /\ Forall (fun part => colon_free part = true) (splitChannel channel)
  /\ splitChannel channel <> []
  /\ Split channel ":" = splitChannel channel
  /\ (colon_free channel = true -> splitChannel channel = [channel]).
Proof.
  unfold splitChannel, Split.
  destruct (splitLoop_join channel "" eq_refl) as [H1 H2].
  rewrite append_nil_l in H1.
  split; [exact H1|]. split; [exact H2|]. split; [apply splitLoop_not_nil|].
  split; [reflexivity|].
  intros Hc. rewrite (HubProofs.splitLoop_last channel "" [] Hc).
  rewrite append_nil_l. reflexivity.
Qed.

(** *** The theorems on a quiet hub *)

Lemma quiet_hub_no_empty_channel : no_empty_channel quiet_hub.
Proof. intros channel clients H. cbn in H. rewrite lookup_empty in H. discriminate. Qed.

Lemma quiet_hub_subscribers (channel : string) (ptr : positive) :
  ptr ∉ subscribers quiet_hub channel.
Proof.
  unfold subscribers. cbn [quiet_hub hub_after Subscriptions].
  rewrite lookup_empty. cbn. apply not_elem_of_empty.
Qed.

Lemma subscribe_unsubscribe_round_trip_witness :
  Unsubscribe (Subscribe quiet_hub 1%positive idle_client (kline_channel "XAUUSD" "M1")).1.1
    1%positive (kline_channel "XAUUSD" "M1")
  = quiet_hub.
Proof.
  destruct (subscribe_unsubscribe_round_trip quiet_hub 1%positive idle_client
              (kline_channel "XAUUSD" "M1") quiet_hub_no_empty_channel
              (quiet_hub_subscribers _ _))
    as (_ & _ & _ & H & _).
  exact H.
Defined.


Lemma sane_flat_bar (t : Z) (price : Q) : sane (flat_bar t price).
Proof. unfold sane. cbn. repeat split; lra. Qed.

Lemma AddCandle_stores_sane_bars_witness :
  last (GetCandles (AddCandle (NewMultiPeriodManager 500 None) "XAUUSD:M1"
                      (flat_bar 1000 2650) true) "XAUUSD:M1")
  = Some (flat_bar 1000 2650).
Proof.
  destruct (AddCandle_stores_sane_bars (NewMultiPeriodManager 500 None) "XAUUSD:M1"
              (flat_bar 1000 2650) true 500 ltac:(lia)
              (BufferProofs.within_capacity_New 500 None))
    as (_ & H & _).
  apply H, sane_flat_bar.
Defined.

Lemma buffers_are_isolated_witness :
  GetCandles (add_all (NewMultiPeriodManager 500 None)
                [ ("EURUSD:M5", flat_bar 1000 1, true) ]) "XAUUSD:M1"
  = GetCandles (NewMultiPeriodManager 500 None) "XAUUSD:M1".
Proof.
  destruct (buffers_are_isolated (NewMultiPeriodManager 500 None)
              [ ("EURUSD:M5", flat_bar 1000 1, true) ] "XAUUSD:M1")
    as (_ & H & _).
  - constructor; [cbn; discriminate | constructor].
  - exact H.
Defined.

Lemma bar_event_reaches_subscribers_witness :
  last (GetCandles
          (indicatorManager
             (handleKlineMessage quiet_hub {[ 1%positive := idle_client ]} close_event).1.1)
          (buffer_key "XAUUSD" "M1"))
  = Some (flat_bar 1000 2650).
Proof.
  destruct (bar_event_reaches_subscribers quiet_hub {[ 1%positive := idle_client ]}
              close_event
              {| cs_Status := "CLOSE"; cs_Symbol := "XAUUSD"; cs_Timeframe := "M1";
                 cs_StartTime := 1000%Z; cs_Open := 2650; cs_High := 2650;
                 cs_Low := 2650; cs_Close := 2650; cs_Volume := 1%Z |} 500)
    as (H & _).
  - reflexivity.
  - discriminate.
  - lia.
  - apply (BufferProofs.within_capacity_New 500 None).
  - apply (sane_flat_bar 1000 2650).
  - exact H.
Defined.

Lemma loadFromDB_history_witness :
  ordered (candles (loadFromDB stored_rows 500 (buffer_key "XAUUSD" "M1")
                      (NewCandleBuffer 500))).
Proof.
  destruct (loadFromDB_history stored_rows 500 "XAUUSD" "M1" (NewCandleBuffer 500))
    as (H & _).
  - reflexivity.
  - reflexivity.
  - lia.
  - repeat constructor; cbn; discriminate.
  - exact H.
Defined.

End ChannelProofs.

Module RuntimeProofs.
Import services ServicesSpec RuntimeSpec.
Import ServicesProofs.
Local Open Scope Q_scope.




(** *** The positions of an instance *)





(** *** From an indicator to a signal *)

(** X21: an instance running the Green Arrow strategy sends a signal for an
    indicator message exactly when it is not paused and the message decodes,
    is flagged as a signal, and has trend 1 with up_signal > 0 (a BUY at
    up_signal with stop up_stop) or trend -1 with down_signal > 0 (a SELL at
    down_signal with stop down_stop); the signal carries the symbol and
    timeframe of the instance. A paused instance sends nothing and logs
    nothing. *)
Theorem handleIndicator_signals (ea : RunningEA) (payload : candle.result GreenArrowResult)
  (now : Z) :
  strategy ea = NewGreenArrowEA ->
  (forall signal,
     fst (handleIndicator ea payload now) = Some signal <->
     paused ea = false
     /\ exists ind,
          payload = candle.Ok ind /\ IsSignal ind = true
          /\ ((ind_Trend ind = 1%Z /\ 0 < UpSignal ind
               /\ signal = {| sig_Symbol := cfg_Symbol (config (instance ea));
                              sig_Timeframe := cfg_Timeframe (config (instance ea));
                              sig_Type := "BUY"; Price := UpSignal ind;
                              sig_StopLoss := UpStop ind; Trend := 1%Z;
                              Timestamp := now |})
              \/ (ind_Trend ind = (-1)%Z /\ 0 < DownSignal ind
                  /\ signal = {| sig_Symbol := cfg_Symbol (config (instance ea));
                                 sig_Timeframe := cfg_Timeframe (config (instance ea));
                                 sig_Type := "SELL"; Price := DownSignal ind;
                                 sig_StopLoss := DownStop ind; Trend := (-1)%Z;
                                 Timestamp := now |})))
  /\ (paused ea = true -> handleIndicator ea payload now = (None, [])).
Proof.
  intros Hstrat. split; [|intros Hp; unfold handleIndicator; rewrite Hp; reflexivity].
  intros signal. unfold handleIndicator. rewrite Hstrat.
  cbn [ProcessIndicator NewGreenArrowEA]. unfold GreenArrowEA_ProcessIndicator.
  destruct (paused ea).
  { cbn [fst]. split; [discriminate|]. intros [H _]. discriminate. }
  destruct payload as [ind|err].
  2:{ cbn [fst]. split; [discriminate|]. intros (_ & ind & H & _). discriminate. }
  destruct (IsSignal ind) eqn:Esig; cbn [negb].
  2:{ cbn [fst]. split; [discriminate|]. intros (_ & ind' & H & Hs & _).
      inversion H; subst. congruence. }
  destruct (Z.eqb_spec (ind_Trend ind) 1) as [Eup|Nup].
  - destruct (Qgtb (UpSignal ind) 0) eqn:Egt; cbn [andb].
    + apply Qgtb_gt in Egt. cbn [fst sig_Type Price sig_StopLoss Trend Timestamp].
      rewrite Eup. split.
      * intros H. inversion H; subst signal. split; [reflexivity|].
        exists ind. split; [reflexivity|]. split; [exact Esig|]. left. auto.
      * intros (_ & ind' & H & _ & [(_ & _ & ->)|(Hdn & _)]);
          inversion H; subst ind'; [reflexivity | lia].
    + apply Qgtb_le in Egt.
      destruct (Z.eqb_spec (ind_Trend ind) (-1)); [lia|]. cbn [andb fst]. split.
      * discriminate.
      * intros (_ & ind' & H & _ & [(_ & Hpos & _)|(Hdn & _)]);
          inversion H; subst ind'; [lra | lia].
  - cbn [andb].
    destruct (Z.eqb_spec (ind_Trend ind) (-1)) as [Edn|Ndn].
    + destruct (Qgtb (DownSignal ind) 0) eqn:Egt; cbn [andb].
      * apply Qgtb_gt in Egt. cbn [fst sig_Type Price sig_StopLoss Trend Timestamp].
        rewrite Edn. split.
        -- intros H. inversion H; subst signal. split; [reflexivity|].
           exists ind. split; [reflexivity|]. split; [exact Esig|]. right. auto.
        -- intros (_ & ind' & H & _ & [(Hup & _)|(_ & _ & ->)]);
             inversion H; subst ind'; [lia | reflexivity].
      * apply Qgtb_le in Egt. cbn [fst]. split; [discriminate|].
        intros (_ & ind' & H & _ & [(Hup & _)|(_ & Hpos & _)]);
          inversion H; subst ind'; [lia | lra].
    + cbn [andb fst]. split; [discriminate|].
      intros (_ & ind' & H & _ & [(Hup & _)|(Hdn & _)]); inversion H; subst ind'; lia.
Qed.

(** *** The runtime service *)

Lemma CreateStrategy_supported (name : string) :
  (exists strategy, CreateStrategy name = candle.Ok strategy) <-> name ∈ supported.
Proof.
  unfold CreateStrategy, supported.
  destruct (String.eqb_spec name "GreenArrow") as [->|N1]; cbn [orb].
  { split; [intros _; set_solver | eauto]. }
  destruct (String.eqb_spec name "绿箭侠") as [->|N2]; cbn [orb].
  { split; [intros _; set_solver | eauto]. }
  destruct (String.eqb_spec name "Green Arrow EA") as [->|N3]; cbn [orb].
  { split; [intros _; set_solver | eauto]. }
  destruct (String.eqb_spec name "MACD") as [->|N4]; cbn [orb].
  { split; [intros _; set_solver | eauto]. }
  destruct (String.eqb_spec name "MACD EA") as [->|N5]; cbn [orb].
  { split; [intros _; set_solver | eauto]. }
  split; [intros [? H]; discriminate|].
  intros H. repeat (apply elem_of_cons in H as [H|H]; [congruence|]).
  apply elem_of_nil in H. contradiction.
Qed.

Lemma users_StartEA s orderID cfg info uid u :
  users (tradeManager s) !! uid = Some u ->
  users (tradeManager (fst (StartEA s orderID cfg info))) !! uid = Some u.
Proof.
  intros Hu. unfold StartEA.
  destruct (bool_decide (is_Some (instances s !! orderID))); cbn [fst]; [exact Hu|].
  assert (users (if negb (UserExists (tradeManager s) (pretty (ui_UserID info)))
                 then RegisterUser (tradeManager s) (userOf info)
                 else tradeManager s) !! uid = Some u) as H.
  { unfold UserExists. case_bool_decide as Hex; cbn [negb]; [exact Hu|].
    cbn [RegisterUser users userOf UserID].
    rewrite lookup_insert_ne; [exact Hu|]. intros Heq. subst uid. apply Hex. eauto. }
  destruct (CreateStrategy (EAName cfg)); cbn [fst tradeManager]; exact H.
Qed.

(** X22: StartEA succeeds exactly when the order id is not running and the
    EA name is one of GreenArrow, 绿箭侠, Green Arrow EA, MACD and MACD EA. On
    success the instance is stored with no positions, not paused, not
    stopped, and started iff its configuration is enabled; on failure the
    instances are unchanged (for a running id nothing changes at all). No
    other instance is touched, an account that is registered is never
    overwritten, the positions are untouched, and unless the id was running
    the user is registered afterwards, also when the strategy could not be
    created. *)
Theorem StartEA_admission (s : EARuntimeService) (orderID : Z) (cfg : EAConfig)
  (info : UserInfo) :
  let s' := fst (StartEA s orderID cfg info) in
  let outcome := snd (StartEA s orderID cfg info) in
  (outcome = candle.Ok tt <->
   instances s !! orderID = None /\ EAName cfg ∈ supported)
  /\ (outcome = candle.Ok tt ->
      exists ea,
        instances s' !! orderID = Some ea
        /\ instance ea = {| orderID := orderID; config := cfg; user := userOf info;
                            ea_positions := ∅ |}
        /\ CreateStrategy (EAName cfg) = candle.Ok (strategy ea)
        /\ paused ea = false /\ stopped ea = false /\ started ea = Enabled cfg)
  /\ (outcome <> candle.Ok tt -> instances s' = instances s)
  /\ (is_Some (instances s !! orderID) -> s' = s /\ outcome = candle.Err "EA已在运行")
  /\ (forall other, other <> orderID -> instances s' !! other = instances s !! other)
  /\ (forall uid u, users (tradeManager s) !! uid = Some u ->
                    users (tradeManager s') !! uid = Some u)
  /\ (instances s !! orderID = None ->
      is_Some (users (tradeManager s') !! pretty (ui_UserID info)))
  /\ positions (tradeManager s') = positions (tradeManager s).
Proof.
  cbv zeta.
  pose proof (fun uid u => users_StartEA s orderID cfg info uid u) as Husers.
  pose proof (CreateStrategy_supported (EAName cfg)) as Hsup.
  unfold StartEA in *. case_bool_decide as Hex; cbn [fst snd].
  { assert (instances s !! orderID <> None) as Hn.
    { intros E. rewrite E in Hex. destruct Hex. discriminate. }
    repeat split; try discriminate; auto; try tauto. }
  assert (instances s !! orderID = None) as Hnone.
  { destruct (instances s !! orderID); [exfalso; apply Hex; eauto | reflexivity]. }
  assert (is_Some (users (if negb (UserExists (tradeManager s) (pretty (ui_UserID info)))
                          then RegisterUser (tradeManager s) (userOf info)
                          else tradeManager s) !! pretty (ui_UserID info))) as Hreg.
  { unfold UserExists. case_bool_decide as Hu; cbn [negb]; [exact Hu|].
    cbn [RegisterUser users userOf UserID]. rewrite lookup_insert_eq. eauto. }
  assert (positions (if negb (UserExists (tradeManager s) (pretty (ui_UserID info)))
                     then RegisterUser (tradeManager s) (userOf info)
                     else tradeManager s) = positions (tradeManager s)) as Hpos.
  { destruct (negb _); reflexivity. }
  destruct (CreateStrategy (EAName cfg)) as [strat|err] eqn:Ecs;
    cbn [fst snd instances tradeManager] in *.
  - split; [split; [intros _; split; [exact Hnone | apply Hsup; eauto] | reflexivity]|].
    split.
    { intros _. eexists. split; [apply lookup_insert_eq|].
      unfold Start, NewStrategyEAInstance. cbn [instance config Enabled].
      destruct (Enabled cfg); cbn [negb instance strategy paused stopped started];
        repeat split. }
    split; [congruence|]. split; [intros H; rewrite Hnone in H; destruct H; discriminate|].
    split; [intros other Hne; apply lookup_insert_ne; congruence|].
    split; [exact Husers|]. split; [intros _; exact Hreg | exact Hpos].
  - split.
    { split; [discriminate|]. intros [_ Hin]. apply Hsup in Hin as [? H]. discriminate. }
    split; [discriminate|]. split; [reflexivity|].
    split; [intros H; rewrite Hnone in H; destruct H; discriminate|].
    split; [reflexivity|].
    split; [exact Husers|]. split; [intros _; exact Hreg | exact Hpos].
Qed.

(** X23: PauseEA on a running order id succeeds, and the paused instance
    sends no signal whatever the indicator message; ResumeEA then succeeds
    and the instance is as before with paused = false (the original instance
    when that was not paused). Both fail with EA不存在 on an unknown id and
    change nothing; other instances and the trade manager are untouched. *)
Theorem PauseEA_ResumeEA (s : EARuntimeService) (orderID : Z) :
  let paused_s := fst (PauseEA s orderID) in
  let resumed_s := fst (ResumeEA paused_s orderID) in
  (forall ea, instances s !! orderID = Some ea ->
     snd (PauseEA s orderID) = candle.Ok tt
     /\ snd (ResumeEA paused_s orderID) = candle.Ok tt
     /\ (exists held,
           instances paused_s !! orderID = Some held
           /\ instance held = instance ea /\ strategy held = strategy ea
           /\ forall payload now, handleIndicator held payload now = (None, []))
     /\ (exists live,
           instances resumed_s !! orderID = Some live
           /\ instance live = instance ea /\ strategy live = strategy ea
           /\ paused live = false
           /\ (paused ea = false -> live = ea)))
  /\ (instances s !! orderID = None ->
      PauseEA s orderID = (s, candle.Err "EA不存在")
      /\ ResumeEA s orderID = (s, candle.Err "EA不存在"))
  /\ (forall other, other <> orderID ->
        instances resumed_s !! other = instances s !! other)
  /\ tradeManager resumed_s = tradeManager s.
Proof.
  cbv zeta. unfold PauseEA, ResumeEA.
  destruct (instances s !! orderID) as [ea|] eqn:E; cbn [fst snd instances tradeManager].
  - rewrite lookup_insert_eq. cbn [fst snd instances tradeManager].
    split; [|split; [discriminate|split; [|reflexivity]]].
    + intros ea' H. inversion H; subst ea'. split; [reflexivity|]. split; [reflexivity|].
      split.
      * eexists. split; [reflexivity|]. repeat split.
      * eexists. split; [apply lookup_insert_eq|]. repeat split.
        intros Hp. destruct ea. cbn in Hp. subst. reflexivity.
    + intros other Hne. rewrite !lookup_insert_ne by congruence. reflexivity.
  - rewrite E. cbn [fst snd]. split; [discriminate|]. repeat split.
Qed.

(** X24: StopEA succeeds exactly when the order id is running (otherwise it
    fails with EA不存在 and changes nothing); afterwards the id is unknown: a
    second StopEA, PauseEA and ResumeEA fail, while StartEA with a supported
    EA name is admitted again. Other instances and the trade manager are
    untouched. *)
Theorem StopEA_forgets (s : EARuntimeService) (orderID : Z) :
  let s' := fst (StopEA s orderID) in
  (snd (StopEA s orderID) = candle.Ok tt <-> is_Some (instances s !! orderID))
  /\ (snd (StopEA s orderID) <> candle.Ok tt ->
      StopEA s orderID = (s, candle.Err "EA不存在"))
  /\ instances s' !! orderID = None
  /\ (forall other, other <> orderID -> instances s' !! other = instances s !! other)
  /\ tradeManager s' = tradeManager s
  /\ StopEA s' orderID = (s', candle.Err "EA不存在")
  /\ PauseEA s' orderID = (s', candle.Err "EA不存在")
  /\ ResumeEA s' orderID = (s', candle.Err "EA不存在")
  /\ (forall cfg info,
        EAName cfg ∈ supported ->
        snd (StartEA s' orderID cfg info) = candle.Ok tt).
Proof.
  cbv zeta.
  assert (instances (fst (StopEA s orderID)) !! orderID = None) as Hgone.
  { unfold StopEA. destruct (instances s !! orderID) eqn:E; cbn [fst instances];
      [apply lookup_delete_eq | exact E]. }
  split; [|split; [|split; [exact Hgone|split; [|split; [|split; [|split; [|split]]]]]]].
  - unfold StopEA. destruct (instances s !! orderID); cbn [snd].
    + split; eauto.
    + split; [discriminate|]. intros [? H]. discriminate.
  - unfold StopEA. destruct (instances s !! orderID); cbn [snd]; congruence.
  - intros other Hne. unfold StopEA.
    destruct (instances s !! orderID); cbn [fst instances];
      [apply lookup_delete_ne; congruence | reflexivity].
  - unfold StopEA. destruct (instances s !! orderID); reflexivity.
  - unfold StopEA at 1. rewrite Hgone. reflexivity.
  - unfold PauseEA. rewrite Hgone. reflexivity.
  - unfold ResumeEA. rewrite Hgone. reflexivity.
  - intros cfg info Hin. apply CreateStrategy_supported in Hin as [strat Hs].
    unfold StartEA. rewrite Hgone.
    rewrite bool_decide_eq_false_2 by (intros [? H]; discriminate).
    rewrite Hs. reflexivity.
Qed.

(** *** The theorems on the account of 8000 *)


Lemma handleIndicator_signals_witness :
  fst (handleIndicator green_arrow_instance (candle.Ok up_signal) 5%Z)
  = Some {| sig_Symbol := "XAUUSD"; sig_Timeframe := "M5"; sig_Type := "BUY";
            Price := 2650; sig_StopLoss := 2640; Trend := 1%Z; Timestamp := 5%Z |}.
Proof.
  destruct (handleIndicator_signals green_arrow_instance (candle.Ok up_signal) 5%Z
              eq_refl) as (H & _).
  apply H. split; [reflexivity|]. exists up_signal.
  split; [reflexivity|]. split; [reflexivity|]. left.
  split; [reflexivity|]. split; reflexivity.
Defined.

End RuntimeProofs.

Module LoopProofs.
Import indicators LoopSpec.

Lemma nth_insert_eq {A} (l : list A) (i : nat) (x d : A) :
  (i < length l)%nat -> nth i (<[i := x]> l) d = x.
Proof.
  intros H. rewrite nth_lookup, list_lookup_insert_eq by exact H. reflexivity.
Qed.

Lemma nth_insert_ne {A} (l : list A) (i j : nat) (x d : A) :
  i <> j -> nth j (<[i := x]> l) d = nth j l d.
Proof.
  intros H. rewrite !nth_lookup, list_lookup_insert_ne by exact H. reflexivity.
Qed.

Lemma lookup_nth {A} (l : list A) (i : nat) (d : A) :
  (i < length l)%nat -> l !! i = Some (nth i l d).
Proof.
  intros H. destruct (lookup_lt_is_Some_2 l i H) as [x Hx].
  rewrite nth_lookup, Hx. reflexivity.
Qed.

Lemma loopBody_trend closes bb params s i :
  trend (loopBody closes bb params s i) = trend s
  \/ ((0 < i)%nat /\ (trend (loopBody closes bb params s i) = 1
                     \/ trend (loopBody closes bb params s i) = -1)%Z).
Proof.
  unfold loopBody. cbn [trend].
  destruct (0 <? i)%nat eqn:E; [|left; reflexivity].
  apply Nat.ltb_lt in E.
  destruct (PrimFloat.ltb _ _); [right; split; [exact E | right; reflexivity]|].
  destruct (PrimFloat.ltb _ _); [right; split; [exact E | left; reflexivity]|].
  left. reflexivity.
Qed.

Lemma loopBody_results closes bb params s i :
  results (loopBody closes bb params s i)
  = let t := trend (loopBody closes bb params s i) in
    let r1 := <[i := set_Trend (nth i (results s) emptyResult) t]> (results s) in
    <[i := updateBuffers (nth i r1 emptyResult) i
             (upperStop (loopBody closes bb params s i))
             (lowerStop (loopBody closes bb params s i)) t params r1]> r1.
Proof. reflexivity. Qed.

(** What updateBuffers makes of a blank bar. *)
Lemma updateBuffers_bar_here params i US LS t rs :
  (t = 0 \/ t = 1 \/ t = -1)%Z ->
  bar_ok params (Z.of_nat i =? Length params - 1)%Z (nth (i - 1) rs emptyResult)
    (updateBuffers (set_Trend emptyResult t) i US LS t params rs).
Proof.
  intros Ht. unfold bar_ok, updateBuffers, up_blank, down_blank.
  destruct Ht as [->|[->| ->]]; cbn [Z.ltb Z.compare].
  - cbn. repeat split; intros; try reflexivity; try lia; try congruence.
  - unfold clearDownTrendBuffers, updateUpTrendBuffers, set_Trend.
    cbn [UpStop DownStop UpSignal DownSignal UpLine DownLine Trend IsSignal emptyResult].
    split; [auto|]. split; [discriminate|]. split; [congruence|].
    split; [intros _; repeat split|]. split; [|discriminate].
    intros _. split; [reflexivity|].
    split; [intros ->; reflexivity|].
    split; [intros Hs H2; rewrite Hs; destruct (Z.eqb_spec (Signal params) 2);
              [contradiction | reflexivity]|].
    split; [intros ->; reflexivity|].
    intros Hl. destruct (Z.ltb_spec 0 (Line params)); [lia | reflexivity].
  - unfold clearUpTrendBuffers, updateDownTrendBuffers, set_Trend.
    cbn [UpStop DownStop UpSignal DownSignal UpLine DownLine Trend IsSignal emptyResult].
    split; [auto|]. split; [discriminate|]. split; [intros _; repeat split|].
    split; [congruence|]. split; [discriminate|].
    intros _. split; [reflexivity|].
    split; [intros ->; reflexivity|].
    split; [intros Hs H2; rewrite Hs; destruct (Z.eqb_spec (Signal params) 2);
              [contradiction | reflexivity]|].
    split; [intros ->; reflexivity|].
    intros Hl. destruct (Z.ltb_spec 0 (Line params)); [lia | reflexivity].
Qed.

Lemma updateBuffers_bar params i US LS t rs prev :
  (t = 0 \/ t = 1 \/ t = -1)%Z ->
  ((Z.of_nat i =? Length params - 1)%Z = false -> prev = nth (i - 1) rs emptyResult) ->
  bar_ok params (Z.of_nat i =? Length params - 1)%Z prev
    (updateBuffers (set_Trend emptyResult t) i US LS t params rs).
Proof.
  intros Ht Hprev. pose proof (updateBuffers_bar_here params i US LS t rs Ht) as H.
  destruct (Z.of_nat i =? Length params - 1)%Z.
  - exact H.
  - rewrite (Hprev eq_refl). exact H.
Qed.

Lemma updateBuffers_Trend r i US LS t params rs :
  Trend (updateBuffers r i US LS t params rs) = Trend r.
Proof.
  unfold updateBuffers.
  destruct (0 <? t)%Z; [reflexivity|]. destruct (t <? 0)%Z; reflexivity.
Qed.

Section Loop.

Variable params : GreenArrowParams.
Hypothesis HLength : (1 <= Length params)%Z.

Lemma first_bar_eqb (j : nat) :
  (Z.of_nat j =? Length params - 1)%Z = (j =? first_bar params)%nat.
Proof.
  unfold first_bar.
  destruct (Z.eqb_spec (Z.of_nat j) (Length params - 1)) as [E|N];
    destruct (Nat.eqb_spec j (Z.to_nat (Length params - 1))) as [E'|N'];
    try reflexivity; lia.
Qed.

Lemma loop_inv_init (n : nat) (zeros : list float) :
  loop_inv params n 0
    {| trend := 0%Z; upperBand := zeros; lowerBand := zeros;
       upperStop := zeros; lowerStop := zeros;
       results := replicate n emptyResult |}.
Proof.
  unfold loop_inv. cbn [results trend].
  assert (forall j, nth j (replicate n emptyResult) emptyResult = emptyResult) as Hb.
  { intros j. destruct (Nat.lt_ge_cases j n) as [H|H].
    - rewrite nth_lookup, lookup_replicate_2 by exact H. reflexivity.
    - apply nth_overflow. rewrite length_replicate. exact H. }
  split; [apply length_replicate|]. split; [auto|].
  split; [intros j _; apply Hb|].
  split; [intros j Hj; lia|]. split; [intros j Hj; lia|].
  intros j _. rewrite Hb. intros H. contradiction.
Qed.

Lemma loop_inv_step closes bb (n k : nat) (s : LoopState) :
  (first_bar params + k < n)%nat ->
  loop_inv params n k s ->
  loop_inv params n (S k) (loopBody closes bb params s (first_bar params + k)).
Proof.
  intros Hk (Hlen & Ht & Hblank & Hbars & Hmono & Hpers).
  remember (first_bar params + k)%nat as i eqn:Ei.
  pose proof (loopBody_trend closes bb params s i) as Htr.
  pose proof (loopBody_results closes bb params s i) as Hres. cbv zeta in Hres.
  set (s' := loopBody closes bb params s i) in *.
  assert (trend s' = 0 \/ trend s' = 1 \/ trend s' = -1)%Z as Ht'.
  { destruct Htr as [->|[_ [->| ->]]]; auto. }
  assert (nth i (results s) emptyResult = emptyResult) as Hi.
  { apply Hblank. right. lia. }
  rewrite Hi in Hres.
  rewrite nth_insert_eq in Hres by (rewrite Hlen; exact Hk).
  assert (forall j, j <> i -> nth j (results s') emptyResult = nth j (results s) emptyResult)
    as Hother.
  { intros j Hj. rewrite Hres, !nth_insert_ne by congruence. reflexivity. }
  assert (nth i (results s') emptyResult
          = updateBuffers (set_Trend emptyResult (trend s')) i (upperStop s')
              (lowerStop s') (trend s') params
              (<[i := set_Trend emptyResult (trend s')]> (results s))) as Hnew.
  { rewrite Hres at 1. apply nth_insert_eq. rewrite length_insert, Hlen. exact Hk. }
  assert (Trend (nth i (results s') emptyResult) = trend s') as Htrend.
  { rewrite Hnew, updateBuffers_Trend. reflexivity. }
  unfold loop_inv.
  split; [rewrite Hres, !length_insert; exact Hlen|]. split; [exact Ht'|].
  split.
  { intros j Hj. rewrite Hother by (lia). apply Hblank. lia. }
  split.
  { intros j Hj. destruct (decide (j = i)) as [->|Hne].
    - rewrite <- first_bar_eqb.
      remember (nth (i - 1) (results s') emptyResult) as prev eqn:Eprev.
      rewrite Hnew.
      apply updateBuffers_bar; [exact Ht'|].
      intros Hf. rewrite first_bar_eqb in Hf. apply Nat.eqb_neq in Hf.
      assert (i - 1 <> i)%nat as N by (lia).
      rewrite nth_insert_ne by congruence. rewrite Eprev. apply Hother. exact N.
    - rewrite !Hother.
      + apply Hbars. lia.
      + exact Hne.
      + lia. }
  split.
  { intros j Hj. destruct (decide (j = i)) as [->|Hne].
    - rewrite Htrend. auto.
    - rewrite Hother by exact Hne. intros Hnz.
      assert (trend s <> 0%Z) as Hs by (apply (Hmono j); [lia | exact Hnz]).
      destruct Htr as [->|[_ [->| ->]]]; [exact Hs | discriminate | discriminate]. }
  intros j Hj. destruct (decide (S j = i)) as [E|Hne].
  - rewrite E, Htrend. rewrite Hother by lia. intros Hnz.
    assert (trend s <> 0%Z) as Hs.
    { destruct (Nat.lt_ge_cases j (first_bar params)) as [Hlt|Hge].
      - rewrite Hblank in Hnz by (left; exact Hlt). contradiction.
      - apply (Hmono j); [lia | exact Hnz]. }
    destruct Htr as [->|[_ [->| ->]]]; [exact Hs | discriminate | discriminate].
  - rewrite !Hother by (lia). apply Hpers. lia.
Qed.

Lemma loopAfter_S candles k :
  loopAfter candles params (S k)
  = loopBody (Close <$> candles)
      (CalculateBollingerBandsSeries (Close <$> candles) (Length params)
         (float_of_int (Deviation params)))
      params (loopAfter candles params k) (first_bar params + k).
Proof. unfold loopAfter. cbv zeta. rewrite seq_S, fold_left_app. reflexivity. Qed.

Lemma loopAfter_inv candles k :
  (first_bar params + k <= length candles)%nat ->
  loop_inv params (length candles) k (loopAfter candles params k).
Proof.
  induction k as [|k IH]; intros Hk.
  - apply loop_inv_init.
  - rewrite loopAfter_S. apply loop_inv_step; [lia|]. apply IH. lia.
Qed.

Lemma runGreenArrow_loopAfter candles :
  runGreenArrow candles params
  = loopAfter candles params (length candles - first_bar params).
Proof. reflexivity. Qed.

(** The bars of the output, when there is one. *)
Lemma CalculateGreenArrow_bars candles :
  (Length params <= Z.of_nat (length candles))%Z ->
  let out := CalculateGreenArrow candles params in
  length out = length candles
  /\ forall i, (i < length candles)%nat ->
       out !! i = Some (nth i out emptyResult)
       /\ ((i < first_bar params)%nat -> nth i out emptyResult = emptyResult)
       /\ ((first_bar params <= i)%nat ->
           bar_ok params (i =? first_bar params)%nat (nth (i - 1) out emptyResult)
             (nth i out emptyResult))
       /\ (Trend (nth i out emptyResult) <> 0%Z ->
           (S i < length candles)%nat -> Trend (nth (S i) out emptyResult) <> 0%Z).
Proof.
  intros Hn. cbv zeta. unfold CalculateGreenArrow.
  destruct (Z.ltb_spec (Z.of_nat (length candles)) (Length params)) as [?|_]; [lia|].
  rewrite runGreenArrow_loopAfter.
  assert (first_bar params + (length candles - first_bar params) = length candles)%nat
    as Hsum by (unfold first_bar; lia).
  destruct (loopAfter_inv candles (length candles - first_bar params) ltac:(lia))
    as (Hlen & _ & Hblank & Hbars & _ & Hpers).
  rewrite Hsum in Hbars, Hpers.
  split; [exact Hlen|]. intros i Hi. split.
  { apply lookup_nth. rewrite Hlen. exact Hi. }
  split; [intros H; apply Hblank; left; exact H|].
  split; [intros H; apply Hbars; lia|].
  intros Hnz Hs. apply Hpers; assumption.
Qed.

End Loop.

Lemma lookup_bar (out : list GreenArrowResult) (i : nat) (r : GreenArrowResult) :
  out !! i = Some r -> (i < length out)%nat /\ nth i out emptyResult = r.
Proof.
  intros H. split; [apply lookup_lt_Some in H; exact H|].
  rewrite nth_lookup, H. reflexivity.
Qed.

(** A bar of the output, whatever its place. *)
Lemma CalculateGreenArrow_bar params candles i r :
  (1 <= Length params)%Z ->
  CalculateGreenArrow candles params !! i = Some r ->
  (i < length candles)%nat
  /\ (Length params <= Z.of_nat (length candles))%Z
  /\ nth i (CalculateGreenArrow candles params) emptyResult = r
  /\ ((i < first_bar params)%nat -> r = emptyResult)
  /\ ((first_bar params <= i)%nat ->
      bar_ok params (i =? first_bar params)%nat
        (nth (i - 1) (CalculateGreenArrow candles params) emptyResult) r).
Proof.
  intros HL Hr.
  assert (Length params <= Z.of_nat (length candles))%Z as Hn.
  { unfold CalculateGreenArrow in Hr.
    destruct (Z.ltb_spec (Z.of_nat (length candles)) (Length params)); [|assumption].
    rewrite lookup_nil in Hr. discriminate. }
  destruct (CalculateGreenArrow_bars params HL candles Hn) as [Hlen Hall].
  destruct (lookup_bar _ _ _ Hr) as [Hi Hnth]. rewrite Hlen in Hi.
  destruct (Hall i Hi) as (_ & Hblank & Hbar & _). rewrite Hnth in Hblank, Hbar.
  split; [exact Hi|]. split; [exact Hn|]. split; [exact Hnth|].
  split; [exact Hblank | exact Hbar].
Qed.

(** X25: for Length >= 1, CalculateGreenArrow returns the empty list when
    there are fewer candles than Length, and otherwise one result per
    candle, the results of the warm-up bars (index below Length - 1) being
    blank: levels -1, lines EMPTY_VALUE, trend 0, no signal. *)
Theorem GreenArrow_output_shape (candles : list Candle) (params : GreenArrowParams) :
  (1 <= Length params)%Z ->
  let out := CalculateGreenArrow candles params in
  ((Z.of_nat (length candles) < Length params)%Z -> out = [])
  /\ ((Length params <= Z.of_nat (length candles))%Z ->
      length out = length candles
      /\ forall i, (Z.of_nat i < Length params - 1)%Z ->
                   out !! i = Some emptyResult).
Proof.
  intros HL. cbv zeta. split.
  - intros Hn. unfold CalculateGreenArrow.
    destruct (Z.ltb_spec (Z.of_nat (length candles)) (Length params)); [reflexivity | lia].
  - intros Hn. destruct (CalculateGreenArrow_bars params HL candles Hn) as [Hlen Hall].
    split; [exact Hlen|]. intros i Hi.
    assert (i < length candles)%nat as Hin by lia.
    destruct (Hall i Hin) as (Hl & Hblank & _). rewrite Hl. f_equal.
    apply Hblank. unfold first_bar. lia.
Qed.

(** X26: for Length >= 1, every result has trend 0, 1 or -1; with trend 0 it
    is blank; the up levels (stop, signal, line) are blank unless the trend
    is 1, and the down levels unless it is -1; a signal bar has Signal > 0
    and a non-zero trend; a bar that is no signal has both signal levels at
    -1; with Signal = 2 a stop level that is set is 0; with Line <= 0 both
    lines are EMPTY_VALUE. *)
Theorem GreenArrow_one_side_per_bar (candles : list Candle) (params : GreenArrowParams)
  (i : nat) (r : GreenArrowResult) :
  (1 <= Length params)%Z ->
  CalculateGreenArrow candles params !! i = Some r ->
  (Trend r = 0 \/ Trend r = 1 \/ Trend r = -1)%Z
  /\ (Trend r = 0%Z -> r = emptyResult)
  /\ (Trend r <> 1%Z -> up_blank r)
  /\ (Trend r <> (-1)%Z -> down_blank r)
  /\ (IsSignal r = true -> (0 < Signal params)%Z /\ Trend r <> 0%Z)
  /\ (IsSignal r = false -> UpSignal r = (-1)%float /\ DownSignal r = (-1)%float)
  /\ (Signal params = 2%Z -> UpStop r <> (-1)%float -> UpStop r = 0%float)
  /\ (Signal params = 2%Z -> DownStop r <> (-1)%float -> DownStop r = 0%float)
  /\ ((Line params <= 0)%Z -> UpLine r = EMPTY_VALUE /\ DownLine r = EMPTY_VALUE).
Proof.
  intros HL Hr.
  destruct (CalculateGreenArrow_bar params candles i r HL Hr)
    as (_ & _ & _ & Hblank & Hbar).
  destruct (Nat.lt_ge_cases i (first_bar params)) as [Hlt|Hge].
  { rewrite (Hblank Hlt). cbn. unfold up_blank, down_blank. cbn.
    repeat split; auto; try discriminate; try congruence. }
  destruct (Hbar Hge) as (Ht & H0 & Hnu & Hnd & Hup & Hdn).
  split; [exact Ht|]. split; [exact H0|]. split; [exact Hnu|]. split; [exact Hnd|].
  destruct Ht as [E|[E|E]].
  - rewrite (H0 E). cbn. repeat split; auto; try discriminate; try congruence.
  - destruct (Hup E) as (Hsig & H2 & Heq & Hno & Hline).
    destruct (Hnd ltac:(lia)) as (D1 & D2 & D3).
    split; [intros Hs; rewrite Hs in Hsig;
            destruct (Z.ltb_spec 0 (Signal params)); [split; lia | discriminate]|].
    split; [intros Hs; split; [apply Hno, Hs | exact D2]|].
    split; [intros S2 _; apply H2, S2|]. split; [intros _ Hc; contradiction|].
    intros Hl. split; [apply Hline, Hl | exact D3].
  - destruct (Hdn E) as (Hsig & H2 & Heq & Hno & Hline).
    destruct (Hnu ltac:(lia)) as (U1 & U2 & U3).
    split; [intros Hs; rewrite Hs in Hsig;
            destruct (Z.ltb_spec 0 (Signal params)); [split; lia | discriminate]|].
    split; [intros Hs; split; [exact U2 | apply Hno, Hs]|].
    split; [intros _ Hc; contradiction|]. split; [intros S2 _; apply H2, S2|].
    intros Hl. split; [exact U3 | apply Hline, Hl].
Qed.

(** X27: for Length >= 1, once a bar has a non-zero trend, every later bar
    of the output has a non-zero trend: the indicator never goes back to no
    trend. *)
Theorem GreenArrow_trend_persists (candles : list Candle) (params : GreenArrowParams)
  (i j : nat) (r r' : GreenArrowResult) :
  (1 <= Length params)%Z ->
  (i <= j)%nat ->
  CalculateGreenArrow candles params !! i = Some r ->
  CalculateGreenArrow candles params !! j = Some r' ->
  Trend r <> 0%Z ->
  Trend r' <> 0%Z.
Proof.
  intros HL Hij Hr Hr' Hnz.
  destruct (CalculateGreenArrow_bar params candles i r HL Hr) as (Hi & Hn & Hnth & _).
  destruct (CalculateGreenArrow_bar params candles j r' HL Hr') as (Hj & _ & Hnth' & _).
  destruct (CalculateGreenArrow_bars params HL candles Hn) as [_ Hall].
  rewrite <- Hnth'. rewrite <- Hnth in Hnz. clear Hr Hr' Hnth Hnth' r r'.
  induction Hij as [|j Hij IH].
  - exact Hnz.
  - destruct (Hall j ltac:(lia)) as (_ & _ & _ & Hstep).
    apply Hstep; [apply IH; lia | exact Hj].
Qed.

(** X28: for Length >= 1 and two consecutive bars of the output: with Signal
    > 0, a bar whose trend is non-zero and differs from the previous bar's
    is a signal bar (with Signal other than 2, its signal level equals its
    stop level); with Signal <= 0 no bar is a signal; with Signal = 2 a bar
    is a signal exactly when its trend is non-zero and differs from the
    previous bar's. *)
Theorem GreenArrow_flips_are_signalled (candles : list Candle)
  (params : GreenArrowParams) (i : nat) (prev r : GreenArrowResult) :
  (1 <= Length params)%Z ->
  CalculateGreenArrow candles params !! i = Some prev ->
  CalculateGreenArrow candles params !! S i = Some r ->
  ((0 < Signal params)%Z -> Trend r <> 0%Z -> Trend r <> Trend prev ->
   IsSignal r = true
   /\ (Signal params <> 2%Z ->
       (Trend r = 1%Z -> UpSignal r = UpStop r)
       /\ (Trend r = (-1)%Z -> DownSignal r = DownStop r)))
  /\ ((Signal params <= 0)%Z -> IsSignal r = false)
  /\ (Signal params = 2%Z ->
      (IsSignal r = true <-> Trend r <> 0%Z /\ Trend r <> Trend prev)).
Proof.
  intros HL Hp Hr.
  destruct (CalculateGreenArrow_bar params candles i prev HL Hp)
    as (Hi & Hn & Hnth & Hpblank & Hpbar).
  destruct (CalculateGreenArrow_bar params candles (S i) r HL Hr)
    as (_ & _ & _ & Hblank & Hbar).
  replace (S i - 1)%nat with i in Hbar by lia. rewrite Hnth in Hbar.
  assert (Trend prev <> 1%Z -> UpStop prev = (-1)%float) as Pu.
  { intros H. destruct (Nat.lt_ge_cases i (first_bar params)) as [Hlt|Hge].
    - rewrite (Hpblank Hlt). reflexivity.
    - destruct (Hpbar Hge) as (_ & _ & Hu & _). apply Hu, H. }
  assert (Trend prev <> (-1)%Z -> DownStop prev = (-1)%float) as Pd.
  { intros H. destruct (Nat.lt_ge_cases i (first_bar params)) as [Hlt|Hge].
    - rewrite (Hpblank Hlt). reflexivity.
    - destruct (Hpbar Hge) as (_ & _ & _ & Hd & _). apply Hd, H. }
  assert (Signal params = 2%Z -> Trend prev = 1%Z -> UpStop prev = 0%float) as Qu.
  { intros S2 H. destruct (Nat.lt_ge_cases i (first_bar params)) as [Hlt|Hge].
    - rewrite (Hpblank Hlt) in H. discriminate.
    - destruct (Hpbar Hge) as (_ & _ & _ & _ & Hu & _).
      destruct (Hu H) as (_ & H2 & _). apply H2, S2. }
  assert (Signal params = 2%Z -> Trend prev = (-1)%Z -> DownStop prev = 0%float) as Qd.
  { intros S2 H. destruct (Nat.lt_ge_cases i (first_bar params)) as [Hlt|Hge].
    - rewrite (Hpblank Hlt) in H. discriminate.
    - destruct (Hpbar Hge) as (_ & _ & _ & _ & _ & Hd).
      destruct (Hd H) as (_ & H2 & _). apply H2, S2. }
  destruct (Nat.lt_ge_cases (S i) (first_bar params)) as [Hlt|Hge].
  { rewrite (Hblank Hlt). cbn.
    split; [intros _ H; contradiction|]. split; [reflexivity|].
    intros _. split; [discriminate | intros [H _]; contradiction]. }
  destruct (Hbar Hge) as (Ht & H0 & Hnu & Hnd & Hup & Hdn).
  destruct Ht as [E|[E|E]].
  - rewrite (H0 E). cbn. split; [intros _ H; contradiction|]. split; [reflexivity|].
    intros _. split; [discriminate | intros [H _]; contradiction].
  - destruct (Hup E) as (Hsig & H2 & Heq & Hno & Hline). rewrite E.
    split; [|split].
    + intros Hs _ Hflip. rewrite Pu in Hsig by congruence.
      destruct (Z.ltb_spec 0 (Signal params)); [|lia].
      assert (IsSignal r = true) as Hy by (rewrite Hsig; destruct (S i =? first_bar params)%nat; reflexivity).
      split; [exact Hy|]. intros N2. split; [intros _; apply Heq; assumption|].
      discriminate.
    + intros Hs. rewrite Hsig. destruct (Z.ltb_spec 0 (Signal params)); [lia | reflexivity].
    + intros S2. rewrite Hsig, S2. cbn [Z.ltb Z.compare].
      destruct (Nat.eqb_spec (S i) (first_bar params)) as [Ef|Nf].
      * split; [intros _|reflexivity]. split; [discriminate|].
        rewrite (Hpblank ltac:(lia)). discriminate.
      * destruct (Z.eq_dec (Trend prev) 1%Z) as [P1|P1].
        -- rewrite (Qu S2 P1). split; [discriminate|]. intros [_ H]. congruence.
        -- rewrite (Pu P1). split; [intros _|reflexivity]. split; [discriminate|congruence].
  - destruct (Hdn E) as (Hsig & H2 & Heq & Hno & Hline). rewrite E.
    split; [|split].
    + intros Hs _ Hflip. rewrite Pd in Hsig by congruence.
      destruct (Z.ltb_spec 0 (Signal params)); [|lia].
      assert (IsSignal r = true) as Hy by (rewrite Hsig; destruct (S i =? first_bar params)%nat; reflexivity).
      split; [exact Hy|]. intros N2. split; [discriminate|].
      intros _; apply Heq; assumption.
    + intros Hs. rewrite Hsig. destruct (Z.ltb_spec 0 (Signal params)); [lia | reflexivity].
    + intros S2. rewrite Hsig, S2. cbn [Z.ltb Z.compare].
      destruct (Nat.eqb_spec (S i) (first_bar params)) as [Ef|Nf].
      * split; [intros _|reflexivity]. split; [discriminate|].
        rewrite (Hpblank ltac:(lia)). discriminate.
      * destruct (Z.eq_dec (Trend prev) (-1)%Z) as [P1|P1].
        -- rewrite (Qd S2 P1). split; [discriminate|]. intros [_ H]. congruence.
        -- rewrite (Pd P1). split; [intros _|reflexivity]. split; [discriminate|congruence].
Qed.

(** *** The theorems on the twenty bars of the scenario *)

Lemma GreenArrow_output_shape_witness :
  length (CalculateGreenArrow IndicatorSpec.flat_then_rising IndicatorSpec.defaultParams)
  = length IndicatorSpec.flat_then_rising.
Proof.
  destruct (GreenArrow_output_shape IndicatorSpec.flat_then_rising
              IndicatorSpec.defaultParams) as (_ & H).
  - vm_compute. discriminate.
  - destruct H as [H _].
    + vm_compute. discriminate.
    + exact H.
Defined.

Lemma GreenArrow_one_side_per_bar_witness :
  down_blank
    (nth 7 (CalculateGreenArrow IndicatorSpec.flat_then_rising IndicatorSpec.defaultParams)
       emptyResult).
Proof.
  destruct (GreenArrow_one_side_per_bar IndicatorSpec.flat_then_rising
              IndicatorSpec.defaultParams 7
              (nth 7 (CalculateGreenArrow IndicatorSpec.flat_then_rising
                        IndicatorSpec.defaultParams) emptyResult))
    as (_ & _ & _ & H & _).
  - vm_compute. discriminate.
  - vm_compute. reflexivity.
  - apply H. vm_compute. discriminate.
Defined.

Lemma GreenArrow_trend_persists_witness :
  Trend (nth 8 (CalculateGreenArrow IndicatorSpec.flat_then_rising
                  IndicatorSpec.defaultParams) emptyResult) <> 0%Z.
Proof.
  apply (GreenArrow_trend_persists IndicatorSpec.flat_then_rising
           IndicatorSpec.defaultParams 7 8
           (nth 7 (CalculateGreenArrow IndicatorSpec.flat_then_rising
                     IndicatorSpec.defaultParams) emptyResult)).
  - vm_compute. discriminate.
  - lia.
  - vm_compute. reflexivity.
  - vm_compute. reflexivity.
  - vm_compute. discriminate.
Defined.

Lemma GreenArrow_flips_are_signalled_witness :
  IsSignal (nth 7 (CalculateGreenArrow IndicatorSpec.flat_then_rising
                     IndicatorSpec.defaultParams) emptyResult) = true.
Proof.
  destruct (GreenArrow_flips_are_signalled IndicatorSpec.flat_then_rising
              IndicatorSpec.defaultParams 6
              (nth 6 (CalculateGreenArrow IndicatorSpec.flat_then_rising
                        IndicatorSpec.defaultParams) emptyResult)
              (nth 7 (CalculateGreenArrow IndicatorSpec.flat_then_rising
                        IndicatorSpec.defaultParams) emptyResult))
    as (H & _).
  - vm_compute. discriminate.
  - vm_compute. reflexivity.
  - vm_compute. reflexivity.
  - destruct H as [H _].
    + vm_compute. reflexivity.
    + vm_compute. discriminate.
    + vm_compute. discriminate.
    + exact H.
Defined.

End LoopProofs.
